(** * objexplore: the navigation core

    A shallow embedding of [objexplore/cached_object.py],
    [objexplore/overview_layout.py] and the navigation branches of
    [Explorer.process_key_event] in [objexplore/objexplore.py].

    Python objects with identity (nodes, layouts) live in stores and are
    named by their address; code that can raise runs in an error monad
    that keeps the store as it was when the exception left. *)

From Stdlib Require Import Ascii.
From stdpp Require Import base option list strings pretty sorting.

Local Open Scope string_scope.
Local Open Scope list_scope.

(** ** Exceptions and results *)

(** The exception classes the sources distinguish.  [KeyboardInterrupt]
    stands for the classes outside [Exception], which [except Exception]
    lets through.  [ReferenceError] is what reading a store at an address
    that holds no object gives; Python has no such address, and the
    theorems below run on stores where every address read is live. *)
Inductive exn :=
| ValueError (msg : string)
| TypeError
| AttributeError
| IndexError
| OSError
| ReferenceError
| KeyboardInterrupt.

Definition isinstance_Exception (e : exn) : bool :=
  match e with KeyboardInterrupt => false | _ => true end.

Definition isinstance_TypeError (e : exn) : bool :=
  match e with TypeError => true | _ => false end.

Inductive result (A : Type) :=
| Ok (a : A)
| Raise (e : exn).
Arguments Ok {A} a.
Arguments Raise {A} e.

#[global] Instance result_ret : MRet result := @Ok.
#[global] Instance result_bind : MBind result := λ A B f r,
  match r with Ok a => f a | Raise e => Raise e end.
#[global] Instance result_fmap : FMap result := λ A B f r,
  match r with Ok a => Ok (f a) | Raise e => Raise e end.

(** [try: r except Exception: d] *)
Definition except_Exception {A} (r : result A) (d : A) : result A :=
  match r with
  | Ok a => Ok a
  | Raise e => if isinstance_Exception e then Ok d else Raise e
  end.

(** [try: r except TypeError: d] *)
Definition except_TypeError {A} (r : result A) (d : A) : result A :=
  match r with
  | Ok a => Ok a
  | Raise e => if isinstance_TypeError e then Ok d else Raise e
  end.

(** Stateful code: the store survives an exception. *)
Definition M (S A : Type) : Type := S → result A * S.

#[global] Instance M_ret {S} : MRet (M S) := λ A a s, (Ok a, s).
#[global] Instance M_bind {S} : MBind (M S) := λ A B f m s,
  match m s with
  | (Ok a, s') => f a s'
  | (Raise e, s') => (Raise e, s')
  end.

Definition raise {S A} (e : exn) : M S A := λ s, (Raise e, s).
Definition lift {S A} (r : result A) : M S A := λ s, (r, s).
Definition get {S} : M S S := λ s, (Ok s, s).
Definition put {S} (s : S) : M S unit := λ _, (Ok tt, s).

(** [for x in l: body x], where [body] answers whether it left by
    [break]; the loop answers the same, which is what a [for ... else]
    asks. *)
Fixpoint for_break {S A} (l : list A) (body : A → M S bool) : M S bool :=
  match l with
  | [] => mret false
  | x :: l' => b ← body x; if b : bool then mret true else for_break l' body
  end.

(** A loop that threads a local variable: [acc] is rebound by every
    round *)
Fixpoint foldlM {S A B} (l : list A) (acc : B) (body : B → A → M S B) : M S B :=
  match l with
  | [] => mret acc
  | x :: l' => acc' ← body acc x; foldlM l' acc' body
  end.

(** [for x in l: body x] *)
Fixpoint for_in {S A} (l : list A) (body : A → M S unit) : M S unit :=
  match l with
  | [] => mret tt
  | x :: l' => body x;; for_in l' body
  end.

(** ** Python dictionaries

    Insertion-ordered: assignment to a present key keeps its place,
    assignment to a new key appends, deletion keeps the order of the
    rest. *)
Section Dict.
Context {K V : Type} `{EqDecision K}.

Definition dict := list (K * V).

Fixpoint dict_set (k : K) (v : V) (d : list (K * V)) : list (K * V) :=
  match d with
  | [] => [(k, v)]
  | (k', v') :: d' =>
      if decide (k' = k) then (k, v) :: d' else (k', v') :: dict_set k v d'
  end.

Fixpoint dict_del (k : K) (d : list (K * V)) : list (K * V) :=
  match d with
  | [] => []
  | (k', v') :: d' =>
      if decide (k' = k) then d' else (k', v') :: dict_del k d'
  end.

Fixpoint dict_get (k : K) (d : list (K * V)) : option V :=
  match d with
  | [] => None
  | (k', v') :: d' => if decide (k' = k) then Some v' else dict_get k d'
  end.
End Dict.

(** ** Strings *)

(** [s.startswith("_")] *)
Definition startswith_underscore (s : string) : bool :=
  match s with
  | String c _ => bool_decide (c = "_"%char)
  | EmptyString => false
  end.

(** [sorted(l)] on strings *)
Definition sorted (l : list string) : list string :=
  merge_sort (λ a b, Is_true (String.leb a b)) l.

(** [l.remove(x)]: drops the first occurrence *)
Fixpoint list_remove (x : string) (l : list string) : list string :=
  match l with
  | [] => []
  | y :: l' => if decide (y = x) then l' else y :: list_remove x l'
  end.

(** The text of one double quote character *)
Definition dquote : string := String (ascii_of_nat 34) EmptyString.

(** A [rich.text.Text], by its plain text; styles do not take part in
    any property below, so the dim italic style that a node or a line
    gets when [is_selectable] refuses its object is left out.
    [highlighter(s)] only adds styles. *)
Definition Text := string.
Definition highlighter (s : string) : Text := s.

(** [bool(parent_path)]: [None] and the empty text are falsy *)
Definition truthy (parent_path : option Text) : bool :=
  match parent_path with
  | Some (String _ _) => true
  | _ => false
  end.

(** ** The inspected objects *)

(** What [type(obj)] is compared with in [CachedObject.filter] *)
Inductive pytype := type_dict | type_list | type_tuple | type_set | type_other.

(** A dictionary key or a sequence position, as far as the code looks at
    it: its type and its [str()]. *)
Inductive pyindex :=
| IStr (s : string)        (* type(index) == str *)
| IInt (n : Z)             (* an int, a sequence position among them *)
| IBuiltin (str : string)  (* float, dict, list, set, tuple, bool *)
| INone                    (* the key None *)
| IObj (str : string).     (* any other hashable object *)

#[global] Instance pyindex_eq_dec : EqDecision pyindex.
Proof. solve_decision. Defined.

(** [str(index)] *)
Definition str_index (i : pyindex) : string :=
  match i with
  | IStr s => s
  | IInt n => pretty n
  | IBuiltin s => s
  | INone => "None"
  | IObj s => s
  end.

(** ** Stores of Python objects

    An object with identity is an entry of a store and is named by its
    address; two names for one address are two references to one
    object. *)
Abbreviation ref := nat.

Section Store.
Context {X : Type}.

(** Reading the object at an address *)
Definition deref (r : ref) : M (list X) X := λ h,
  match h !! r with
  | Some n => (Ok n, h)
  | None => (Raise ReferenceError, h)
  end.

(** A new object gets the next address *)
Definition new (n : X) : M (list X) ref := λ h,
  (Ok (length h), h ++ [n]).

(** In-place mutation of the object at an address *)
Definition modify (r : ref) (f : X → X) : M (list X) unit := λ h,
  match h !! r with
  | Some n => (Ok tt, <[r := f n]> h)
  | None => (Raise ReferenceError, h)
  end.
End Store.

Record CachedObject (handle FunctionType : Type) := {
  obj : handle;
  is_callable : bool;
  plain_attrs : list string;
  dotpath : Text;
  attr_name : string;
  typeof : Text;
  docstring : Text;
  repr : Text;
  plain_public_attributes : list string;
  plain_private_attributes : list string;
  public_attributes : list (string * ref);
  private_attributes : list (string * ref);
  filtered_public_attributes : list (string * ref);
  filtered_private_attributes : list (string * ref);
  _source : string;
  length_ : option string;
  isbuiltin : bool;
  isclass : bool;
  isfunction : bool;
  ismethod : bool;
  ismodule : bool;
  filters : list FunctionType;
  filtered_dict : list (pyindex * (Text * ref));
  filtered_list : list (Text * ref);
}.
Arguments obj {_ _}. Arguments is_callable {_ _}. Arguments plain_attrs {_ _}.
Arguments dotpath {_ _}. Arguments attr_name {_ _}. Arguments typeof {_ _}.
Arguments docstring {_ _}. Arguments repr {_ _}.
Arguments plain_public_attributes {_ _}. Arguments plain_private_attributes {_ _}.
Arguments public_attributes {_ _}. Arguments private_attributes {_ _}.
Arguments filtered_public_attributes {_ _}.
Arguments filtered_private_attributes {_ _}.
Arguments _source {_ _}. Arguments length_ {_ _}. Arguments isbuiltin {_ _}.
Arguments isclass {_ _}. Arguments isfunction {_ _}. Arguments ismethod {_ _}.
Arguments ismodule {_ _}. Arguments filters {_ _}.
Arguments filtered_dict {_ _}. Arguments filtered_list {_ _}.

(** The reflection provider: what the interpreter and the libraries
    answer about a live object.  [is_selectable] is [utils.is_selectable]
    and [call] is the application of a filter function to a node; both
    come from outside the three modules embedded here. *)
Class Reflection (handle FunctionType : Type) := {
  is_None : handle → bool;                       (* obj is None *)
  callable : handle → bool;
  dir : handle → list string;
  getattr : handle → string → result handle;
  type : handle → pytype;
  str_type : handle → result string;             (* str(type(obj)) *)
  py_repr : handle → result string;              (* repr(obj) *)
  getdoc : handle → result (option string);      (* inspect.getdoc *)
  getsource : handle → result string;            (* inspect.getsource *)
  len : handle → result nat;
  items : handle → list (pyindex * handle);      (* obj.items() of a dict *)
  iter : handle → list handle;                   (* iteration of a list, tuple, set *)
  inspect_isbuiltin : handle → bool;
  inspect_isclass : handle → bool;
  inspect_isfunction : handle → bool;
  inspect_ismethod : handle → bool;
  inspect_ismodule : handle → bool;
  is_selectable : handle → bool;
  render_str : string → Text;                    (* console.render_str *)
  call : FunctionType → CachedObject handle FunctionType → bool;
}.

Module cached_object.
Section WithProvider.
Context {handle FunctionType : Type} `{!Reflection handle FunctionType}.

Abbreviation CachedObject := (CachedObject handle FunctionType).
Abbreviation Heap := (list CachedObject).

(** Lines 36-55: the breadcrumb of a node *)
Definition make_dotpath (o : handle) (parent_path : option Text)
    (attr_name : option string) (index : option pyindex) : result Text :=
  if is_None o then Ok (highlighter "None")
  else match attr_name with
  | Some attr_name =>
      if negb (truthy parent_path) then Ok attr_name
      else Ok (default "" parent_path +:+ "." +:+ attr_name)
  | None =>
      match index with
      | Some index =>
          let repr_index :=
            match index with
            | IStr s => render_str (dquote +:+ s +:+ dquote)
            | _ => render_str (str_index index)
            end in
          if negb (truthy parent_path) then Ok ("[" +:+ repr_index +:+ "]")
          else Ok (default "" parent_path +:+ "[" +:+ repr_index +:+ "]")
      | None => Raise (ValueError "Need to specify an attribute name or an index")
      end
  end.

(** [CachedObject.__init__] *)
Definition __init__ (o : handle) (parent_path : option Text)
    (attr_name : option string) (index : option pyindex) : result CachedObject :=
  let is_callable := callable o in
  let plain_attrs := dir o in
  dotpath ← make_dotpath o parent_path attr_name index;
  attr_name ← match attr_name with
              | Some (String c s) => Ok (String c s)
              | _ => py_repr o
              end;
  typeof ← highlighter <$> str_type o;
  doc ← getdoc o;
  let docstring :=
    render_str match doc with Some (String c s) => String c s | _ => "None" end in
  repr ← highlighter <$> py_repr o;
  let plain_attrs :=
    if bool_decide ("__weakref__" ∈ plain_attrs)
    then list_remove "__weakref__" plain_attrs else plain_attrs in
  let plain_public_attributes :=
    sorted (List.filter (λ attr, negb (startswith_underscore attr)) plain_attrs) in
  let plain_private_attributes :=
    sorted (List.filter startswith_underscore plain_attrs) in
  _source ← except_Exception (getsource o) "";
  length ← except_TypeError ((λ n : nat, Some (pretty n)) <$> len o) None;
  Ok {| obj := o;
        is_callable := is_callable;
        plain_attrs := plain_attrs;
        dotpath := dotpath;
        attr_name := attr_name;
        typeof := typeof;
        docstring := docstring;
        repr := repr;
        plain_public_attributes := plain_public_attributes;
        plain_private_attributes := plain_private_attributes;
        public_attributes := [];
        private_attributes := [];
        filtered_public_attributes := [];
        filtered_private_attributes := [];
        _source := _source;
        length_ := length;
        isbuiltin := inspect_isbuiltin o;
        isclass := inspect_isclass o;
        isfunction := inspect_isfunction o;
        ismethod := inspect_ismethod o;
        ismodule := inspect_ismodule o;
        filters := [];
        filtered_dict := [];
        filtered_list := [] |}.

(** *** The node store *)

(** Field assignment [self.f = v], one definition per assigned field *)
Definition with_public_attributes (v : list (string * ref)) (n : CachedObject) : CachedObject :=
  {| obj := obj n;
     is_callable := is_callable n;
     plain_attrs := plain_attrs n;
     dotpath := dotpath n;
     attr_name := attr_name n;
     typeof := typeof n;
     docstring := docstring n;
     repr := repr n;
     plain_public_attributes := plain_public_attributes n;
     plain_private_attributes := plain_private_attributes n;
     public_attributes := v;
     private_attributes := private_attributes n;
     filtered_public_attributes := filtered_public_attributes n;
     filtered_private_attributes := filtered_private_attributes n;
     _source := _source n;
     length_ := length_ n;
     isbuiltin := isbuiltin n;
     isclass := isclass n;
     isfunction := isfunction n;
     ismethod := ismethod n;
     ismodule := ismodule n;
     filters := filters n;
     filtered_dict := filtered_dict n;
     filtered_list := filtered_list n |}.

Definition with_private_attributes (v : list (string * ref)) (n : CachedObject) : CachedObject :=
  {| obj := obj n;
     is_callable := is_callable n;
     plain_attrs := plain_attrs n;
     dotpath := dotpath n;
     attr_name := attr_name n;
     typeof := typeof n;
     docstring := docstring n;
     repr := repr n;
     plain_public_attributes := plain_public_attributes n;
     plain_private_attributes := plain_private_attributes n;
     public_attributes := public_attributes n;
     private_attributes := v;
     filtered_public_attributes := filtered_public_attributes n;
     filtered_private_attributes := filtered_private_attributes n;
     _source := _source n;
     length_ := length_ n;
     isbuiltin := isbuiltin n;
     isclass := isclass n;
     isfunction := isfunction n;
     ismethod := ismethod n;
     ismodule := ismodule n;
     filters := filters n;
     filtered_dict := filtered_dict n;
     filtered_list := filtered_list n |}.

Definition with_filtered_public_attributes (v : list (string * ref)) (n : CachedObject) : CachedObject :=
  {| obj := obj n;
     is_callable := is_callable n;
     plain_attrs := plain_attrs n;
     dotpath := dotpath n;
     attr_name := attr_name n;
     typeof := typeof n;
     docstring := docstring n;
     repr := repr n;
     plain_public_attributes := plain_public_attributes n;
     plain_private_attributes := plain_private_attributes n;
     public_attributes := public_attributes n;
     private_attributes := private_attributes n;
     filtered_public_attributes := v;
     filtered_private_attributes := filtered_private_attributes n;
     _source := _source n;
     length_ := length_ n;
     isbuiltin := isbuiltin n;
     isclass := isclass n;
     isfunction := isfunction n;
     ismethod := ismethod n;
     ismodule := ismodule n;
     filters := filters n;
     filtered_dict := filtered_dict n;
     filtered_list := filtered_list n |}.

Definition with_filtered_private_attributes (v : list (string * ref)) (n : CachedObject) : CachedObject :=
  {| obj := obj n;
     is_callable := is_callable n;
     plain_attrs := plain_attrs n;
     dotpath := dotpath n;
     attr_name := attr_name n;
     typeof := typeof n;
     docstring := docstring n;
     repr := repr n;
     plain_public_attributes := plain_public_attributes n;
     plain_private_attributes := plain_private_attributes n;
     public_attributes := public_attributes n;
     private_attributes := private_attributes n;
     filtered_public_attributes := filtered_public_attributes n;
     filtered_private_attributes := v;
     _source := _source n;
     length_ := length_ n;
     isbuiltin := isbuiltin n;
     isclass := isclass n;
     isfunction := isfunction n;
     ismethod := ismethod n;
     ismodule := ismodule n;
     filters := filters n;
     filtered_dict := filtered_dict n;
     filtered_list := filtered_list n |}.

Definition with_filters (v : list FunctionType) (n : CachedObject) : CachedObject :=
  {| obj := obj n;
     is_callable := is_callable n;
     plain_attrs := plain_attrs n;
     dotpath := dotpath n;
     attr_name := attr_name n;
     typeof := typeof n;
     docstring := docstring n;
     repr := repr n;
     plain_public_attributes := plain_public_attributes n;
     plain_private_attributes := plain_private_attributes n;
     public_attributes := public_attributes n;
     private_attributes := private_attributes n;
     filtered_public_attributes := filtered_public_attributes n;
     filtered_private_attributes := filtered_private_attributes n;
     _source := _source n;
     length_ := length_ n;
     isbuiltin := isbuiltin n;
     isclass := isclass n;
     isfunction := isfunction n;
     ismethod := ismethod n;
     ismodule := ismodule n;
     filters := v;
     filtered_dict := filtered_dict n;
     filtered_list := filtered_list n |}.

Definition with_filtered_dict (v : list (pyindex * (Text * ref))) (n : CachedObject) : CachedObject :=
  {| obj := obj n;
     is_callable := is_callable n;
     plain_attrs := plain_attrs n;
     dotpath := dotpath n;
     attr_name := attr_name n;
     typeof := typeof n;
     docstring := docstring n;
     repr := repr n;
     plain_public_attributes := plain_public_attributes n;
     plain_private_attributes := plain_private_attributes n;
     public_attributes := public_attributes n;
     private_attributes := private_attributes n;
     filtered_public_attributes := filtered_public_attributes n;
     filtered_private_attributes := filtered_private_attributes n;
     _source := _source n;
     length_ := length_ n;
     isbuiltin := isbuiltin n;
     isclass := isclass n;
     isfunction := isfunction n;
     ismethod := ismethod n;
     ismodule := ismodule n;
     filters := filters n;
     filtered_dict := v;
     filtered_list := filtered_list n |}.

Definition with_filtered_list (v : list (Text * ref)) (n : CachedObject) : CachedObject :=
  {| obj := obj n;
     is_callable := is_callable n;
     plain_attrs := plain_attrs n;
     dotpath := dotpath n;
     attr_name := attr_name n;
     typeof := typeof n;
     docstring := docstring n;
     repr := repr n;
     plain_public_attributes := plain_public_attributes n;
     plain_private_attributes := plain_private_attributes n;
     public_attributes := public_attributes n;
     private_attributes := private_attributes n;
     filtered_public_attributes := filtered_public_attributes n;
     filtered_private_attributes := filtered_private_attributes n;
     _source := _source n;
     length_ := length_ n;
     isbuiltin := isbuiltin n;
     isclass := isclass n;
     isfunction := isfunction n;
     ismethod := ismethod n;
     ismodule := ismodule n;
     filters := filters n;
     filtered_dict := filtered_dict n;
     filtered_list := v |}.

(** [enumerate(l)] *)
Definition enumerate {A} (l : list A) : list (nat * A) := imap (λ i x, (i, x)) l.

(** A key passed as the [index] argument: the key [None] is the
    argument's default *)
Definition index_argument (key : pyindex) : option pyindex :=
  match key with INone => None | _ => Some key end.

(** The inner loop of every filtering pass:
    [for _filter in self.filters: if _filter(cached_obj): keep; break] *)
Definition first_match (fs : list FunctionType) (cached_obj : ref)
    (keep : M Heap unit) : M Heap bool :=
  for_break fs (λ _filter,
    c ← deref cached_obj;
    if call _filter c then keep;; mret true else mret false).

(** Lines 148-157 and 159-168 of [CachedObject.filter]: the same pass,
    once on the public and once on the private members.  [members]
    reads the unfiltered field and [with_filtered] assigns the filtered
    one. *)
Definition filter_members (members filtered : CachedObject → list (string * ref))
    (with_filtered : list (string * ref) → CachedObject → CachedObject)
    (self : ref) : M Heap unit :=
  modify self (with_filtered []);;
  n ← deref self;
  match filters n with
  | [] => modify self (λ n, with_filtered (members n) n)
  | fs =>
      for_in (members n) (λ '(attr, cached_obj),
        first_match fs cached_obj
          (modify self (λ n, with_filtered (dict_set attr cached_obj (filtered n)) n));;
        mret tt)
  end.

(** Lines 170-201: the entries of a dictionary *)
Definition filter_dict (self : ref) : M Heap unit :=
  modify self (with_filtered_dict []);;
  n ← deref self;
  match type (obj n) with
  | type_dict =>
      for_in (items (obj n)) (λ '(key, val),
        let repr_key :=
          match key with
          | IStr s => render_str (dquote +:+ s +:+ dquote)
          | IInt _ | IBuiltin _ => render_str (str_index key)
          | _ => highlighter (str_index key)
          end in
        repr_val ← lift (highlighter <$> str_type val);
        let line := " " +:+ repr_key +:+ ": " +:+ repr_val in
        c ← lift (__init__ val (Some (dotpath n)) None (index_argument key));
        r ← new c;
        modify self (λ n, with_filtered_dict (dict_set key (line, r) (filtered_dict n)) n));;
      match filters n with
      | [] => mret tt
      | fs =>
          n' ← deref self;
          for_in (filtered_dict n') (λ '(attr, (line, cached_obj)),
            broke ← first_match fs cached_obj
              (modify self (λ n, with_filtered_dict
                 (dict_set attr (line, cached_obj) (filtered_dict n)) n));
            if broke : bool then mret tt
            else modify self (λ n, with_filtered_dict (dict_del attr (filtered_dict n)) n))
      end
  | _ => mret tt
  end.

(** Lines 203-226: the entries of a list, a tuple or a set *)
Definition filter_list (self : ref) : M Heap unit :=
  modify self (with_filtered_list []);;
  n ← deref self;
  match type (obj n) with
  | type_list | type_tuple | type_set =>
      for_in (enumerate (iter (obj n))) (λ '(index, item),
        typ ← lift (highlighter <$> str_type item);
        let line := " [" +:+ pretty index +:+ "] " +:+ typ in
        c ← lift (__init__ item (Some (dotpath n)) None (Some (IInt (Z.of_nat index))));
        r ← new c;
        modify self (λ n, with_filtered_list (filtered_list n ++ [(line, r)]) n));;
      match filters n with
      | [] => mret tt
      | fs =>
          n' ← deref self;
          new_filtered_list ←
            foldlM (filtered_list n') [] (λ new_filtered_list '(line, cached_obj),
              broke ← first_match fs cached_obj (mret tt);
              mret (if broke : bool then new_filtered_list ++ [(line, cached_obj)]
                    else new_filtered_list));
          modify self (with_filtered_list new_filtered_list)
      end
  | _ => mret tt
  end.

(** [CachedObject.filter] *)
Definition filter (self : ref) : M Heap unit :=
  filter_members public_attributes filtered_public_attributes
    with_filtered_public_attributes self;;
  filter_members private_attributes filtered_private_attributes
    with_filtered_private_attributes self;;
  filter_dict self;;
  filter_list self.

(** One pass of [cache] over the names of one kind: fetch the member,
    wrap it in a node, file it under its name *)
Definition cache_attrs (self : ref) (n : CachedObject) (names : list string)
    (store : string → ref → CachedObject → CachedObject) : M Heap unit :=
  for_in names (λ attr,
    v ← lift (getattr (obj n) attr);
    c ← lift (__init__ v (Some (dotpath n)) (Some attr) None);
    r ← new c;
    modify self (store attr r)).

(** [CachedObject.cache] *)
Definition cache (self : ref) : M Heap unit :=
  n ← deref self;
  match public_attributes n with
  | [] =>
      cache_attrs self n (plain_public_attributes n)
        (λ attr r n, with_public_attributes (dict_set attr r (public_attributes n)) n)
  | _ => mret tt
  end;;
  n ← deref self;
  match private_attributes n with
  | [] =>
      cache_attrs self n (plain_private_attributes n)
        (λ attr r n, with_private_attributes (dict_set attr r (private_attributes n)) n)
  | _ => mret tt
  end;;
  filter self.

(** [CachedObject.set_filters] *)
Definition set_filters (self : ref) (fs : list FunctionType) : M Heap unit :=
  modify self (with_filters fs);;
  filter self.

End WithProvider.
End cached_object.

(** ** [overview_layout.py]: the preview pane's state *)
Module overview_layout.
Inductive OverviewState := all | docstring | value.
Inductive PreviewState := repr | source.

#[global] Instance PreviewState_eq_dec : EqDecision PreviewState.
Proof. solve_decision. Defined.

Record OverviewLayout := {
  state : OverviewState;
  preview_state : PreviewState;
}.

(** [OverviewLayout.__init__] *)
Definition __init__ : OverviewLayout :=
  {| state := all; preview_state := repr |}.
End overview_layout.

(** ** The explorer pane's state *)
Module explorer_layout.
Inductive ExplorerState := public | private | entries.

#[global] Instance ExplorerState_eq_dec : EqDecision ExplorerState.
Proof. solve_decision. Defined.

(** Modelled from the spec: [explorer_layout.py] is not among the
    sources.  Of [ExplorerLayout] the spec gives the node shown, the
    active collection selector and the cursor, a plain index into the
    active filtered collection. *)
Record ExplorerLayout := {
  cached_obj : ref;
  state : ExplorerState;
  index : nat;
}.

(** Modelled from the spec: [ExplorerLayout(cached_obj=...)] is a fresh
    UI state, "selection reset to the first visible entry, collection
    selector defaulting to public". *)
Definition __init__ (cached_obj : ref) : ExplorerLayout :=
  {| cached_obj := cached_obj; state := public; index := 0 |}.

Section WithProvider.
Context {handle FunctionType : Type} `{!Reflection handle FunctionType}.

(** Modelled from the spec: the property [selected_object] is
    "the Node at the current cursor position in the active filtered
    collection", undefined when there is none; here then
    [IndexError]. *)
Definition selected_object (self : ExplorerLayout)
    : M (list (CachedObject handle FunctionType)) ref :=
  n ← deref (cached_obj self);
  let collection :=
    match state self with
    | public => (filtered_public_attributes n).*2
    | private => (filtered_private_attributes n).*2
    | entries =>
        match type (obj n) with
        | type_dict => (filtered_dict n).*2.*2
        | _ => (filtered_list n).*2
        end
    end in
  match collection !! index self with
  | Some c => mret c
  | None => raise IndexError
  end.
End WithProvider.
End explorer_layout.

(** ** The navigation stack *)
Module stack_layout.
(** [StackFrame(cached_obj=..., explorer_layout=..., overview_layout=...)]:
    a frame refers to its node and to its two layout objects. *)
Record StackFrame := {
  cached_obj : ref;
  explorer_layout : ref;
  overview_layout : ref;
}.

(** Modelled from the spec: [stack_layout.py] is not among the sources.
    The stack is "an ordered sequence of StackFrames; the frame at the
    tail is current"; [index] is the history view's cursor and
    [visible] tells whether the history view is active. *)
Record StackLayout := {
  head_obj : ref;
  stack : list StackFrame;
  index : nat;
  visible : bool;
}.

(** [StackLayout(head_obj=..., visible=...)] *)
Definition __init__ (head_obj : ref) (visible : bool) : StackLayout :=
  {| head_obj := head_obj; stack := []; index := 0; visible := visible |}.

Definition with_stack (v : list StackFrame) (self : StackLayout) : StackLayout :=
  {| head_obj := head_obj self; stack := v; index := index self;
     visible := visible self |}.

(** Modelled from the spec: push "appends a new StackFrame". *)
Definition append (frame : StackFrame) (self : StackLayout) : StackLayout :=
  with_stack (stack self ++ [frame]) self.

(** Modelled from the spec: pop "removes the tail frame"; "attempting
    to pop when only one frame remains must leave the stack unchanged,
    not error". *)
Definition pop (self : StackLayout) : StackLayout :=
  match stack self with
  | _ :: _ :: _ => with_stack (removelast (stack self)) self
  | _ => self
  end.

(** [self.stack[i]] with Python's indexing: a negative [i] counts from
    the tail, an [i] outside the sequence raises. *)
Definition __getitem__ (self : StackLayout) (i : Z) : result StackFrame :=
  let n := Z.of_nat (length (stack self)) in
  let j := if (i <? 0)%Z then (i + n)%Z else i in
  if (j <? 0)%Z then Raise IndexError
  else match stack self !! Z.to_nat j with
       | Some frame => Ok frame
       | None => Raise IndexError
       end.

(** Modelled from the spec: the stack is "a non-empty ordered sequence
    of StackFrames", and the guard [and self.stack] asks for that. *)
Definition __bool__ (self : StackLayout) : bool :=
  match stack self with [] => false | _ => true end.

(** [StackLayout.select], which the jump branch calls, has its body
    neither in the sources nor in the spec.  It is taken as given: from
    the stack, the node to go to and the stack it leaves behind. *)
Class Select := select : StackLayout → result (ref * StackLayout).

(** Two readings of it.  The first hands back the node of the frame
    under the history cursor and leaves the stack alone. *)
Definition select_lookup : Select := λ self,
  frame ← __getitem__ self (Z.of_nat (index self));
  Ok (cached_obj frame, self).

End stack_layout.

(** ** [objexplore.py]: the explorer and its navigation keys *)
Module objexplore.
Import overview_layout explorer_layout stack_layout.
Section WithProvider.
Context {handle FunctionType : Type} `{!Reflection handle FunctionType}.

(** The explorer, together with the stores its references point into:
    [nodes] for [CachedObject]s, [explorer_layouts] and
    [overview_layouts] for the layout objects.  Of the help and filter
    panes only their [visible] flag takes part in the navigation
    keys. *)
Record Explorer := {
  nodes : list (CachedObject handle FunctionType);
  explorer_layouts : list ExplorerLayout;
  overview_layouts : list OverviewLayout;
  cached_obj : ref;
  stack : StackLayout;
  help_layout_visible : bool;
  explorer_layout : ref;
  overview_layout : ref;
  filter_layout_visible : bool;
}.

Definition with_nodes (v : list (CachedObject handle FunctionType)) (self : Explorer) : Explorer :=
  {| nodes := v; explorer_layouts := explorer_layouts self; overview_layouts := overview_layouts self; cached_obj := cached_obj self; stack := stack self; help_layout_visible := help_layout_visible self; explorer_layout := explorer_layout self; overview_layout := overview_layout self; filter_layout_visible := filter_layout_visible self |}.

Definition with_explorer_layouts (v : list ExplorerLayout) (self : Explorer) : Explorer :=
  {| nodes := nodes self; explorer_layouts := v; overview_layouts := overview_layouts self; cached_obj := cached_obj self; stack := stack self; help_layout_visible := help_layout_visible self; explorer_layout := explorer_layout self; overview_layout := overview_layout self; filter_layout_visible := filter_layout_visible self |}.

Definition with_overview_layouts (v : list OverviewLayout) (self : Explorer) : Explorer :=
  {| nodes := nodes self; explorer_layouts := explorer_layouts self; overview_layouts := v; cached_obj := cached_obj self; stack := stack self; help_layout_visible := help_layout_visible self; explorer_layout := explorer_layout self; overview_layout := overview_layout self; filter_layout_visible := filter_layout_visible self |}.

Definition with_cached_obj (v : ref) (self : Explorer) : Explorer :=
  {| nodes := nodes self; explorer_layouts := explorer_layouts self; overview_layouts := overview_layouts self; cached_obj := v; stack := stack self; help_layout_visible := help_layout_visible self; explorer_layout := explorer_layout self; overview_layout := overview_layout self; filter_layout_visible := filter_layout_visible self |}.

Definition with_stack (v : StackLayout) (self : Explorer) : Explorer :=
  {| nodes := nodes self; explorer_layouts := explorer_layouts self; overview_layouts := overview_layouts self; cached_obj := cached_obj self; stack := v; help_layout_visible := help_layout_visible self; explorer_layout := explorer_layout self; overview_layout := overview_layout self; filter_layout_visible := filter_layout_visible self |}.

Definition with_help_layout_visible (v : bool) (self : Explorer) : Explorer :=
  {| nodes := nodes self; explorer_layouts := explorer_layouts self; overview_layouts := overview_layouts self; cached_obj := cached_obj self; stack := stack self; help_layout_visible := v; explorer_layout := explorer_layout self; overview_layout := overview_layout self; filter_layout_visible := filter_layout_visible self |}.

Definition with_explorer_layout (v : ref) (self : Explorer) : Explorer :=
  {| nodes := nodes self; explorer_layouts := explorer_layouts self; overview_layouts := overview_layouts self; cached_obj := cached_obj self; stack := stack self; help_layout_visible := help_layout_visible self; explorer_layout := v; overview_layout := overview_layout self; filter_layout_visible := filter_layout_visible self |}.

Definition with_overview_layout (v : ref) (self : Explorer) : Explorer :=
  {| nodes := nodes self; explorer_layouts := explorer_layouts self; overview_layouts := overview_layouts self; cached_obj := cached_obj self; stack := stack self; help_layout_visible := help_layout_visible self; explorer_layout := explorer_layout self; overview_layout := v; filter_layout_visible := filter_layout_visible self |}.

Definition with_filter_layout_visible (v : bool) (self : Explorer) : Explorer :=
  {| nodes := nodes self; explorer_layouts := explorer_layouts self; overview_layouts := overview_layouts self; cached_obj := cached_obj self; stack := stack self; help_layout_visible := help_layout_visible self; explorer_layout := explorer_layout self; overview_layout := overview_layout self; filter_layout_visible := v |}.

Definition on_nodes {A} (m : M (list (CachedObject handle FunctionType)) A)
    : M Explorer A := λ self,
  let '(r, h) := m (nodes self) in (r, with_nodes h self).

Definition on_explorer_layouts {A} (m : M (list ExplorerLayout) A)
    : M Explorer A := λ self,
  let '(r, h) := m (explorer_layouts self) in (r, with_explorer_layouts h self).

Definition on_overview_layouts {A} (m : M (list OverviewLayout) A)
    : M Explorer A := λ self,
  let '(r, h) := m (overview_layouts self) in (r, with_overview_layouts h self).

(** [Explorer.__init__] *)
Definition __init__ (obj : handle) (name_of_obj : string) : result Explorer :=
  cached_obj ← cached_object.__init__ obj None (Some name_of_obj) None;
  let nodes := [cached_obj] in
  let cached_obj : ref := 0 in
  match cached_object.cache cached_obj nodes with
  | (Raise e, _) => Raise e
  | (Ok _, nodes) =>
      let stack := stack_layout.__init__ cached_obj false in
      let explorer_layout : ref := 0 in
      let overview_layout : ref := 0 in
      Ok {| nodes := nodes;
            explorer_layouts := [explorer_layout.__init__ cached_obj];
            overview_layouts := [overview_layout.__init__];
            cached_obj := cached_obj;
            stack := append {| stack_layout.cached_obj := cached_obj;
                               stack_layout.explorer_layout := explorer_layout;
                               stack_layout.overview_layout := overview_layout |} stack;
            help_layout_visible := false;
            explorer_layout := explorer_layout;
            overview_layout := overview_layout;
            filter_layout_visible := false |}
  end.

(** The keys of the navigation core, each standing for the keystrokes
    one condition of [process_key_event] accepts. *)
Inductive Key :=
| key_right      (* "l" or KEY_RIGHT *)
| key_left       (* "h" or KEY_LEFT *)
| key_escape     (* "\x1b", with code KEY_ESCAPE *)
| key_bracket    (* "[" or "]" *)
| key_brace.     (* "{" or "}" *)

(** [self.explorer_layout.selected_object] *)
Definition selected_object : M Explorer ref :=
  self ← get;
  layout ← on_explorer_layouts (deref (explorer_layout self));
  on_nodes (explorer_layout.selected_object layout).

(** Lines 161-182: drill into the selected node, or jump to the node
    picked in the history view.  [None] stands for the two [return]s. *)
Definition select_branch {sel : Select} : M Explorer unit :=
  self ← get;
  new_cached_obj ←
    (if visible (stack self) then
       frame ← lift (__getitem__ (stack self) (Z.of_nat (index (stack self))));
       if bool_decide (stack_layout.cached_obj frame = cached_obj self)
       then mret None
       else
         '(new_cached_obj, stack') ← lift (select (stack self));
         put (with_stack stack' self);;
         mret (Some new_cached_obj)
     else
       new_cached_obj ← selected_object;
       n ← on_nodes (deref new_cached_obj);
       if negb (is_selectable (obj n)) then mret None
       else mret (Some new_cached_obj));
  match new_cached_obj with
  | None => mret tt
  | Some new_cached_obj =>
      layout ← on_explorer_layouts (new (explorer_layout.__init__ new_cached_obj));
      self ← get;
      put (with_cached_obj new_cached_obj (with_explorer_layout layout self));;
      on_nodes (cached_object.cache new_cached_obj);;
      self ← get;
      put (with_stack
             (append {| stack_layout.cached_obj := cached_obj self;
                        stack_layout.explorer_layout := explorer_layout self;
                        stack_layout.overview_layout := overview_layout self |}
                     (stack self)) self)
  end.

(** Lines 185-189: go back one frame *)
Definition escape_branch : M Explorer unit :=
  self ← get;
  if __bool__ (stack self) then
    put (with_stack (pop (stack self)) self);;
    self ← get;
    frame ← lift (__getitem__ (stack self) (-1));
    put (with_cached_obj (stack_layout.cached_obj frame) self);;
    self ← get;
    frame ← lift (__getitem__ (stack self) (-1));
    put (with_explorer_layout (stack_layout.explorer_layout frame) self);;
    self ← get;
    frame ← lift (__getitem__ (stack self) (-1));
    put (with_overview_layout (stack_layout.overview_layout frame) self)
  else mret tt.

(** Lines 221-226: switch between public and private attributes *)
Definition switch_attributes : M Explorer unit :=
  self ← get;
  on_explorer_layouts (modify (explorer_layout self) (λ layout,
    match explorer_layout.state layout with
    | public =>
        {| explorer_layout.cached_obj := explorer_layout.cached_obj layout;
           explorer_layout.state := private;
           explorer_layout.index := explorer_layout.index layout |}
    | private =>
        {| explorer_layout.cached_obj := explorer_layout.cached_obj layout;
           explorer_layout.state := public;
           explorer_layout.index := explorer_layout.index layout |}
    | _ => layout
    end)).

(** Lines 228-235: switch the preview between repr and source *)
Definition switch_pane : M Explorer unit :=
  selected ← selected_object;
  n ← on_nodes (deref selected);
  if negb (callable (obj n)) then mret tt
  else
    self ← get;
    on_overview_layouts (modify (overview_layout self) (λ layout,
      match preview_state layout with
      | repr => {| overview_layout.state := overview_layout.state layout;
                   preview_state := source |}
      | source => {| overview_layout.state := overview_layout.state layout;
                     preview_state := repr |}
      end)).

(** [Explorer.process_key_event], on the keys above.  While the help
    page is open, escape closes it and every other key here returns
    without reaching the navigation (the pane the brackets and braces
    switch is the help page's own). *)
Definition process_key_event {sel : Select} (key : Key) : M Explorer unit :=
  self ← get;
  if help_layout_visible self then
    match key with
    | key_escape => put (with_help_layout_visible false self)
    | _ => mret tt
    end
  else
    match key with
    | key_right => select_branch
    | key_left | key_escape => escape_branch
    | key_bracket => switch_attributes
    | key_brace => switch_pane
    end.

(** A session: the keys, one after the other, as long as none raises *)
Definition process_keys {sel : Select} (keys : list Key) : M Explorer unit :=
  for_in keys process_key_event.

End WithProvider.
Arguments Explorer : clear implicits.
End objexplore.

(** ** A small world of objects

    A concrete provider on which the definitions above run: an object
    [root] with three public members and a private one, a child with a
    function and a list, a dictionary, a class that lists a member it
    does not hand out (as [type] does with [__abstractmethods__]), and
    an object whose [__repr__] raises. *)
Module world.
Inductive handle :=
| root | child | fn | number | none | seq | mapping | klass | broken.

#[global] Instance handle_eq_dec : EqDecision handle.
Proof. solve_decision. Defined.

(** The filters of the session: by callability and by class-ness *)
Inductive predicate := callables | classes.

Definition names_of (o : handle) : list string :=
  match o with
  | root => ["child"; "count"; "label"; "_cfg"; "__weakref__"]
  | child => ["items"; "call"]
  | klass => ["__abstractmethods__"; "mro"]
  | seq => ["append"]
  | _ => []
  end.

Definition member (o : handle) (name : string) : result handle :=
  match o with
  | root =>
      if decide (name = "child") then Ok child
      else if decide (name = "count") then Ok number
      else if decide (name = "label") then Ok none
      else if decide (name = "_cfg") then Ok mapping
      else Raise AttributeError
  | child =>
      if decide (name = "call") then Ok fn
      else if decide (name = "items") then Ok seq
      else Raise AttributeError
  | klass =>
      if decide (name = "mro") then Ok fn else Raise AttributeError
  | seq =>
      if decide (name = "append") then Ok fn else Raise AttributeError
  | _ => Raise AttributeError
  end.

Definition kind (o : handle) : pytype :=
  match o with
  | seq => type_list
  | mapping => type_dict
  | _ => type_other
  end.

Definition type_label (o : handle) : result string :=
  Ok match o with
     | root | child | broken => "<class 'object'>"
     | fn => "<class 'function'>"
     | number => "<class 'int'>"
     | none => "<class 'NoneType'>"
     | seq => "<class 'list'>"
     | mapping => "<class 'dict'>"
     | klass => "<class 'type'>"
     end.

Definition representation (o : handle) : result string :=
  match o with
  | root => Ok "<root>"
  | child => Ok "<child>"
  | fn => Ok "<function call>"
  | number => Ok "7"
  | none => Ok "None"
  | seq => Ok "[7, None]"
  | mapping => Ok "{'a': 7, 'b': [7, None]}"
  | klass => Ok "<class 'type'>"
  | broken => Raise AttributeError
  end.

Definition doc_of (o : handle) : result (option string) :=
  match o with
  | fn => Ok (Some "Run it.")
  | child => Ok (Some "")
  | _ => Ok None
  end.

Definition source_of (o : handle) : result string :=
  match o with
  | fn => Ok "def call(): pass"
  | klass => Raise OSError
  | _ => Raise TypeError
  end.

Definition size_of (o : handle) : result nat :=
  match o with
  | seq => Ok 2
  | mapping => Ok 2
  | _ => Raise TypeError
  end.

Definition entries_of (o : handle) : list (pyindex * handle) :=
  match o with
  | mapping => [(IStr "a", number); (IStr "b", seq)]
  | _ => []
  end.

Definition elements_of (o : handle) : list handle :=
  match o with
  | seq => [number; none]
  | _ => []
  end.

Definition can_call (o : handle) : bool :=
  match o with fn | klass => true | _ => false end.

Definition can_select (o : handle) : bool :=
  match o with fn | number | none => false | _ => true end.

Definition apply (f : predicate) (c : CachedObject handle predicate) : bool :=
  match f with
  | callables => is_callable c
  | classes => isclass c
  end.

#[global] Instance provider : Reflection handle predicate := {|
  is_None := λ o, bool_decide (o = none);
  callable := can_call;
  dir := names_of;
  getattr := member;
  type := kind;
  str_type := type_label;
  py_repr := representation;
  getdoc := doc_of;
  getsource := source_of;
  len := size_of;
  items := entries_of;
  iter := elements_of;
  inspect_isbuiltin := λ _, false;
  inspect_isclass := λ o, bool_decide (o = klass);
  inspect_isfunction := λ o, bool_decide (o = fn);
  inspect_ismethod := λ _, false;
  inspect_ismodule := λ _, false;
  is_selectable := can_select;
  render_str := λ s, s;
  call := apply;
|}.
End world.

(** ** Stores of the world *)
Module stores.
Import cached_object.

(** The store with the one node made for [o] under the name [name] *)
Definition seed (o : world.handle) (name : string)
    : list (CachedObject world.handle world.predicate) :=
  match __init__ o None (Some name) None with
  | Ok c => [c]
  | Raise _ => []
  end.

(** The node of [child] after [cache], with its two members behind it *)
Definition child_cached : list (CachedObject world.handle world.predicate) :=
  Eval vm_compute in (cache 0 (seed world.child "child")).2.

(** The same store once the filter for callables is switched on, before
    [filter] runs *)
Definition child_filtering : list (CachedObject world.handle world.predicate) :=
  Eval vm_compute in (modify 0 (with_filters [world.callables]) child_cached).2.

(** The node of the list [[7, None]], before and after [cache] *)
Definition seq_seed : list (CachedObject world.handle world.predicate) :=
  Eval vm_compute in seed world.seq "items".

Definition seq_cached : list (CachedObject world.handle world.predicate) :=
  Eval vm_compute in (cache 0 seq_seed).2.

(** The node of the dictionary, before [cache] *)
Definition mapping_seed : list (CachedObject world.handle world.predicate) :=
  Eval vm_compute in seed world.mapping "cfg".

(** The node of the class that lists a member it does not hand out *)
Definition klass_seed : list (CachedObject world.handle world.predicate) :=
  Eval vm_compute in seed world.klass "type".
End stores.

(** ** Sessions on the world *)
Module sessions.
Import objexplore.

Abbreviation Explorer := (Explorer world.handle world.predicate).

Definition blank : Explorer :=
  {| nodes := []; explorer_layouts := []; overview_layouts := [];
     cached_obj := 0; stack := stack_layout.__init__ 0 false;
     help_layout_visible := false; explorer_layout := 0; overview_layout := 0;
     filter_layout_visible := false |}.

(** The state a run of keys leaves, whatever its outcome *)
Definition after (keys : list Key) (self : Explorer) : Explorer :=
  (process_keys (sel := stack_layout.select_lookup) keys self).2.

(** [Explorer(root, "root")] *)
Definition start : Explorer :=
  Eval vm_compute in
    match __init__ world.root "root" with Ok e => e | Raise _ => blank end.

(** Drilled into [child], whose first public member is the function
    [call] *)
Definition in_child : Explorer :=
  Eval vm_compute in after [key_right] start.



End sessions.

(** ** Notions the statements use *)
Section Notions.
Context {handle FunctionType : Type} `{!Reflection handle FunctionType}.

Definition is_Ok {A} (r : result A) : bool :=
  match r with Ok _ => true | Raise _ => false end.

(** Every field derivation of [CachedObject.__init__] on [o] either
    answers or fails in the way its own [try] catches: type label,
    repr and doc answer, source fails with an [Exception] at most, and
    [len] with a [TypeError] at most. *)
Definition describable (o : handle) : bool :=
  is_Ok (py_repr o) && is_Ok (str_type o) && is_Ok (getdoc o)
  && match getsource o with Ok _ => true | Raise e => isinstance_Exception e end
  && match len o with Ok _ => true | Raise e => isinstance_TypeError e end.

(** [getdoc(obj) or "None"] *)
Definition doc_or_None (doc : option string) : string :=
  match doc with Some (String c s) => String c s | _ => "None" end.

(** The text between the brackets of an index step of a breadcrumb *)
Definition repr_index (index : pyindex) : Text :=
  match index with
  | IStr s => render_str (dquote +:+ s +:+ dquote)
  | _ => render_str (str_index index)
  end.
End Notions.


(** ** Loops, as functions of their input *)
Section LoopNotions.
Context {handle FunctionType : Type} `{!Reflection handle FunctionType}.

(** The rounds of a loop that ran before one raised, and what that one
    raised. *)
Fixpoint collect {A B} (g : A → result B) (l : list A) : list B * option exn :=
  match l with
  | [] => ([], None)
  | x :: l' =>
      match g x with
      | Ok b => let '(bs, e) := collect g l' in (b :: bs, e)
      | Raise e => ([], Some e)
      end
  end.

(** How a loop over [l] ends *)
Definition outcome (e : option exn) : result unit :=
  match e with None => Ok tt | Some e => Raise e end.

(** Filing the children made by the rounds of a loop, which get the
    addresses from [base] on *)
Fixpoint file_all {B D} (file : B → ref → D → D) (base : nat) (bs : list B) (d : D) : D :=
  match bs with
  | [] => d
  | b :: bs' => file_all file (S base) bs' (file b base d)
  end.

(** Some active predicate accepts the node at [c] *)
Definition accepted (fs : list FunctionType)
    (h : list (CachedObject handle FunctionType)) (c : ref) : bool :=
  match h !! c with
  | Some n => existsb (λ f, call f n) fs
  | None => false
  end.

(** The filtered view of a collection of children: all of them under no
    predicate, and otherwise those that some predicate accepts, in the
    order of the collection. *)
Definition view {X} (node_of : X → ref) (fs : list FunctionType)
    (h : list (CachedObject handle FunctionType)) (children : list X) : list X :=
  match fs with
  | [] => children
  | _ => List.filter (λ x, accepted fs h (node_of x)) children
  end.

(** The members of the node [n] are other objects than [self], and live
    in the store. *)
Definition members_ok (h : list (CachedObject handle FunctionType)) (self : ref)
    (n : CachedObject handle FunctionType) : Prop :=
  Forall (λ c : ref, c ≠ self ∧ c < length h)
         ((public_attributes n).*2 ++ (private_attributes n).*2).

(** One round of the dictionary pass of [filter]: the key, the display
    line and the child node of an item *)
Definition dict_entry (n : CachedObject handle FunctionType)
    (item : pyindex * handle) : result (pyindex * Text * CachedObject handle FunctionType) :=
  let '(key, val) := item in
  let repr_key :=
    match key with
    | IStr s => render_str (dquote +:+ s +:+ dquote)
    | IInt _ | IBuiltin _ => render_str (str_index key)
    | _ => highlighter (str_index key)
    end in
  repr_val ← highlighter <$> str_type val;
  c ← cached_object.__init__ val (Some (dotpath n)) None (cached_object.index_argument key);
  Ok (key, " " +:+ repr_key +:+ ": " +:+ repr_val, c).

(** One round of the sequence pass of [filter] *)
Definition list_entry (n : CachedObject handle FunctionType)
    (item : nat * handle) : result (Text * CachedObject handle FunctionType) :=
  let '(index, item) := item in
  typ ← highlighter <$> str_type item;
  c ← cached_object.__init__ item (Some (dotpath n)) None (Some (IInt (Z.of_nat index)));
  Ok (" [" +:+ pretty index +:+ "] " +:+ typ, c).

(** One round of a member pass of [cache] *)
Definition member_entry (n : CachedObject handle FunctionType)
    (attr : string) : result (string * CachedObject handle FunctionType) :=
  v ← getattr (obj n) attr;
  c ← cached_object.__init__ v (Some (dotpath n)) (Some attr) None;
  Ok (attr, c).

Abbreviation Node := (CachedObject handle FunctionType).

(** A round that makes a child, gives it an address and files it *)
Definition alloc_body {A B D} (get : Node → D) (set : D → Node → Node)
    (g : A → result B) (node_of : B → Node)
    (file : B → ref → D → D) self (x : A) : M (list Node) unit :=
  b ← lift (g x);
  r ← new (node_of b);
  modify self (λ n, set (file b r (get n)) n).

(** A round of a filtering pass: the child is kept under the first
    predicate that accepts it; when none does, it is dropped from the
    field if [drop] says so, and left out otherwise. *)
Definition keep_body {K V} `{EqDecision K} (get' : Node → list (K * V))
    (set' : list (K * V) → Node → Node) (node_of : V → ref) (drop : bool)
    (fs : list FunctionType) self (entry : K * V) : M (list Node) unit :=
  broke ← cached_object.first_match fs (node_of entry.2)
             (modify self (λ n, set' (dict_set entry.1 entry.2 (get' n)) n));
  if broke : bool then mret tt
  else if drop then modify self (λ n, set' (dict_del entry.1 (get' n)) n)
  else mret tt.
End LoopNotions.


(** ** What the passes of [filter] leave in their field *)
Section PassNotions.
Context {handle FunctionType : Type} `{!Reflection handle FunctionType}.

(** The members kept by [filter_members]: the loop's own account, an
    assignment per accepted member *)
Definition kept_members (fs : list FunctionType)
    (h : list (CachedObject handle FunctionType))
    (members : list (string * ref)) : list (string * ref) :=
  match fs with
  | [] => members
  | _ => fold_left (λ d e, if accepted fs h e.2 then dict_set e.1 e.2 d else d)
                   members []
  end.

(** Filing a dictionary entry and a sequence entry *)
Definition file_dict (b : pyindex * Text * CachedObject handle FunctionType)
    (r : ref) (d : list (pyindex * (Text * ref))) : list (pyindex * (Text * ref)) :=
  dict_set b.1.1 (b.1.2, r) d.

Definition file_list (b : Text * CachedObject handle FunctionType)
    (r : ref) (d : list (Text * ref)) : list (Text * ref) :=
  d ++ [(b.1, r)].

Definition file_member (b : string * CachedObject handle FunctionType)
    (r : ref) (d : list (string * ref)) : list (string * ref) :=
  dict_set b.1 r d.
End PassNotions.


(** [type(obj) in (list, tuple, set)] *)
Definition is_sequence (t : pytype) : bool :=
  match t with type_list | type_tuple | type_set => true | _ => false end.


(** ** [filter] and [cache] as functions of the store *)
Section Specs.
Context {handle FunctionType : Type} `{!Reflection handle FunctionType}.
Implicit Types (h : list (CachedObject handle FunctionType)) (self : ref)
  (n : CachedObject handle FunctionType).

(** The node after the two member passes *)
Definition after_members h n : CachedObject handle FunctionType :=
  cached_object.with_filtered_private_attributes
    (kept_members (filters n) h (private_attributes n))
    (cached_object.with_filtered_public_attributes
       (kept_members (filters n) h (public_attributes n)) n).

(** The rounds of the dictionary pass and of the sequence pass on [n] *)
Definition dict_rounds n
    : list (pyindex * Text * CachedObject handle FunctionType) * option exn :=
  match type (obj n) with
  | type_dict => collect (dict_entry n) (items (obj n))
  | _ => ([], None)
  end.

Definition list_rounds n : list (Text * CachedObject handle FunctionType) * option exn :=
  if is_sequence (type (obj n))
  then collect (list_entry n) (cached_object.enumerate (iter (obj n)))
  else ([], None).

(** The unfiltered entries, the children getting the addresses from
    [base] on *)
Definition dict_entries (base : nat)
    (bs : list (pyindex * Text * CachedObject handle FunctionType))
    : list (pyindex * (Text * ref)) :=
  imap (λ i b, (b.1.1, (b.1.2, base + i))) bs.

Definition list_entries (base : nat)
    (bs : list (Text * CachedObject handle FunctionType)) : list (Text * ref) :=
  imap (λ i b, (b.1, base + i)) bs.

(** The store and the outcome of [filter self] on the store [h], where
    [self] is the node [n] *)
Definition filter_spec h self n
    : result unit * list (CachedObject handle FunctionType) :=
  let fs := filters n in
  let n2 := after_members h n in
  let full_d := dict_entries (length h) (dict_rounds n).1 in
  let h_d := <[self := cached_object.with_filtered_dict full_d n2]> h
             ++ (dict_rounds n).1.*2 in
  match (dict_rounds n).2 with
  | Some e => (Raise e, h_d)
  | None =>
      let n3 := cached_object.with_filtered_dict
                  (view (λ e : pyindex * (Text * ref), e.2.2) fs h_d full_d) n2 in
      let full_l := list_entries (length h_d) (list_rounds n).1 in
      let h_l := <[self := cached_object.with_filtered_list full_l n3]> h_d
                 ++ (list_rounds n).1.*2 in
      match (list_rounds n).2 with
      | Some e => (Raise e, h_l)
      | None =>
          (Ok tt,
           <[self := cached_object.with_filtered_list
                       (view (λ e : Text * ref, e.2) fs h_l full_l) n3]> h_l)
      end
  end.

(** Whether the child made by a round is kept under the predicates [fs] *)
Definition keeps {B} (node_of : B → CachedObject handle FunctionType)
    (fs : list FunctionType) (b : B) : bool :=
  match fs with
  | [] => true
  | _ => existsb (λ f, call f (node_of b)) fs
  end.

(** The entries of the rounds that are kept, the children having the
    addresses from [base] on *)
Fixpoint kept_from {B X} (keep : B → bool) (entry : ref → B → X) (base : nat)
    (bs : list B) : list X :=
  match bs with
  | [] => []
  | b :: bs' =>
      (if keep b then [entry base b] else []) ++ kept_from keep entry (S base) bs'
  end.

(** The rounds of a member pass of [cache], which runs only while the
    field is empty *)
Definition member_rounds n (present : list (string * ref)) (names : list string)
    : list (string * CachedObject handle FunctionType) * option exn :=
  match present with
  | [] => collect (member_entry n) names
  | _ => ([], None)
  end.

(** The store and the outcome of [cache self] on the store [h], where
    [self] is the node [n] *)
Definition cache_spec h self n
    : result unit * list (CachedObject handle FunctionType) :=
  let pub := member_rounds n (public_attributes n) (plain_public_attributes n) in
  let n1 := cached_object.with_public_attributes
              (file_all file_member (length h) pub.1 (public_attributes n)) n in
  let h1 := <[self := n1]> h ++ pub.1.*2 in
  match pub.2 with
  | Some e => (Raise e, h1)
  | None =>
      let priv := member_rounds n (private_attributes n) (plain_private_attributes n) in
      let n2 := cached_object.with_private_attributes
                  (file_all file_member (length h1) priv.1 (private_attributes n)) n1 in
      let h2 := <[self := n2]> h1 ++ priv.1.*2 in
      match priv.2 with
      | Some e => (Raise e, h2)
      | None => filter_spec h2 self n2
      end
  end.
End Specs.


(** ** The explorer's state, as the navigation claims read it *)
Section ExplorerNotions.
Context {handle FunctionType : Type} `{!Reflection handle FunctionType}.
Import objexplore.
Abbreviation Explorer := (Explorer handle FunctionType).

(** The UI state of the current frame: the active collection and the
    cursor of its explorer layout, and the preview mode of its overview
    layout *)
Definition ui_state (self : Explorer)
    : option (explorer_layout.ExplorerState * nat * overview_layout.PreviewState) :=
  match explorer_layouts self !! explorer_layout self,
        overview_layouts self !! overview_layout self with
  | Some e, Some o =>
      Some (explorer_layout.state e, explorer_layout.index e,
            overview_layout.preview_state o)
  | _, _ => None
  end.

(** The UI state a frame of the stack has saved *)
Definition frame_ui_state (self : Explorer) (frame : stack_layout.StackFrame)
    : option (explorer_layout.ExplorerState * nat * overview_layout.PreviewState) :=
  match explorer_layouts self !! stack_layout.explorer_layout frame,
        overview_layouts self !! stack_layout.overview_layout frame with
  | Some e, Some o =>
      Some (explorer_layout.state e, explorer_layout.index e,
            overview_layout.preview_state o)
  | _, _ => None
  end.

(** What the explorer shows is what the tail frame of its stack holds. *)
Definition tail_is_current (self : Explorer) : Prop :=
  ∃ frame, last (stack_layout.stack (stack self)) = Some frame
    ∧ stack_layout.cached_obj frame = cached_obj self
    ∧ stack_layout.explorer_layout frame = explorer_layout self
    ∧ stack_layout.overview_layout frame = overview_layout self.

(** Every frame of the stack refers to the overview layout object the
    explorer shows. *)
Definition frames_share_overview (self : Explorer) : Prop :=
  Forall (λ frame, stack_layout.overview_layout frame = overview_layout self)
         (stack_layout.stack (stack self)).

(** The frame a drill-in or a jump appends *)
Definition current_frame (self : Explorer) : stack_layout.StackFrame :=
  {| stack_layout.cached_obj := cached_obj self;
     stack_layout.explorer_layout := explorer_layout self;
     stack_layout.overview_layout := overview_layout self |}.
End ExplorerNotions.


(** * More of the sources

    The rest of [cached_object.py], [overview_layout.py] and
    [objexplore.py] that runs without the terminal: the source view of
    a node, the info row of the overview, the view keys and the loop
    of [Explorer.explore]. *)

(** ** [CachedObject.get_source] *)
Module CachedObject_methods.
(** The names a node keeps of [dir(obj)]: all of them but the first
    [__weakref__] *)
Definition kept_names {handle FunctionType : Type} `{!Reflection handle FunctionType}
    (o : handle) : list string :=
  if bool_decide ("__weakref__" ∈ dir o)
  then list_remove "__weakref__" (dir o) else dir o.


(** What [get_source] hands back: the markup of the notice, or the
    arguments of [Syntax(code, "python", line_numbers=True,
    line_range=..., background_color="default")] that vary *)
Inductive Source :=
| notice (markup : string)
| Syntax (code : string) (line_range : option (Z * Z)).

Section WithProvider.
Context {handle FunctionType : Type}.

(** Lines 228-248.  [not term_height] holds for the height 0 alone, and
    [not self._source] for the empty text. *)
Definition get_source (self : CachedObject handle FunctionType)
    (term_height : Z) (fullscreen : bool) : result Source :=
  if negb fullscreen && (term_height =? 0)%Z
  then Raise (ValueError "Need a terminal height")
  else match _source self with
       | "" => Ok (notice "[red italic]Source code unavailable")
       | code =>
           if fullscreen then Ok (Syntax code None)
           else Ok (Syntax code (Some (0%Z, term_height)))
       end.
End WithProvider.
End CachedObject_methods.

(** ** What a pass over a node leaves alone *)
Section FrameNotions.
Context {handle FunctionType : Type}.
Implicit Types (n : CachedObject handle FunctionType)
  (h : list (CachedObject handle FunctionType)) (self : ref).

(** A node without its four filtered fields, which are all that
    [filter] assigns *)
Definition unfiltered n : CachedObject handle FunctionType :=
  cached_object.with_filtered_list []
    (cached_object.with_filtered_dict []
       (cached_object.with_filtered_private_attributes []
          (cached_object.with_filtered_public_attributes [] n))).

(** A node without its members and without its filtered fields, which
    are all that [cache] assigns *)
Definition uncached n : CachedObject handle FunctionType :=
  cached_object.with_private_attributes []
    (cached_object.with_public_attributes [] (unfiltered n)).

(** The store [h'] holds every node of [h] at its address: as it was,
    but for the node [self], where [keep] tells what is as it was. *)
Definition extends (keep : CachedObject handle FunctionType → CachedObject handle FunctionType)
    self h h' : Prop :=
  ∀ c n, h !! c = Some n →
    ∃ n', h' !! c = Some n' ∧ keep n' = keep n ∧ (c ≠ self → n' = n).

(** A run of [m] leaves every node where and as it was, up to [keep] on
    [self], whatever its outcome. *)
Definition preserves {A} (keep : CachedObject handle FunctionType → CachedObject handle FunctionType)
    self (m : M (list (CachedObject handle FunctionType)) A) : Prop :=
  ∀ h, extends keep self h (m h).2.
End FrameNotions.

(** ** The members [cache] files *)
Section MemberNotions.
Context {handle FunctionType : Type} `{!Reflection handle FunctionType}.

(** The entry [e] files the member [attr] of the node [n]: it goes by
    that name and refers, at an address the store [h] did not have, to
    the node [CachedObject(getattr(obj, attr), parent_path=dotpath,
    attr_name=attr)] makes, which the store [h'] holds there. *)
Definition member_filed (n : CachedObject handle FunctionType)
    (h h' : list (CachedObject handle FunctionType))
    (attr : string) (e : string * ref) : Prop :=
  e.1 = attr ∧ (length h ≤ e.2)%nat
  ∧ ∃ v child,
      getattr (obj n) attr = Ok v
      ∧ cached_object.__init__ v (Some (dotpath n)) (Some attr) None = Ok child
      ∧ h' !! e.2 = Some child.
End MemberNotions.

(** ** [OverviewLayout]: the info row *)
Module OverviewLayout_methods.
(** A [Panel(renderable, title=..., title_align="left", style="white")]
    and a [Layout], by what they hold *)
Inductive Renderable :=
| Panel (renderable : Text) (title : string)
| Layout (renderable : Renderable) (size : option nat)
| Row (size : option nat) (left right : Renderable).
    (* Layout(size=...).split_row(left, right) *)

Section WithProvider.
Context {handle FunctionType : Type}.

(** Lines 124-133 *)
Definition get_type_panel (cached_obj : CachedObject handle FunctionType) : Renderable :=
  Layout (Panel (typeof cached_obj) "[i][cyan]type[/cyan]()[/i]") (Some 3).

(** Lines 105-122.  [if cached_obj.length:] passes for a length that is
    there and is not the empty text. *)
Definition get_info_layout (cached_obj : CachedObject handle FunctionType) : Renderable :=
  match length_ cached_obj with
  | Some (String c s) =>
      Row (Some 3)
        (Layout (get_type_panel cached_obj) None)
        (Layout (Panel (String c s) "[i][cyan]len[/cyan]()[/i]") None)
  | _ => get_type_panel cached_obj
  end.
End WithProvider.
End OverviewLayout_methods.

(** ** The view keys and the loop of [Explorer.explore] *)
Module session.
Import objexplore.
Section WithProvider.
Context {handle FunctionType : Type} `{!Reflection handle FunctionType}.
Abbreviation Explorer := (Explorer handle FunctionType).

(** The keystrokes of a session: those of the navigation, and four
    more.  While the help page is open the four return at once, by the
    [else: return] of line 133. *)
Inductive Keystroke :=
| navigation (key : Key)
| keystroke_d        (* "d" *)
| keystroke_p        (* "p" *)
| keystroke_r        (* "r" *)
| keystroke_q.       (* "q" or "Q" *)

(** Lines 238-243: toggle the docstring view *)
Definition toggle_docstring : M Explorer unit :=
  self ← get;
  on_overview_layouts (modify (overview_layout self) (λ layout,
    {| overview_layout.state :=
         match overview_layout.state layout with
         | overview_layout.docstring => overview_layout.all
         | _ => overview_layout.docstring
         end;
       overview_layout.preview_state := overview_layout.preview_state layout |})).

(** Lines 246-251: toggle the value view *)
Definition toggle_value : M Explorer unit :=
  self ← get;
  on_overview_layouts (modify (overview_layout self) (λ layout,
    {| overview_layout.state :=
         match overview_layout.state layout with
         | overview_layout.value => overview_layout.all
         | _ => overview_layout.value
         end;
       overview_layout.preview_state := overview_layout.preview_state layout |})).

(** Lines 298-299: [return self.explorer_layout.selected_object.obj] *)
Definition return_selected : M Explorer handle :=
  selected ← selected_object;
  n ← on_nodes (deref selected);
  mret (obj n).

(** [Explorer.process_key_event] with its result: [None], or the
    object that "r" hands back *)
Definition process_keystroke {sel : stack_layout.Select} (key : Keystroke)
    : M Explorer (option handle) :=
  match key with
  | navigation key => process_key_event key;; mret None
  | _ =>
      self ← get;
      if help_layout_visible self then mret None
      else match key with
           | keystroke_d => toggle_docstring;; mret None
           | keystroke_p => toggle_value;; mret None
           | keystroke_r => o ← return_selected; mret (Some o)
           | _ => mret None
           end
  end.

#[global] Instance OverviewState_eq_dec : EqDecision overview_layout.OverviewState.
Proof. solve_decision. Defined.

(** Every node of [self] is a node of [self'], at the same address and
    the same but for its members and its filtered fields. *)
Definition nodes_kept (self self' : Explorer) : Prop :=
  ∀ c n, nodes self !! c = Some n →
    ∃ n', nodes self' !! c = Some n' ∧ uncached n' = uncached n.

(** The view a toggle key asks for *)
Definition toggled_view (key : Keystroke) : option overview_layout.OverviewState :=
  match key with
  | keystroke_d => Some overview_layout.docstring
  | keystroke_p => Some overview_layout.value
  | _ => None
  end.

(** [if res:] on the result of a key: [None] is falsy, and an object is
    what [truth], its [bool()], says, which can raise *)
Definition truthy_result (truth : handle → result bool) (res : option handle)
    : result bool :=
  match res with
  | Some o => truth o
  | None => Ok false
  end.

(** [Explorer.explore], lines 63-93, on the keys that [inkey] delivers.
    [draw] stands for [self.draw()].  An exception of the model's
    classes is none of the [RuntimeError]s the loop lets pass, so it
    leaves the loop.  The answer is [None] while the loop waits for a
    key that [keys] does not hold, and the returned [res] otherwise. *)
Fixpoint explore {sel : stack_layout.Select} (truth : handle → result bool)
    (draw : M Explorer unit) (keys : list Keystroke)
    : M Explorer (option (option handle)) :=
  match keys with
  | [] => mret None
  | key :: keys' =>
      draw;;
      res ← process_keystroke key;
      stop ← lift (truthy_result truth res);
      if stop : bool then mret (Some res)
      else match key with
           | keystroke_q => mret (Some res)
           | _ => explore truth draw keys'
           end
  end.

End WithProvider.
End session.

(** ** Odd objects

    A second provider: a [box] whose members are an empty list and a
    dictionary with the key [None]. *)
Module oddities.
Inductive handle := box | empty | holder | seven | nothing.

#[global] Instance handle_eq_dec : EqDecision handle.
Proof. solve_decision. Defined.

Definition names_of (o : handle) : list string :=
  match o with
  | box => ["content"; "table"]
  | _ => []
  end.

Definition member (o : handle) (name : string) : result handle :=
  match o with
  | box =>
      if decide (name = "content") then Ok empty
      else if decide (name = "table") then Ok holder
      else Raise AttributeError
  | _ => Raise AttributeError
  end.

Definition kind (o : handle) : pytype :=
  match o with
  | empty => type_list
  | holder => type_dict
  | _ => type_other
  end.

Definition type_label (o : handle) : result string :=
  Ok match o with
     | box => "<class 'object'>"
     | empty => "<class 'list'>"
     | holder => "<class 'dict'>"
     | seven => "<class 'int'>"
     | nothing => "<class 'NoneType'>"
     end.

Definition representation (o : handle) : result string :=
  Ok match o with
     | box => "<box>"
     | empty => "[]"
     | holder => "{None: 7}"
     | seven => "7"
     | nothing => "None"
     end.

Definition size_of (o : handle) : result nat :=
  match o with
  | empty => Ok 0
  | holder => Ok 1
  | _ => Raise TypeError
  end.

Definition entries_of (o : handle) : list (pyindex * handle) :=
  match o with
  | holder => [(INone, seven)]
  | _ => []
  end.

Definition can_select (o : handle) : bool :=
  match o with seven | nothing => false | _ => true end.

#[global] Instance provider : Reflection handle Empty_set := {|
  is_None := λ o, bool_decide (o = nothing);
  callable := λ _, false;
  dir := names_of;
  getattr := member;
  type := kind;
  str_type := type_label;
  py_repr := representation;
  getdoc := λ _, Ok None;
  getsource := λ _, Raise TypeError;
  len := size_of;
  items := entries_of;
  iter := λ _, [];
  inspect_isbuiltin := λ _, false;
  inspect_isclass := λ _, false;
  inspect_isfunction := λ _, false;
  inspect_ismethod := λ _, false;
  inspect_ismodule := λ _, false;
  is_selectable := can_select;
  render_str := λ s, s;
  call := λ (f : Empty_set) _, match f with end;
|}.

(** [bool(obj)]: the empty list and [None] are falsy *)
Definition truth (o : handle) : result bool :=
  Ok match o with empty | nothing => false | _ => true end.

(** The node of the dictionary [{None: 7}], before [cache] *)
Definition holder_seed : list (CachedObject handle Empty_set) :=
  Eval vm_compute in
    match cached_object.__init__ holder None (Some "table") None with
    | Ok c => [c]
    | Raise _ => []
    end.

(** [Explorer(box, "box")]: the cursor is on [content], the empty
    list *)
Definition start : objexplore.Explorer handle Empty_set :=
  Eval vm_compute in
    match objexplore.__init__ box "box" with
    | Ok e => e
    | Raise _ =>
        {| objexplore.nodes := []; objexplore.explorer_layouts := [];
           objexplore.overview_layouts := []; objexplore.cached_obj := 0;
           objexplore.stack := stack_layout.__init__ 0 false;
           objexplore.help_layout_visible := false;
           objexplore.explorer_layout := 0; objexplore.overview_layout := 0;
           objexplore.filter_layout_visible := false |}
    end.
End oddities.

(** [bool(obj)] on the small world: [None] is falsy *)
Definition world_truth (o : world.handle) : result bool :=
  Ok (negb (bool_decide (o = world.none))).

(** * Node construction *)

(** Runs a chain of binds in [result] that is known to return: each
    step must have returned too. *)
Ltac run_result E :=
  repeat match type of E with
         | mbind _ ?m = _ => destruct m eqn:?; cbn in E; [|discriminate]
         end.
Section Construction.
Context {handle FunctionType : Type} `{!Reflection handle FunctionType}.
Import cached_object.

Implicit Types (o : handle) (parent_path : option Text)
  (attr_name : option string) (index : option pyindex).

(** The breadcrumb is settled before any field derivation runs, so a
    failure of [make_dotpath] is the constructor's failure. *)
Lemma init_dotpath_raise o parent_path attr_name index e :
  make_dotpath o parent_path attr_name index = Raise e →
  __init__ o parent_path attr_name index = Raise e.
Proof. intros E. unfold __init__. rewrite E. reflexivity. Qed.

(** A constructor that returns hands back the breadcrumb computed by
    [make_dotpath] and the handle it was given. *)
Lemma init_Ok_dotpath o parent_path attr_name index c :
  __init__ o parent_path attr_name index = Ok c →
  make_dotpath o parent_path attr_name index = Ok (dotpath c) ∧ obj c = o.
Proof.
  unfold __init__. intros E. run_result E.
  by inversion E.
Qed.

(** On a describable handle the constructor returns as soon as the
    breadcrumb is defined, with the fields degraded as their [try]
    says. *)
Lemma init_describable o parent_path attr_name index p :
  describable o = true →
  make_dotpath o parent_path attr_name index = Ok p →
  ∃ c, __init__ o parent_path attr_name index = Ok c ∧ dotpath c = p ∧ obj c = o
       ∧ _source c = match getsource o with Ok s => s | Raise _ => "" end
       ∧ length_ c = match len o with Ok n => Some (pretty n) | Raise _ => None end
       ∧ match getdoc o with
         | Ok doc => docstring c = render_str (doc_or_None doc)
         | Raise _ => False
         end.
Proof.
  unfold describable, __init__. intros D E. rewrite E. cbn.
  repeat (apply andb_prop in D as [D ?]).
  destruct (py_repr o) as [r|]; [|done].
  destruct (str_type o) as [t|]; [|done].
  destruct (getdoc o) as [d|]; [|done].
  destruct attr_name as [[|? ?]|]; cbn;
    (destruct (getsource o) as [?|es]; cbn;
     [|destruct (isinstance_Exception es); [|done]; cbn]);
    (destruct (len o) as [?|el]; cbn;
     [|destruct (isinstance_TypeError el); [|done]; cbn]);
    eexists; repeat split; reflexivity.
Qed.

(** C10.  A handle that is not [None], given neither an attribute name
    nor an index, makes the constructor raise [ValueError]; a handle
    that is [None] is accepted without either, and its breadcrumb is
    the text [None] whatever the parent path. *)
Theorem init_needs_name_or_index o parent_path :
  (is_None o = false →
   __init__ o parent_path None None
   = Raise (ValueError "Need to specify an attribute name or an index"))
  ∧ (is_None o = true → describable o = true →
     ∃ c, __init__ o parent_path None None = Ok c ∧ dotpath c = "None").
Proof.
  split.
  - intros N. apply init_dotpath_raise. unfold make_dotpath. by rewrite N.
  - intros N D.
    destruct (init_describable o parent_path None None "None" D) as (c & E & P & _).
    { unfold make_dotpath. by rewrite N. }
    eauto.
Qed.

(** C8, as the code has it.  A node that was constructed has the
    breadcrumb [None] when its handle is [None].  Otherwise, under a
    parent whose breadcrumb is not empty it is the parent's breadcrumb
    followed by [.name] for a member and by [[key]] for an entry, a
    string key standing between double quotes; with no parent
    breadcrumb, or an empty one, it is the name or [[key]] alone, so
    that the root, made from its display name, carries that name. *)
Theorem dotpath_of_node o parent_path attr_name index c :
  __init__ o parent_path attr_name index = Ok c →
  if is_None o then dotpath c = "None"
  else
    match attr_name, index with
    | Some name, _ =>
        dotpath c = if truthy parent_path
                    then default "" parent_path +:+ "." +:+ name
                    else name
    | None, Some key =>
        dotpath c = (if truthy parent_path then default "" parent_path else "")
                    +:+ "[" +:+ repr_index key +:+ "]"
    | None, None => False
    end.
Proof.
  intros E. apply init_Ok_dotpath in E as [E _].
  unfold make_dotpath in E.
  destruct (is_None o); [by inversion E|].
  destruct attr_name as [name|].
  - destruct (truthy parent_path); by inversion E.
  - destruct index as [key|]; [|done].
    unfold repr_index.
    destruct (truthy parent_path); cbn in E; inversion E; by destruct key.
Qed.

End Construction.

(** C10 on the world: the number without a name is refused, [None]
    without a name is a node called [None]. *)
Lemma init_needs_name_or_index_witness :
  cached_object.__init__ world.number (Some "x") None None
  = Raise (ValueError "Need to specify an attribute name or an index")
  ∧ ∃ c, cached_object.__init__ world.none (Some "root") None None = Ok c
         ∧ dotpath c = "None".
Proof.
  split.
  - apply (proj1 (init_needs_name_or_index world.number (Some "x"))). reflexivity.
  - apply (proj2 (init_needs_name_or_index world.none (Some "root"))); reflexivity.
Defined.

(** C8 fails as stated: the member [label] of the root is [None], and
    its breadcrumb is [None], not [root.label]. *)
Lemma dotpath_of_None_member :
  ¬ ∀ (o : world.handle) (parent name : string) c,
      cached_object.__init__ o (Some parent) (Some name) None = Ok c →
      dotpath c = parent +:+ "." +:+ name.
Proof.
  intros H. pose proof (H world.none "root" "label") as H'.
  vm_compute in H'. specialize (H' _ eq_refl). discriminate.
Qed.

(** The amended C8 on the world: the entry under the key ["b"] of the
    dictionary [root._cfg]. *)
Lemma dotpath_of_node_witness :
  ∃ c, cached_object.__init__ world.seq (Some "root._cfg") None (Some (IStr "b")) = Ok c
       ∧ dotpath c = "root._cfg" +:+ "[" +:+ dquote +:+ "b" +:+ dquote +:+ "]".
Proof.
  destruct (cached_object.__init__ world.seq (Some "root._cfg") None (Some (IStr "b")))
    as [c|] eqn:E; [|discriminate E].
  exists c. split; [reflexivity|].
  exact (dotpath_of_node world.seq (Some "root._cfg") None (Some (IStr "b")) c E).
Defined.




(** * Running stateful code *)
Section Running.
Context {S : Type}.

Lemma bind_run {A B} (m : M S A) (f : A → M S B) (s : S) :
  (m ≫= f) s = match m s with
               | (Ok a, s') => f a s'
               | (Raise e, s') => (Raise e, s')
               end.
Proof. reflexivity. Qed.

Lemma ret_run {A} (a : A) (s : S) : (mret a : M S A) s = (Ok a, s).
Proof. reflexivity. Qed.

Lemma for_in_ext {A} (l : list A) (body body' : A → M S unit) :
  (∀ x s, body x s = body' x s) → ∀ s, for_in l body s = for_in l body' s.
Proof.
  intros E. induction l as [|x l IH]; intros s; [reflexivity|].
  cbn. rewrite !bind_run, E. destruct (body' x s) as [[[]|e] s']; [apply IH|reflexivity].
Qed.
End Running.

Section StoreFacts.
Context {X : Type}.
Implicit Types (h : list X) (r : ref).

Lemma deref_run h r x : h !! r = Some x → deref r h = (Ok x, h).
Proof. unfold deref. by intros ->. Qed.

Lemma modify_run h r x f : h !! r = Some x → modify r f h = (Ok tt, <[r := f x]> h).
Proof. unfold modify. by intros ->. Qed.

Lemma new_run h x : new x h = (Ok (length h), h ++ [x]).
Proof. reflexivity. Qed.

Lemma insert_insert_app h r x y l :
  r < length h → <[r := x]> (<[r := y]> (h ++ l)) = <[r := x]> h ++ l.
Proof.
  intros L. rewrite list_insert_insert_eq. by apply insert_app_l.
Qed.
End StoreFacts.


(** * The loops of [cache] and [filter]

    Each loop assigns to one field of [self]; the field is given by its
    reader [get] and its assignment [set]. *)
Section FieldLoops.
Context {handle FunctionType : Type} `{!Reflection handle FunctionType}.
Abbreviation Node := (CachedObject handle FunctionType).
Context {D : Type} (get : Node → D) (set : D → Node → Node).
Hypothesis get_set : ∀ d n, get (set d n) = d.
Hypothesis set_set : ∀ d d' n, set d (set d' n) = set d n.
Hypothesis set_get : ∀ n, set (get n) n = n.

Implicit Types (h : list Node) (self : ref) (n : Node).

Lemma alloc_loop {A B} (g : A → result B) (node_of : B → Node)
    (file : B → ref → D → D) self (l : list A) :
  ∀ h n, h !! self = Some n →
    for_in l (alloc_body get set g node_of file self) h
    = (outcome (collect g l).2,
       <[self := set (file_all file (length h) (collect g l).1 (get n)) n]> h
       ++ (node_of <$> (collect g l).1)).
Proof.
  induction l as [|x l IH]; intros h n Hn; cbn.
  - by rewrite set_get, list_insert_id, app_nil_r.
  - pose proof (lookup_lt_Some _ _ _ Hn) as L.
    rewrite bind_run. unfold alloc_body at 1. rewrite bind_run. unfold lift at 1.
    destruct (g x) as [b|e]; cbv beta iota.
    + rewrite bind_run, new_run. cbv beta iota.
      rewrite (modify_run _ _ n) by (by rewrite lookup_app_l).
      rewrite IH with (n := set (file b (length h) (get n)) n).
      2:{ rewrite list_lookup_insert_eq; [done|]. rewrite length_app. lia. }
      destruct (collect g l) as [bs e]. cbn [fst snd file_all fmap list_fmap].
      rewrite get_set, set_set, length_insert, length_app. cbn [length].
      rewrite insert_insert_app by done.
      rewrite Nat.add_1_r, <- app_assoc. reflexivity.
    + cbn. by rewrite set_get, list_insert_id, app_nil_r.
Qed.

End FieldLoops.


(** * Dictionaries with distinct keys *)
Section DictFacts.
Context {K V : Type} `{EqDecision K}.
Implicit Types (d : list (K * V)) (k : K) (v : V).

Lemma dict_set_fresh k v d : k ∉ d.*1 → dict_set k v d = d ++ [(k, v)].
Proof.
  induction d as [|[k' v'] d IH]; cbn; [done|].
  intros N. apply not_elem_of_cons in N as [N1 N2].
  destruct (decide (k' = k)); [congruence|]. by rewrite IH.
Qed.

Lemma dict_set_present k v d d' : k ∉ d.*1 → dict_set k v (d ++ (k, v) :: d') = d ++ (k, v) :: d'.
Proof.
  induction d as [|[k' v'] d IH]; cbn.
  - intros _. by destruct (decide (k = k)).
  - intros N. apply not_elem_of_cons in N as [N1 N2].
    destruct (decide (k' = k)); [congruence|]. by rewrite IH.
Qed.

Lemma dict_del_present k v d d' : k ∉ d.*1 → dict_del k (d ++ (k, v) :: d') = d ++ d'.
Proof.
  induction d as [|[k' v'] d IH]; cbn.
  - intros _. by destruct (decide (k = k)).
  - intros N. apply not_elem_of_cons in N as [N1 N2].
    destruct (decide (k' = k)); [congruence|]. by rewrite IH.
Qed.

Lemma dict_set_nonempty k v d : dict_set k v d ≠ [].
Proof. destruct d as [|[k' v'] d]; cbn; [done|]. by destruct (decide (k' = k)). Qed.

(** Keeping the accepted entries of [l] one by one, from the empty
    dictionary, is filtering [l]. *)
Lemma keep_fold_filter (ok : K * V → bool) l :
  ∀ d, NoDup (d ++ l).*1 →
    fold_left (λ d e, if ok e then dict_set e.1 e.2 d else d) l d = d ++ List.filter ok l.
Proof.
  induction l as [|[k v] l IH]; intros d N; cbn; [by rewrite app_nil_r|].
  assert (NoDup ((d ++ [(k, v)]) ++ l).*1) as N' by (by rewrite <- app_assoc).
  destruct (ok (k, v)); cbn.
  - rewrite dict_set_fresh.
    + rewrite IH by done. by rewrite <- app_assoc.
    + rewrite fmap_app in N. apply NoDup_app in N as (_ & N & _).
      intros I. apply (N k I). cbn. left.
  - apply IH. rewrite fmap_app in *. apply NoDup_app in N as (N1 & N2 & N3).
    apply NoDup_app. repeat split; [done| |].
    + intros x I J. apply (N2 x I). cbn. by right.
    + cbn in N3. by apply NoDup_cons in N3 as [_ ?].
Qed.

(** Going through a dictionary and either assigning an entry again or
    deleting it is filtering the dictionary. *)
Lemma drop_fold_filter (ok : K * V → bool) l :
  ∀ d, NoDup (d ++ l).*1 →
    fold_left (λ d e, if ok e then dict_set e.1 e.2 d else dict_del e.1 d) l (d ++ l)
    = d ++ List.filter ok l.
Proof.
  induction l as [|[k v] l IH]; intros d N; cbn; [done|].
  assert (k ∉ d.*1) as F.
  { rewrite fmap_app in N. apply NoDup_app in N as (_ & N & _).
    intros I. apply (N k I). cbn. left. }
  destruct (ok (k, v)); cbn.
  - rewrite dict_set_present by done.
    replace (d ++ (k, v) :: l) with ((d ++ [(k, v)]) ++ l) by (by rewrite <- app_assoc).
    rewrite IH by (by rewrite <- app_assoc). by rewrite <- app_assoc.
  - rewrite (dict_del_present k v) by done. apply IH.
    rewrite fmap_app in *. apply NoDup_app in N as (N1 & N2 & N3).
    apply NoDup_app. repeat split; [done| |].
    + intros x I J. apply (N2 x I). cbn. by right.
    + cbn in N3. by apply NoDup_cons in N3 as [_ ?].
Qed.
End DictFacts.

(** * The filtering passes *)
Section KeepLoops.
Context {handle FunctionType : Type} `{!Reflection handle FunctionType}.
Implicit Types (h : list (CachedObject handle FunctionType)) (self c : ref).

Lemma first_match_run fs c keep h nc h_keep :
  h !! c = Some nc → keep h = (Ok tt, h_keep) →
  cached_object.first_match fs c keep h
  = (Ok (existsb (λ f, call f nc) fs),
     if existsb (λ f, call f nc) fs then h_keep else h).
Proof.
  intros Hc Hk. unfold cached_object.first_match.
  induction fs as [|f fs IH]; cbn [for_break existsb]; [reflexivity|].
  rewrite !bind_run, (deref_run _ _ nc) by done. cbv beta iota.
  destruct (call f nc); cbn [orb].
  - by rewrite !bind_run, Hk.
  - rewrite ret_run. cbv beta iota. exact IH.
Qed.

Context {K V : Type} `{EqDecision K}.
Context (get : CachedObject handle FunctionType → list (K * V))
        (set : list (K * V) → CachedObject handle FunctionType
               → CachedObject handle FunctionType).
Hypothesis get_set : ∀ d n, get (set d n) = d.
Hypothesis set_set : ∀ d d' n, set d (set d' n) = set d n.
Hypothesis set_get : ∀ n, set (get n) n = n.

Lemma keep_loop (node_of : V → ref) (drop : bool) fs self (ok : ref → bool) l :
  ∀ h n, h !! self = Some n →
    Forall (λ e : K * V, node_of e.2 ≠ self
              ∧ ∃ nc, h !! node_of e.2 = Some nc
                      ∧ existsb (λ f, call f nc) fs = ok (node_of e.2)) l →
    for_in l (keep_body get set node_of drop fs self) h
    = (Ok tt,
       <[self := set (fold_left (λ d e, if ok (node_of e.2) then dict_set e.1 e.2 d
                                        else if drop then dict_del e.1 d else d)
                                l (get n)) n]> h).
Proof.
  induction l as [|e l IH]; intros h n Hn HF; cbn [for_in fold_left].
  - by rewrite set_get, list_insert_id.
  - apply Forall_cons in HF as [(Hne & nc & Hc & Hok) HF].
    pose proof (lookup_lt_Some _ _ _ Hn) as L.
    assert (∀ d, Forall (λ e : K * V, node_of e.2 ≠ self
              ∧ ∃ nc, <[self := set d n]> h !! node_of e.2 = Some nc
                      ∧ existsb (λ f, call f nc) fs = ok (node_of e.2)) l) as HF'.
    { intros d. eapply Forall_impl; [exact HF|]. intros x (? & ? & ? & ?).
      split; [done|]. rewrite list_lookup_insert_ne by done. eauto. }
    rewrite bind_run. unfold keep_body at 1. rewrite bind_run.
    erewrite first_match_run; [|exact Hc|by apply modify_run].
    rewrite Hok. cbv beta iota. destruct (ok (node_of e.2)).
    + rewrite ret_run. cbv beta iota.
      rewrite IH with (n := set (dict_set e.1 e.2 (get n)) n);
        [|by rewrite list_lookup_insert_eq|by apply HF'].
      by rewrite get_set, set_set, list_insert_insert_eq.
    + destruct drop.
      * rewrite (modify_run _ _ n) by done. cbv beta iota.
        rewrite IH with (n := set (dict_del e.1 (get n)) n);
          [|by rewrite list_lookup_insert_eq|by apply HF'].
        by rewrite get_set, set_set, list_insert_insert_eq.
      * rewrite ret_run. cbv beta iota. by apply IH.
Qed.
End KeepLoops.


(** * The passes of [filter] *)
Section Passes.
Context {handle FunctionType : Type} `{!Reflection handle FunctionType}.
Import cached_object.
Implicit Types (h : list (CachedObject handle FunctionType)) (self c : ref)
  (n : CachedObject handle FunctionType).

Section Members.
Context (members : CachedObject handle FunctionType → list (string * ref))
        (get : CachedObject handle FunctionType → list (string * ref))
        (set : list (string * ref) → CachedObject handle FunctionType
               → CachedObject handle FunctionType).
Hypothesis get_set : ∀ d n, get (set d n) = d.
Hypothesis set_set : ∀ d d' n, set d (set d' n) = set d n.
Hypothesis set_get : ∀ n, set (get n) n = n.
Hypothesis members_set : ∀ d n, members (set d n) = members n.
Hypothesis filters_set : ∀ d n, filters (set d n) = filters n.

Lemma filter_members_run self h n :
  h !! self = Some n →
  Forall (λ e : string * ref, e.2 ≠ self ∧ e.2 < length h) (members n) →
  filter_members members get set self h
  = (Ok tt, <[self := set (kept_members (filters n) h (members n)) n]> h).
Proof.
  intros Hn HF. pose proof (lookup_lt_Some _ _ _ Hn) as L.
  unfold filter_members.
  rewrite bind_run, (modify_run _ _ n) by done. cbv beta iota.
  rewrite bind_run, (deref_run _ _ (set [] n)) by (by rewrite list_lookup_insert_eq).
  cbv beta iota. rewrite filters_set, members_set.
  unfold kept_members. destruct (filters n) as [|f fs] eqn:Hfs.
  - erewrite modify_run by (by rewrite list_lookup_insert_eq).
    by rewrite members_set, set_set, list_insert_insert_eq.
  - rewrite for_in_ext with
      (body' := keep_body get set (λ c : ref, c) false (f :: fs) self).
    2:{ intros [attr c] s. unfold keep_body. rewrite !bind_run. cbn [fst snd].
        by destruct (first_match _ _ _ s) as [[[]|]]. }
    rewrite keep_loop with (n := set [] n) (ok := accepted (f :: fs) h);
      [|done..|by rewrite list_lookup_insert_eq|].
    + by rewrite get_set, set_set, list_insert_insert_eq.
    + eapply Forall_impl; [exact HF|]. intros e [Hne Hlt].
      split; [done|]. destruct (lookup_lt_is_Some_2 h e.2 Hlt) as [nc Hc].
      exists nc. rewrite list_lookup_insert_ne by done. split; [done|].
      unfold accepted. by rewrite Hc.
Qed.
End Members.

(** ** What the rounds of a loop leave *)

Lemma collect_Forall2 {A B} (g : A → result B) (l : list A) :
  (collect g l).2 = None → Forall2 (λ x b, g x = Ok b) l (collect g l).1.
Proof.
  induction l as [|x l IH]; cbn; [constructor|].
  destruct (g x) as [b|e] eqn:E; [|done].
  destruct (collect g l) as [bs e]. cbn in *. intros ->. constructor; auto.
Qed.

Lemma collect_prefix {A B X} (g : A → result B) (ka : A → X) (kb : B → X) (l : list A) :
  (∀ x b, g x = Ok b → kb b = ka x) →
  (kb <$> (collect g l).1) `prefix_of` (ka <$> l).
Proof.
  intros Hk. induction l as [|x l IH]; cbn; [done|].
  destruct (g x) as [b|e] eqn:E; [|apply prefix_nil].
  destruct (collect g l) as [bs e]. cbn in *.
  rewrite (Hk _ _ E). by apply prefix_cons.
Qed.

Lemma NoDup_prefix {X} (l k : list X) : l `prefix_of` k → NoDup k → NoDup l.
Proof. intros [k' ->] N. by apply NoDup_app in N as [? _]. Qed.

Lemma file_all_list (bs : list (Text * CachedObject handle FunctionType)) :
  ∀ base d, file_all file_list base bs d = d ++ imap (λ i b, (b.1, base + i)) bs.
Proof.
  induction bs as [|b bs IH]; intros base d; cbn [file_all].
  - by rewrite app_nil_r.
  - rewrite IH, imap_cons. unfold file_list. rewrite <- app_assoc. cbn.
    rewrite Nat.add_0_r. do 2 f_equal. apply imap_ext. intros i x _. cbn.
    f_equal. lia.
Qed.

Lemma file_all_dict (bs : list (pyindex * Text * CachedObject handle FunctionType)) :
  ∀ base d, NoDup (d.*1 ++ bs.*1.*1) →
    file_all file_dict base bs d
    = d ++ imap (λ i b, (b.1.1, (b.1.2, base + i))) bs.
Proof.
  induction bs as [|b bs IH]; intros base d N; cbn [file_all].
  - by rewrite app_nil_r.
  - assert (b.1.1 ∉ d.*1) as F.
    { apply NoDup_app in N as (_ & N & _). intros I. apply (N _ I). cbn. left. }
    unfold file_dict at 2. rewrite dict_set_fresh by done.
    rewrite IH, imap_cons.
    + rewrite <- app_assoc. cbn. rewrite Nat.add_0_r. do 2 f_equal.
      apply imap_ext. intros i x _. cbn. do 2 f_equal. lia.
    + rewrite fmap_app. cbn. rewrite <- app_assoc. exact N.
Qed.

(** The filtering pass of a sequence, with its local list *)
Lemma list_keep_loop fs (ok : ref → bool) (l : list (Text * ref)) :
  ∀ h acc,
    Forall (λ e : Text * ref, ∃ nc, h !! e.2 = Some nc
                                    ∧ existsb (λ f, call f nc) fs = ok e.2) l →
    foldlM l acc (λ new_filtered_list '(line, cached_obj),
      broke ← first_match fs cached_obj (mret tt);
      mret (if broke : bool then new_filtered_list ++ [(line, cached_obj)]
            else new_filtered_list)) h
    = (Ok (acc ++ List.filter (λ e, ok e.2) l), h).
Proof.
  induction l as [|[line c] l IH]; intros h acc HF; cbn [foldlM List.filter].
  - by rewrite app_nil_r.
  - apply Forall_cons in HF as [(nc & Hc & Hok) HF]. cbn [snd] in *.
    rewrite !bind_run.
    erewrite first_match_run; [|exact Hc|reflexivity].
    rewrite Hok. destruct (ok c); cbn [snd]; rewrite ret_run; cbv beta iota.
    + rewrite IH by done. by rewrite <- app_assoc.
    + by rewrite IH.
Qed.
End Passes.


(** ** The container passes *)
Section ContainerPasses.
Context {handle FunctionType : Type} `{!Reflection handle FunctionType}.
Import cached_object.
Implicit Types (h : list (CachedObject handle FunctionType)) (self c : ref)
  (n : CachedObject handle FunctionType).

Lemma dict_entry_key n item b :
  dict_entry n item = Ok b → b.1.1 = item.1 ∧ obj b.2 = item.2.
Proof.
  destruct item as [key val]. unfold dict_entry. intros E. run_result E.
  inversion E; subst. cbn. split; [done|].
  by eapply init_Ok_dotpath.
Qed.


(** The entries a dictionary pass files, with the addresses from [base]
    on, and those of a sequence pass *)
Lemma dict_children_NoDup n :
  NoDup (items (obj n)).*1 →
  NoDup (collect (dict_entry n) (items (obj n))).1.*1.*1.
Proof.
  intros N. eapply NoDup_prefix; [|exact N].
  rewrite <- list_fmap_compose.
  apply (collect_prefix (dict_entry n) fst (fst ∘ fst)).
  intros x b E. by apply dict_entry_key in E as [? _].
Qed.

Lemma filter_dict_run self h n :
  h !! self = Some n →
  NoDup (items (obj n)).*1 →
  filter_dict self h =
    match type (obj n) with
    | type_dict =>
        let bs := (collect (dict_entry n) (items (obj n))).1 in
        let full := imap (λ i b, (b.1.1, (b.1.2, length h + i))) bs in
        let h1 := <[self := with_filtered_dict full n]> h ++ bs.*2 in
        match (collect (dict_entry n) (items (obj n))).2 with
        | Some e => (Raise e, h1)
        | None =>
            (Ok tt,
             <[self := with_filtered_dict
                         (view (λ e : pyindex * (Text * ref), e.2.2) (filters n) h1 full)
                         n]> h1)
        end
    | _ => (Ok tt, <[self := with_filtered_dict [] n]> h)
    end.
Proof.
  intros Hn N. pose proof (lookup_lt_Some _ _ _ Hn) as L.
  pose proof (dict_children_NoDup n N) as Nb.
  unfold filter_dict.
  rewrite bind_run, (modify_run _ _ n) by done. cbv beta iota.
  rewrite bind_run, (deref_run _ _ (with_filtered_dict [] n))
    by (by rewrite list_lookup_insert_eq).
  cbv beta iota. cbn [obj with_filtered_dict filters dotpath].
  destruct (type (obj n)); try reflexivity.
  rewrite bind_run.
  rewrite for_in_ext with
    (body' := alloc_body filtered_dict with_filtered_dict (dict_entry n) snd file_dict self).
  2:{ intros [key val] s. unfold alloc_body, dict_entry.
      rewrite !bind_run. unfold lift.
      destruct (str_type val) as [t|]; cbn; [|done].
      by destruct (__init__ val _ _ _) as [c|]. }
  rewrite (alloc_loop filtered_dict with_filtered_dict) with (n := with_filtered_dict [] n);
    [|done|done|by destruct n0|by rewrite list_lookup_insert_eq].
  rewrite length_insert.
  change (filtered_dict (with_filtered_dict [] n)) with (@nil (pyindex * (Text * ref))).
  rewrite file_all_dict by done. cbn [app].
  rewrite list_insert_insert_eq.
  destruct (collect (dict_entry n) (items (obj n))) as [bs e] eqn:Ec.
  cbn [fst snd] in *.
  set (full := imap _ bs).
  change (with_filtered_dict full (with_filtered_dict [] n))
    with (with_filtered_dict full n).
  set (h1 := <[self := with_filtered_dict full n]> h ++ bs.*2).
  destruct e as [e|]; cbn [outcome]; [reflexivity|].
  assert (h1 !! self = Some (with_filtered_dict full n)) as H1.
  { unfold h1. rewrite lookup_app_l by (by rewrite length_insert).
    by rewrite list_lookup_insert_eq. }
  destruct (filters n) as [|f fs] eqn:Hfs.
  - rewrite ret_run. unfold view. by rewrite list_insert_id.
  - rewrite bind_run, (deref_run _ _ _ H1). cbv beta iota.
    change (filtered_dict (with_filtered_dict full n)) with full.
    rewrite for_in_ext with
      (body' := keep_body filtered_dict with_filtered_dict
                  (λ v : Text * ref, v.2) true (f :: fs) self).
    2:{ intros [attr [line c]] s. reflexivity. }
    rewrite (keep_loop filtered_dict with_filtered_dict)
      with (n := with_filtered_dict full n) (ok := accepted (f :: fs) h1);
      [|done|done|by destruct n0|done|].
    + change (filtered_dict (with_filtered_dict full n)) with full.
      change (with_filtered_dict ?d (with_filtered_dict full n))
        with (with_filtered_dict d n).
      do 3 f_equal. unfold view.
      rewrite (drop_fold_filter (λ e, accepted (f :: fs) h1 e.2.2) full []).
      * reflexivity.
      * cbn [app]. unfold full. rewrite fmap_imap.
        replace (imap _ bs) with (bs.*1.*1); [done|].
        rewrite <- list_fmap_compose, <- imap_const. by apply imap_ext.
    + apply Forall_lookup. intros i e He. unfold full in He.
      apply list_lookup_imap_Some in He as (b & Hb & ->). cbn [fst snd].
      split; [lia|].
      exists b.2. split.
      * unfold h1. rewrite lookup_app_r by (rewrite length_insert; lia).
        rewrite length_insert, list_lookup_fmap.
        replace (length h + i - length h) with i by lia. by rewrite Hb.
      * unfold accepted, h1. rewrite lookup_app_r by (rewrite length_insert; lia).
        rewrite length_insert, list_lookup_fmap.
        replace (length h + i - length h) with i by lia. by rewrite Hb.
Qed.

Lemma filter_list_run self h n :
  h !! self = Some n →
  filter_list self h =
    if is_sequence (type (obj n)) then
      let bs := (collect (list_entry n) (enumerate (iter (obj n)))).1 in
      let full := imap (λ i b, (b.1, length h + i)) bs in
      let h1 := <[self := with_filtered_list full n]> h ++ bs.*2 in
      match (collect (list_entry n) (enumerate (iter (obj n)))).2 with
      | Some e => (Raise e, h1)
      | None =>
          (Ok tt,
           <[self := with_filtered_list
                       (view (λ e : Text * ref, e.2) (filters n) h1 full) n]> h1)
      end
    else (Ok tt, <[self := with_filtered_list [] n]> h).
Proof.
  intros Hn. pose proof (lookup_lt_Some _ _ _ Hn) as L.
  unfold filter_list.
  rewrite bind_run, (modify_run _ _ n) by done. cbv beta iota.
  rewrite bind_run, (deref_run _ _ (with_filtered_list [] n))
    by (by rewrite list_lookup_insert_eq).
  cbv beta iota. cbn [obj with_filtered_list filters dotpath].
  destruct (type (obj n)); cbn [is_sequence]; try reflexivity.
  all: rewrite bind_run.
  all: rewrite for_in_ext with
    (body' := alloc_body filtered_list with_filtered_list (list_entry n) snd file_list self);
    [|intros [index item] s; unfold alloc_body, list_entry;
      rewrite !bind_run; unfold lift;
      destruct (str_type item) as [t|]; cbn; [|done];
      by destruct (__init__ item _ _ _) as [c|]].
  all: rewrite (alloc_loop filtered_list with_filtered_list)
         with (n := with_filtered_list [] n);
    [|done|done|by destruct n0|by rewrite list_lookup_insert_eq].
  all: rewrite length_insert.
  all: change (filtered_list (with_filtered_list [] n)) with (@nil (Text * ref)).
  all: rewrite file_all_list; cbn [app].
  all: rewrite list_insert_insert_eq.
  all: destruct (collect (list_entry n) (enumerate (iter (obj n)))) as [bs e] eqn:Ec.
  all: cbn [fst snd] in *.
  all: set (full := imap _ bs).
  all: change (with_filtered_list full (with_filtered_list [] n))
         with (with_filtered_list full n).
  all: set (h1 := <[self := with_filtered_list full n]> h ++ bs.*2).
  all: destruct e as [e|]; cbn [outcome]; [reflexivity|].
  all: assert (h1 !! self = Some (with_filtered_list full n)) as H1
         by (unfold h1; rewrite lookup_app_l by (by rewrite length_insert);
             by rewrite list_lookup_insert_eq).
  all: destruct (filters n) as [|f fs] eqn:Hfs;
    [rewrite ret_run; unfold view; by rewrite list_insert_id|].
  all: rewrite bind_run, (deref_run _ _ _ H1); cbv beta iota.
  all: change (filtered_list (with_filtered_list full n)) with full.
  all: rewrite bind_run.
  all: rewrite (list_keep_loop (f :: fs) (accepted (f :: fs) h1) full h1 []);
    [rewrite (modify_run _ _ _ _ H1); reflexivity|].
  all: apply Forall_lookup; intros i e He; unfold full in He.
  all: apply list_lookup_imap_Some in He as (b & Hb & ->); cbn [fst snd].
  all: exists b.2; unfold accepted, h1.
  all: rewrite lookup_app_r by (rewrite length_insert; lia).
  all: rewrite length_insert, list_lookup_fmap.
  all: replace (length h + i - length h) with i by lia.
  all: by rewrite Hb.
Qed.
End ContainerPasses.


(** * [filter] as a function of the store *)
Section FilterSpec.
Context {handle FunctionType : Type} `{!Reflection handle FunctionType}.
Import cached_object.
Implicit Types (h : list (CachedObject handle FunctionType)) (self c : ref)
  (n : CachedObject handle FunctionType).

Lemma members_ok_public h self n :
  members_ok h self n →
  Forall (λ e : string * ref, e.2 ≠ self ∧ e.2 < length h) (public_attributes n).
Proof.
  unfold members_ok. rewrite Forall_app, !Forall_fmap. by intros [? _].
Qed.

Lemma members_ok_private h self n :
  members_ok h self n →
  Forall (λ e : string * ref, e.2 ≠ self ∧ e.2 < length h) (private_attributes n).
Proof.
  unfold members_ok. rewrite Forall_app, !Forall_fmap. by intros [_ ?].
Qed.

(** The members are looked at in the store the pass started from: a
    store that differs at [self] only accepts the same members. *)
Lemma kept_members_insert fs h self n' (members : list (string * ref)) :
  Forall (λ e : string * ref, e.2 ≠ self ∧ e.2 < length h) members →
  kept_members fs (<[self := n']> h) members = kept_members fs h members.
Proof.
  intros HF. unfold kept_members. destruct fs as [|f fs]; [done|].
  generalize (@nil (string * ref)).
  induction HF as [|e l [Hne _] _ IH]; intros d; cbn [fold_left]; [done|].
  rewrite IH. unfold accepted at 2 4. by rewrite list_lookup_insert_ne.
Qed.

Lemma view_nil {X} (node_of : X → ref) fs h : view node_of fs h [] = [].
Proof. unfold view. by destruct fs. Qed.

(** The sequence pass after a dictionary pass that had nothing to do *)
Lemma sequence_case self h n n2 :
  self < length h →
  is_sequence (type (obj n)) = true →
  obj n2 = obj n → filters n2 = filters n → dotpath n2 = dotpath n →
  (filter_list self (<[self := with_filtered_dict [] n2]> h))
  = (let n3 := with_filtered_dict
                 (view (λ e : pyindex * (Text * ref), e.2.2) (filters n)
                    (<[self := with_filtered_dict [] n2]> h ++ []) []) n2 in
     let h_d := <[self := with_filtered_dict [] n2]> h ++ [] in
     let full_l := imap (λ i b, (b.1, length h_d + i))
                     (collect (list_entry n) (enumerate (iter (obj n)))).1 in
     let h_l := <[self := with_filtered_list full_l n3]> h_d
                ++ (collect (list_entry n) (enumerate (iter (obj n)))).1.*2 in
     match (collect (list_entry n) (enumerate (iter (obj n)))).2 with
     | Some e => (Raise e, h_l)
     | None =>
         (Ok tt,
          <[self := with_filtered_list
                      (view (λ e : Text * ref, e.2) (filters n) h_l full_l) n3]> h_l)
     end).
Proof.
  intros L S Ho Hf Hd. cbv zeta. rewrite view_nil, app_nil_r.
  set (n3 := with_filtered_dict [] n2).
  rewrite filter_list_run with (n := n3) by (by rewrite list_lookup_insert_eq).
  change (obj n3) with (obj n2). change (filters n3) with (filters n2).
  rewrite Ho, Hf, S.
  replace (list_entry n3) with (list_entry n).
  2:{ unfold list_entry. change (dotpath n3) with (dotpath n2). by rewrite Hd. }
  cbv zeta. rewrite !list_insert_insert_eq, !length_insert. reflexivity.
Qed.

Theorem filter_run self h n :
  h !! self = Some n →
  members_ok h self n →
  NoDup (items (obj n)).*1 →
  filter self h = filter_spec h self n.
Proof.
  intros Hn Hm N. pose proof (lookup_lt_Some _ _ _ Hn) as L.
  unfold filter, filter_spec.
  rewrite bind_run.
  rewrite (filter_members_run public_attributes filtered_public_attributes
             with_filtered_public_attributes) with (n := n);
    [|done|done|by destruct n0|done|done|done|by apply members_ok_public].
  cbv beta iota. rewrite bind_run.
  set (n1 := with_filtered_public_attributes _ n).
  rewrite (filter_members_run private_attributes filtered_private_attributes
             with_filtered_private_attributes) with (n := n1);
    [|done|done|by destruct n0|done|done|by rewrite list_lookup_insert_eq|].
  2:{ rewrite length_insert. by apply members_ok_private. }
  cbv beta iota. rewrite list_insert_insert_eq.
  change (filters n1) with (filters n).
  change (private_attributes n1) with (private_attributes n).
  rewrite kept_members_insert by (by apply members_ok_private).
  change (with_filtered_private_attributes _ n1) with (after_members h n).
  set (n2 := after_members h n).
  rewrite bind_run.
  rewrite filter_dict_run with (n := n2); [|by rewrite list_lookup_insert_eq|done].
  rewrite length_insert, list_insert_insert_eq.
  change (obj n2) with (obj n). change (filters n2) with (filters n).
  change (dict_entry n2) with (dict_entry n).
  unfold dict_rounds, list_rounds, dict_entries, list_entries.
  destruct (type (obj n)) eqn:T; cbn [is_sequence fst snd imap fmap list_fmap];
    rewrite ?list_insert_insert_eq.
  - (* a dictionary *)
    destruct (collect (dict_entry n) (items (obj n))) as [bs [e|]]; cbn [fst snd];
      [reflexivity|].
    set (h_d := <[self := _]> h ++ bs.*2).
    set (n3 := with_filtered_dict (view _ _ h_d _) n2).
    assert (self < length h_d) as Ld by (unfold h_d; rewrite length_app, length_insert; lia).
    rewrite filter_list_run with (n := n3) by (by rewrite list_lookup_insert_eq).
    change (obj n3) with (obj n). rewrite T. cbn [is_sequence].
    by rewrite view_nil, !app_nil_r, !list_insert_insert_eq.
  - (* a list *)
    rewrite (sequence_case self h n n2); [reflexivity|done|by rewrite T|done..].
  - (* a tuple *)
    rewrite (sequence_case self h n n2); [reflexivity|done|by rewrite T|done..].
  - (* a set *)
    rewrite (sequence_case self h n n2); [reflexivity|done|by rewrite T|done..].
  - (* anything else *)
    rewrite view_nil, app_nil_r.
    set (n3 := with_filtered_dict [] n2).
    rewrite filter_list_run with (n := n3) by (by rewrite list_lookup_insert_eq).
    change (obj n3) with (obj n). rewrite T. cbn [is_sequence].
    by rewrite ?list_insert_insert_eq, ?app_nil_r, ?length_insert, ?view_nil,
         ?list_insert_insert_eq.
Qed.

(** ** Reading the store [filter] leaves *)

Lemma lookup_insert_app_self h self n l :
  self < length h → (<[self := n]> h ++ l) !! self = Some n.
Proof.
  intros L. rewrite lookup_app_l by (by rewrite length_insert).
  by apply list_lookup_insert_eq.
Qed.

Lemma lookup_insert_app_old h self n l c :
  c ≠ self → c < length h → (<[self := n]> h ++ l) !! c = h !! c.
Proof.
  intros Hne L. rewrite lookup_app_l by (by rewrite length_insert).
  by apply list_lookup_insert_ne.
Qed.

Lemma lookup_insert_app_new h self n l i :
  self < length h → (<[self := n]> h ++ l) !! (length h + i) = l !! i.
Proof.
  intros L. rewrite lookup_app_r by (rewrite length_insert; lia).
  rewrite length_insert. f_equal. lia.
Qed.

Lemma view_ext {X} (node_of : X → ref) fs h h' (l : list X) :
  Forall (λ x, h' !! node_of x = h !! node_of x) l →
  view node_of fs h' l = view node_of fs h l.
Proof.
  intros HF. unfold view. destruct fs as [|f fs]; [done|].
  induction HF as [|x l E _ IH]; cbn; [done|].
  rewrite IH. replace (accepted (f :: fs) h' (node_of x))
    with (accepted (f :: fs) h (node_of x)); [done|].
  unfold accepted. by rewrite E.
Qed.

Lemma kept_members_view fs h (members : list (string * ref)) :
  NoDup members.*1 →
  kept_members fs h members = view (λ e : string * ref, e.2) fs h members.
Proof.
  intros N. unfold kept_members, view. destruct fs as [|f fs]; [done|].
  by rewrite (keep_fold_filter (λ e, accepted (f :: fs) h e.2) members []).
Qed.

(** The store of a pass that returned, in one piece: [self] rewritten
    and the children of the container appended. *)
Lemma filter_spec_Ok h self n :
  self < length h →
  (dict_rounds n).2 = None → (list_rounds n).2 = None →
  ∃ n', filter_spec h self n
        = (Ok tt, <[self := n']> h ++ ((dict_rounds n).1.*2 ++ (list_rounds n).1.*2))
    ∧ n' = with_filtered_list (filtered_list n')
             (with_filtered_dict (filtered_dict n') (after_members h n))
    ∧ filtered_dict n'
      = view (λ e : pyindex * (Text * ref), e.2.2) (filters n)
          (<[self := n']> h ++ ((dict_rounds n).1.*2 ++ (list_rounds n).1.*2))
          (dict_entries (length h) (dict_rounds n).1)
    ∧ filtered_list n'
      = view (λ e : Text * ref, e.2) (filters n)
          (<[self := n']> h ++ ((dict_rounds n).1.*2 ++ (list_rounds n).1.*2))
          (list_entries (length h + length (dict_rounds n).1) (list_rounds n).1).
Proof.
  intros L Ed El. unfold filter_spec. rewrite Ed, El.
  set (bd := (dict_rounds n).1). set (bl := (list_rounds n).1).
  set (n2 := after_members h n).
  set (full_d := dict_entries (length h) bd).
  set (h_d := <[self := with_filtered_dict full_d n2]> h ++ bd.*2).
  set (vd := view _ (filters n) h_d full_d).
  set (n3 := with_filtered_dict vd n2).
  set (full_l := list_entries (length h_d) bl).
  set (h_l := <[self := with_filtered_list full_l n3]> h_d ++ bl.*2).
  set (vl := view _ (filters n) h_l full_l).
  exists (with_filtered_list vl n3).
  assert (length h_d = length h + length bd) as Ld
    by (unfold h_d; by rewrite length_app, length_insert, length_fmap).
  assert (∀ x, <[self := x]> h_l = <[self := x]> h ++ (bd.*2 ++ bl.*2)) as Hl.
  { intros x. unfold h_l, h_d.
    rewrite insert_app_l by (rewrite length_insert, length_app, length_insert; lia).
    rewrite list_insert_insert_eq.
    rewrite insert_app_l by (rewrite length_insert; lia).
    by rewrite list_insert_insert_eq, <- app_assoc. }
  rewrite Hl. repeat split.
  - change (filtered_dict (with_filtered_list vl n3)) with vd.
    unfold vd. apply view_ext. apply Forall_lookup. intros i e He.
    apply list_lookup_imap_Some in He as (b & Hb & ->). cbn [fst snd].
    unfold h_d. rewrite !lookup_insert_app_new by done.
    rewrite lookup_app_l; [done|]. rewrite length_fmap. by eapply lookup_lt_Some.
  - change (filtered_list (with_filtered_list vl n3)) with vl.
    unfold vl, full_l. rewrite Ld. apply view_ext. apply Forall_lookup. intros i e He.
    apply list_lookup_imap_Some in He as (b & Hb & ->). cbn [fst snd].
    unfold h_l. rewrite <- Ld.
    rewrite !lookup_insert_app_new by lia.
    rewrite Ld, <- Nat.add_assoc, lookup_insert_app_new by done.
    rewrite lookup_app_r by (rewrite length_fmap; lia).
    rewrite length_fmap. f_equal. lia.
Qed.


End FilterSpec.



(** * [cache] as a function of the store *)
Section CacheSpec.
Context {handle FunctionType : Type} `{!Reflection handle FunctionType}.
Import cached_object.
Implicit Types (h : list (CachedObject handle FunctionType)) (self c : ref)
  (n : CachedObject handle FunctionType).

Lemma cache_attrs_run (get : CachedObject handle FunctionType → list (string * ref))
    (set : list (string * ref) → CachedObject handle FunctionType
           → CachedObject handle FunctionType) self n0 names h n :
  (∀ d n, get (set d n) = d) →
  (∀ d d' n, set d (set d' n) = set d n) →
  (∀ n, set (get n) n = n) →
  h !! self = Some n →
  cache_attrs self n0 names (λ attr r n, set (dict_set attr r (get n)) n) h
  = (outcome (collect (member_entry n0) names).2,
     <[self := set (file_all file_member (length h)
                      (collect (member_entry n0) names).1 (get n)) n]> h
     ++ (collect (member_entry n0) names).1.*2).
Proof.
  intros L1 L2 L3 Hn. unfold cache_attrs.
  rewrite for_in_ext with
    (body' := alloc_body get set (member_entry n0) snd file_member self).
  2:{ intros attr s. unfold alloc_body, member_entry.
      rewrite !bind_run. unfold lift.
      destruct (getattr (obj n0) attr) as [v|]; cbn; [|done].
      by destruct (__init__ v _ _ _) as [c|]. }
  by apply alloc_loop.
Qed.

Lemma file_all_Forall (P : ref → Prop) (bs : list (string * CachedObject handle FunctionType)) :
  ∀ base d, Forall P d.*2 → (∀ i, i < length bs → P (base + i)) →
    Forall P (file_all file_member base bs d).*2.
Proof.
  induction bs as [|b bs IH]; intros base d Hd Hb; cbn [file_all]; [done|].
  apply IH.
  - unfold file_member. clear IH. induction d as [|[k v] d IHd]; cbn.
    + constructor; [|done]. specialize (Hb 0). rewrite Nat.add_0_r in Hb.
      apply Hb. cbn. lia.
    + apply Forall_cons in Hd as [? ?]. destruct (decide (k = b.1)); cbn.
      * constructor; [|done]. specialize (Hb 0). rewrite Nat.add_0_r in Hb.
        apply Hb. cbn. lia.
      * constructor; auto.
  - intros i Hi. replace (S base + i) with (base + S i) by lia. apply Hb. cbn. lia.
Qed.

Lemma file_all_nonempty (b : string * CachedObject handle FunctionType) bs base d :
  file_all file_member base (b :: bs) d ≠ [].
Proof.
  cbn [file_all]. generalize (S base).
  assert (file_member b base d ≠ []) as Hne by apply dict_set_nonempty.
  revert Hne. generalize (file_member b base d). clear d.
  induction bs as [|b' bs IH]; intros d Hne base'; cbn [file_all]; [done|].
  apply IH. apply dict_set_nonempty.
Qed.

(** The member passes of [cache], and [filter] after them when both
    returned *)
Lemma cache_members_run self h n :
  h !! self = Some n →
  cache self h =
    let pub := member_rounds n (public_attributes n) (plain_public_attributes n) in
    let n1 := with_public_attributes
                (file_all file_member (length h) pub.1 (public_attributes n)) n in
    let h1 := <[self := n1]> h ++ pub.1.*2 in
    match pub.2 with
    | Some e => (Raise e, h1)
    | None =>
        let priv := member_rounds n (private_attributes n) (plain_private_attributes n) in
        let n2 := with_private_attributes
                    (file_all file_member (length h1) priv.1 (private_attributes n)) n1 in
        let h2 := <[self := n2]> h1 ++ priv.1.*2 in
        match priv.2 with
        | Some e => (Raise e, h2)
        | None => filter self h2
        end
    end.
Proof.
  intros Hn. pose proof (lookup_lt_Some _ _ _ Hn) as L.
  unfold cache. cbv zeta.
  rewrite bind_run, (deref_run _ _ n) by done. cbv beta iota.
  rewrite bind_run.
  set (pub := member_rounds n (public_attributes n) (plain_public_attributes n)).
  set (n1 := with_public_attributes
               (file_all file_member (length h) pub.1 (public_attributes n)) n).
  set (h1 := <[self := n1]> h ++ pub.1.*2).
  assert (match public_attributes n with
          | [] => cache_attrs self n (plain_public_attributes n)
                    (λ attr r n, with_public_attributes
                                   (dict_set attr r (public_attributes n)) n)
          | _ => mret tt
          end h = (outcome pub.2, h1)) as ->.
  { unfold h1, n1, pub, member_rounds. destruct (public_attributes n) eqn:Ep.
    - rewrite (cache_attrs_run public_attributes with_public_attributes)
        with (n := n); [|done|done|by destruct n0|done].
      by rewrite Ep.
    - rewrite ret_run. cbn [fst snd file_all fmap list_fmap outcome].
      rewrite app_nil_r, list_insert_id; [done|]. rewrite Hn. f_equal.
      rewrite <- Ep. by destruct n. }
  assert (h1 !! self = Some n1) as H1 by (by apply lookup_insert_app_self).
  destruct pub.2 as [e|]; cbn [outcome]; [reflexivity|].
  rewrite bind_run, (deref_run _ _ n1) by done. cbv beta iota.
  change (private_attributes n1) with (private_attributes n).
  change (plain_private_attributes n1) with (plain_private_attributes n).
  rewrite bind_run.
  set (priv := member_rounds n (private_attributes n) (plain_private_attributes n)).
  set (n2 := with_private_attributes
               (file_all file_member (length h1) priv.1 (private_attributes n)) n1).
  set (h2 := <[self := n2]> h1 ++ priv.1.*2).
  assert (match private_attributes n with
          | [] => cache_attrs self n1 (plain_private_attributes n)
                    (λ attr r n, with_private_attributes
                                   (dict_set attr r (private_attributes n)) n)
          | _ => mret tt
          end h1 = (outcome priv.2, h2)) as ->.
  { unfold h2, n2, priv, member_rounds. destruct (private_attributes n) eqn:Ep.
    - rewrite (cache_attrs_run private_attributes with_private_attributes)
        with (n := n1); [|done|done|by destruct n0|done].
      change (private_attributes n1) with (private_attributes n). by rewrite Ep.
    - rewrite ret_run. cbn [fst snd file_all fmap list_fmap outcome].
      rewrite app_nil_r, list_insert_id; [done|]. rewrite H1. f_equal.
      rewrite <- Ep. change (private_attributes n) with (private_attributes n1).
      by destruct n1. }
  by destruct priv.2 as [e|].
Qed.

(** After the member passes the members of the node are old ones or
    children just made. *)
Lemma members_ok_filed self h n
    (pub priv : list (string * CachedObject handle FunctionType)) :
  self < length h →
  members_ok h self n →
  let n1 := with_public_attributes
              (file_all file_member (length h) pub (public_attributes n)) n in
  let h1 := <[self := n1]> h ++ pub.*2 in
  let n2 := with_private_attributes
              (file_all file_member (length h1) priv (private_attributes n)) n1 in
  members_ok (<[self := n2]> h1 ++ priv.*2) self n2.
Proof.
  intros L Hm n1 h1 n2.
  assert (length h1 = length h + length pub) as Lh1
    by (unfold h1; by rewrite length_app, length_insert, length_fmap).
  unfold members_ok in *. apply Forall_app in Hm as [Hp Hq].
  rewrite length_app, length_insert, length_fmap.
  apply Forall_app. split.
  + change (public_attributes n2)
      with (file_all file_member (length h) pub (public_attributes n)).
    apply file_all_Forall.
    * eapply Forall_impl; [exact Hp|]. intros c [? ?]. split; [done|lia].
    * intros i Hi. split; lia.
  + change (private_attributes n2)
      with (file_all file_member (length h1) priv (private_attributes n)).
    apply file_all_Forall.
    * eapply Forall_impl; [exact Hq|]. intros c [? ?]. split; [done|lia].
    * intros i Hi. split; lia.
Qed.

Theorem cache_run self h n :
  h !! self = Some n →
  members_ok h self n →
  NoDup (items (obj n)).*1 →
  cache self h = cache_spec h self n.
Proof.
  intros Hn Hm N. pose proof (lookup_lt_Some _ _ _ Hn) as L.
  rewrite (cache_members_run self h n Hn). unfold cache_spec. cbv zeta.
  set (pub := member_rounds n (public_attributes n) (plain_public_attributes n)).
  set (n1 := with_public_attributes
               (file_all file_member (length h) pub.1 (public_attributes n)) n).
  set (h1 := <[self := n1]> h ++ pub.1.*2).
  set (priv := member_rounds n (private_attributes n) (plain_private_attributes n)).
  set (n2 := with_private_attributes
               (file_all file_member (length h1) priv.1 (private_attributes n)) n1).
  set (h2 := <[self := n2]> h1 ++ priv.1.*2).
  destruct pub.2 as [e|]; [reflexivity|].
  destruct priv.2 as [e|]; [reflexivity|].
  assert (length h1 = length h + length pub.1) as Lh1
    by (unfold h1; by rewrite length_app, length_insert, length_fmap).
  apply filter_run; [apply lookup_insert_app_self; lia| |done].
  by apply members_ok_filed.
Qed.

Lemma collect_raise {A B} (g : A → result B) (l : list A) x :
  x ∈ l → is_Ok (g x) = false → ∃ e, (collect g l).2 = Some e.
Proof.
  induction l as [|y l IH]; intros I R; [by apply elem_of_nil in I|].
  cbn. destruct (g y) as [b|e] eqn:E; [|eauto].
  apply elem_of_cons in I as [->|I]; [by rewrite E in R|].
  destruct (IH I R) as [e He]. destruct (collect g l); cbn in *. eauto.
Qed.

(** C2, as the code has it.  On a node that was never cached, a member
    name that enumeration reports and lookup refuses makes [cache]
    raise: the member is not skipped, the pass does not complete. *)
Theorem cache_raises_on_member_lookup self h n attr e :
  h !! self = Some n →
  public_attributes n = [] → private_attributes n = [] →
  attr ∈ plain_public_attributes n ++ plain_private_attributes n →
  getattr (obj n) attr = Raise e →
  ∃ e' h', cache self h = (Raise e', h').
Proof.
  intros Hn Ep Eq I R. rewrite (cache_members_run self h n Hn). cbv zeta.
  unfold member_rounds. rewrite Ep, Eq.
  assert (is_Ok (member_entry n attr) = false) as Rm
    by (unfold member_entry; by rewrite R).
  destruct (collect (member_entry n) (plain_public_attributes n)).2 as [e1|] eqn:E1;
    [eauto|].
  apply elem_of_app in I as [I|I].
  - destruct (collect_raise _ _ _ I Rm) as [e1 He1]. congruence.
  - destruct (collect_raise _ _ _ I Rm) as [e2 ->]. eauto.
Qed.
End CacheSpec.

(** C2 on the world: the class lists [__abstractmethods__] and refuses
    to hand it out, and [cache] on its node raises [AttributeError]. *)
Lemma cache_raises_on_member_lookup_witness :
  ∃ e' h', cached_object.cache 0 stores.klass_seed = (Raise e', h').
Proof.
  destruct (stores.klass_seed !! 0) as [n|] eqn:Hn; [|discriminate Hn].
  apply (cache_raises_on_member_lookup 0 stores.klass_seed n
           "__abstractmethods__" AttributeError Hn);
    vm_compute in Hn; injection Hn as <-; try reflexivity.
  apply list_elem_of_In. vm_compute. auto.
Defined.

Lemma cache_klass_raises :
  (cached_object.cache 0 stores.klass_seed).1 = Raise AttributeError
  ∧ objexplore.__init__ world.klass "type" = Raise AttributeError.
Proof. split; vm_compute; reflexivity. Qed.


(** * Calling [cache] twice *)
Section CacheTwice.
Context {handle FunctionType : Type} `{!Reflection handle FunctionType}.
Import cached_object.
Implicit Types (h : list (CachedObject handle FunctionType)) (self c : ref)
  (n : CachedObject handle FunctionType).

Lemma view_kept_from {B X} (entry : ref → B → X) (node_of : X → ref)
    (child : B → CachedObject handle FunctionType) fs h (bs : list B) :
  ∀ base,
    (∀ i b, bs !! i = Some b → h !! node_of (entry (base + i) b) = Some (child b)) →
    view node_of fs h (imap (λ i b, entry (base + i) b) bs)
    = kept_from (keeps child fs) entry base bs.
Proof.
  induction bs as [|b bs IH]; intros base Hl.
  { cbn. apply view_nil. }
  assert (imap (λ i b, entry (base + i) b) (b :: bs)
          = entry base b :: imap (λ i b, entry (S base + i) b) bs) as ->.
  { rewrite imap_cons, Nat.add_0_r. f_equal. apply imap_ext. intros i x _. cbn.
    f_equal. lia. }
  specialize (IH (S base)).
  assert (∀ i b0, bs !! i = Some b0
                  → h !! node_of (entry (S base + i) b0) = Some (child b0)) as Hl'.
  { intros i b0 Hi. replace (S base + i) with (base + S i) by lia. by apply Hl. }
  specialize (IH Hl'). specialize (Hl 0 b eq_refl). rewrite Nat.add_0_r in Hl.
  cbn [kept_from]. rewrite <- IH. unfold view, keeps. destruct fs as [|f fs]; [done|].
  cbn [List.filter]. unfold accepted at 1. rewrite Hl.
  by destruct (existsb _ (f :: fs)).
Qed.

Lemma kept_from_Forall2 {B X} (R : X → X → Prop) (keep : B → bool)
    (entry1 entry2 : ref → B → X) (bs : list B) :
  ∀ base1 base2,
    (∀ i b, bs !! i = Some b → R (entry1 (base1 + i) b) (entry2 (base2 + i) b)) →
    Forall2 R (kept_from keep entry1 base1 bs) (kept_from keep entry2 base2 bs).
Proof.
  induction bs as [|b bs IH]; intros base1 base2 HR; cbn [kept_from]; [constructor|].
  apply Forall2_app.
  - specialize (HR 0 b eq_refl). rewrite !Nat.add_0_r in HR.
    destruct (keep b); by repeat constructor.
  - apply IH. intros i b0 Hi.
    replace (S base1 + i) with (base1 + S i) by lia.
    replace (S base2 + i) with (base2 + S i) by lia. by apply HR.
Qed.

Lemma kept_members_ext fs h h' (members : list (string * ref)) :
  Forall (λ e : string * ref, h' !! e.2 = h !! e.2) members →
  kept_members fs h' members = kept_members fs h members.
Proof.
  intros HF. unfold kept_members. destruct fs as [|f fs]; [done|].
  generalize (@nil (string * ref)).
  induction HF as [|e l He _ IH]; intros d; cbn [fold_left]; [done|].
  rewrite IH. unfold accepted at 2 4. by rewrite He.
Qed.

(** A member pass that returned leaves nothing to do to a second one:
    either the field was filled before, or every name got its child. *)
Lemma member_rounds_done n n' (present : list (string * ref)) names base :
  (member_rounds n present names).2 = None →
  member_rounds n' (file_all file_member base (member_rounds n present names).1 present)
    names = ([], None).
Proof.
  unfold member_rounds. destruct present as [|p l]; [|done].
  destruct names as [|x names]; [done|]. cbn [collect].
  destruct (member_entry n x) as [b|]; [|done].
  destruct (collect (member_entry n) names) as [bs e]. cbn [fst snd]. intros ->.
  pose proof (file_all_nonempty b bs base []) as Hne.
  by destruct (file_all file_member base (b :: bs) []).
Qed.

(** The rounds of the container passes look at the handle and at the
    breadcrumb of the node only. *)
Lemma rounds_ext n m :
  obj m = obj n → dotpath m = dotpath n →
  dict_rounds m = dict_rounds n ∧ list_rounds m = list_rounds n.
Proof.
  intros Ho Hd. unfold dict_rounds, list_rounds, dict_entry, list_entry.
  by rewrite Ho, Hd.
Qed.

(** C1, as the code has it.  A second [cache] on a node returns when the
    first did, and leaves its members as they were: the same names, the
    same child nodes, none made again, and no other node of the store
    touched.  The entries of a container are made again by every call:
    the second call's entries have the keys and the display lines of the
    first's and nodes with the same content, but at new addresses. *)
Theorem cache_twice self h n h1 :
  h !! self = Some n →
  members_ok h self n →
  NoDup (items (obj n)).*1 →
  cache self h = (Ok tt, h1) →
  ∃ h2 n1 n2,
    cache self h1 = (Ok tt, h2)
    ∧ h1 !! self = Some n1 ∧ h2 !! self = Some n2
    ∧ public_attributes n2 = public_attributes n1
    ∧ private_attributes n2 = private_attributes n1
    ∧ filtered_public_attributes n2 = filtered_public_attributes n1
    ∧ filtered_private_attributes n2 = filtered_private_attributes n1
    ∧ (∀ c, c ≠ self → c < length h1 → h2 !! c = h1 !! c)
    ∧ Forall2 (λ e1 e2 : pyindex * (Text * ref),
                 e2.1 = e1.1 ∧ e2.2.1 = e1.2.1
                 ∧ is_Some (h1 !! e1.2.2) ∧ h2 !! e2.2.2 = h1 !! e1.2.2
                 ∧ (length h1 ≤ e2.2.2)%nat)
              (filtered_dict n1) (filtered_dict n2)
    ∧ Forall2 (λ e1 e2 : Text * ref,
                 e2.1 = e1.1
                 ∧ is_Some (h1 !! e1.2) ∧ h2 !! e2.2 = h1 !! e1.2
                 ∧ (length h1 ≤ e2.2)%nat)
              (filtered_list n1) (filtered_list n2).
Proof.
  intros Hn Hm N E. pose proof (lookup_lt_Some _ _ _ Hn) as L.
  (* the first call *)
  rewrite (cache_run self h n Hn Hm N) in E. unfold cache_spec in E. cbv zeta in E.
  set (pub := member_rounds n (public_attributes n) (plain_public_attributes n)) in *.
  set (m1 := with_public_attributes
               (file_all file_member (length h) pub.1 (public_attributes n)) n) in *.
  set (g1 := <[self := m1]> h ++ pub.1.*2) in *.
  set (priv := member_rounds n (private_attributes n) (plain_private_attributes n)) in *.
  set (m2 := with_private_attributes
               (file_all file_member (length g1) priv.1 (private_attributes n)) m1) in *.
  set (g2 := <[self := m2]> g1 ++ priv.1.*2) in *.
  destruct pub.2 as [?|] eqn:Epub; [done|].
  destruct priv.2 as [?|] eqn:Epriv; [done|].
  assert (length g1 = length h + length pub.1) as Lg1
    by (unfold g1; by rewrite length_app, length_insert, length_fmap).
  assert (self < length g2) as Lg2
    by (unfold g2; rewrite length_app, length_insert; lia).
  assert (members_ok g2 self m2) as Hm2 by (by apply members_ok_filed).
  assert ((dict_rounds m2).2 = None ∧ (list_rounds m2).2 = None) as [Ed El].
  { unfold filter_spec in E. destruct (dict_rounds m2).2; [done|].
    by destruct (list_rounds m2).2. }
  destruct (filter_spec_Ok g2 self m2 Lg2 Ed El) as (n1 & E1 & Hn1 & Fd1 & Fl1).
  rewrite E in E1. injection E1 as ->.
  set (bd := (dict_rounds m2).1) in *. set (bl := (list_rounds m2).1) in *.
  set (h1 := <[self := n1]> g2 ++ (bd.*2 ++ bl.*2)) in *.
  assert (h1 !! self = Some n1) as H1 by (by apply lookup_insert_app_self).
  assert (length h1 = length g2 + (length bd + length bl)) as Lh1
    by (unfold h1; by rewrite !length_app, length_insert, !length_fmap).
  (* the fields of the node the first call left *)
  assert (obj n1 = obj n ∧ dotpath n1 = dotpath n ∧ filters n1 = filters n
          ∧ public_attributes n1 = public_attributes m2
          ∧ private_attributes n1 = private_attributes m2
          ∧ plain_public_attributes n1 = plain_public_attributes n
          ∧ plain_private_attributes n1 = plain_private_attributes n
          ∧ filtered_public_attributes n1
            = kept_members (filters n) g2 (public_attributes m2)
          ∧ filtered_private_attributes n1
            = kept_members (filters n) g2 (private_attributes m2))
    as (Ho & Hd & Hf & Hpub & Hpriv & Hppub & Hppriv & Hfpub & Hfpriv)
    by (rewrite Hn1; by repeat split).
  assert (members_ok h1 self n1) as Hm1.
  { unfold members_ok in *. rewrite Hpub, Hpriv.
    eapply Forall_impl; [exact Hm2|]. intros c [? ?]. split; [done|lia]. }
  (* the second call: its member passes have nothing to do *)
  assert (NoDup (items (obj n1)).*1) as N1 by (by rewrite Ho).
  exists (cache_spec h1 self n1).2, n1.
  rewrite (cache_run self h1 n1 H1 Hm1 N1). unfold cache_spec. cbv zeta.
  assert (member_rounds n1 (public_attributes n1) (plain_public_attributes n1)
          = ([], None)) as ->.
  { rewrite Hpub, Hppub. apply (member_rounds_done n n1). exact Epub. }
  cbn [fst snd file_all fmap list_fmap].
  assert (with_public_attributes (public_attributes n1) n1 = n1) as ->
    by (by destruct n1).
  rewrite app_nil_r, (list_insert_id h1 self n1 H1).
  assert (member_rounds n1 (private_attributes n1) (plain_private_attributes n1)
          = ([], None)) as ->.
  { rewrite Hpriv, Hppriv. apply (member_rounds_done n n1). exact Epriv. }
  cbn [fst snd file_all fmap list_fmap].
  assert (with_private_attributes (private_attributes n1) n1 = n1) as ->
    by (by destruct n1).
  rewrite app_nil_r, (list_insert_id h1 self n1 H1).
  (* and its [filter] makes the entries again *)
  destruct (rounds_ext m2 n1) as [Rd Rl]; [by rewrite Ho|by rewrite Hd|].
  assert (self < length h1) as L1 by lia.
  destruct (filter_spec_Ok h1 self n1 L1) as (n2 & E2 & Hn2 & Fd2 & Fl2);
    [by rewrite Rd|by rewrite Rl|].
  rewrite Rd, Rl in E2, Fd2, Fl2. fold bd bl in E2, Fd2, Fl2.
  rewrite E2. cbn [snd].
  set (h2 := <[self := n2]> h1 ++ (bd.*2 ++ bl.*2)) in *.
  exists n2. split; [done|]. split; [done|].
  split; [by apply lookup_insert_app_self|].
  assert (∀ c, c ≠ self → c < length h1 → h2 !! c = h1 !! c) as Old
    by (intros; by apply lookup_insert_app_old).
  split; [by rewrite Hn2|]. split; [by rewrite Hn2|].
  split; [|split; [|split; [exact Old|]]].
  - (* the public view *)
    rewrite Hfpub, Hn2. cbn [filtered_public_attributes with_filtered_list
      with_filtered_dict after_members with_filtered_private_attributes
      with_filtered_public_attributes].
    rewrite Hf, Hpub. apply kept_members_ext.
    apply members_ok_public in Hm2.
    eapply Forall_impl; [exact Hm2|]. intros e [? ?].
    unfold h1. by rewrite lookup_insert_app_old.
  - (* the private view *)
    rewrite Hfpriv, Hn2. cbn [filtered_private_attributes with_filtered_list
      with_filtered_dict after_members with_filtered_private_attributes
      with_filtered_public_attributes].
    rewrite Hf, Hpriv. apply kept_members_ext.
    apply members_ok_private in Hm2.
    eapply Forall_impl; [exact Hm2|]. intros e [? ?].
    unfold h1. by rewrite lookup_insert_app_old.
  - (* the entries *)
    assert (∀ i b, bd !! i = Some b → h1 !! (length g2 + i) = Some b.2) as Hd1.
    { intros i b Hb. unfold h1. rewrite lookup_insert_app_new by done.
      rewrite lookup_app_l by (rewrite length_fmap; by eapply lookup_lt_Some).
      by rewrite list_lookup_fmap, Hb. }
    assert (∀ i b, bd !! i = Some b → h2 !! (length h1 + i) = Some b.2) as Hd2.
    { intros i b Hb. unfold h2. rewrite lookup_insert_app_new by done.
      rewrite lookup_app_l by (rewrite length_fmap; by eapply lookup_lt_Some).
      by rewrite list_lookup_fmap, Hb. }
    assert (∀ i b, bl !! i = Some b
                   → h1 !! (length g2 + length bd + i) = Some b.2) as Hl1.
    { intros i b Hb. unfold h1. rewrite <- Nat.add_assoc.
      rewrite lookup_insert_app_new by done.
      rewrite lookup_app_r by (rewrite length_fmap; lia).
      rewrite length_fmap, list_lookup_fmap.
      replace (length bd + i - length bd) with i by lia. by rewrite Hb. }
    assert (∀ i b, bl !! i = Some b
                   → h2 !! (length h1 + length bd + i) = Some b.2) as Hl2.
    { intros i b Hb. unfold h2. rewrite <- Nat.add_assoc.
      rewrite lookup_insert_app_new by done.
      rewrite lookup_app_r by (rewrite length_fmap; lia).
      rewrite length_fmap, list_lookup_fmap.
      replace (length bd + i - length bd) with i by lia. by rewrite Hb. }
    split.
    + rewrite Fd1, Fd2, Hf. unfold dict_entries.
      rewrite (view_kept_from (λ r b, (b.1.1, (b.1.2, r))) _ snd) by exact Hd1.
      rewrite (view_kept_from (λ r b, (b.1.1, (b.1.2, r))) _ snd) by exact Hd2.
      apply kept_from_Forall2. intros i b Hb. cbn [fst snd].
      rewrite (Hd1 i b Hb), (Hd2 i b Hb). repeat split; eauto. lia.
    + rewrite Fl1, Fl2, Hf. unfold list_entries.
      rewrite (view_kept_from (λ r b, (b.1, r)) _ snd) by exact Hl1.
      rewrite (view_kept_from (λ r b, (b.1, r)) _ snd) by exact Hl2.
      apply kept_from_Forall2. intros i b Hb. cbn [fst snd].
      rewrite (Hl1 i b Hb), (Hl2 i b Hb). repeat split; eauto. lia.
Qed.
End CacheTwice.

(** C1 fails as stated: the node of the list [[7, None]] gets two
    entries from the first [cache] and two other ones from the second;
    the names of the entries are the same and their child nodes are
    not. *)
Lemma cache_twice_rebuilds_entries :
  ∃ h1 h2 n1 n2,
    cached_object.cache 0 stores.seq_seed = (Ok tt, h1)
    ∧ cached_object.cache 0 h1 = (Ok tt, h2)
    ∧ h1 !! 0 = Some n1 ∧ h2 !! 0 = Some n2
    ∧ (filtered_list n1).*2 = [2; 3]
    ∧ (filtered_list n2).*2 = [4; 5]
    ∧ filtered_list n1 ≠ filtered_list n2.
Proof.
  eexists _, _, _, _.
  split; [vm_compute; reflexivity|].
  split; [vm_compute; reflexivity|].
  split; [vm_compute; reflexivity|].
  split; [vm_compute; reflexivity|].
  split; [vm_compute; reflexivity|].
  split; [vm_compute; reflexivity|].
  vm_compute. discriminate.
Qed.

(** The amended C1 on the same node: the member [append] stays the node
    it was, and both entries come back at new addresses with the content
    they had. *)
Lemma cache_twice_witness :
  ∃ h2 n1 n2,
    cached_object.cache 0 stores.seq_cached = (Ok tt, h2)
    ∧ stores.seq_cached !! 0 = Some n1 ∧ h2 !! 0 = Some n2
    ∧ public_attributes n2 = public_attributes n1
    ∧ Forall2 (λ e1 e2 : Text * ref,
                 e2.1 = e1.1
                 ∧ h2 !! e2.2 = stores.seq_cached !! e1.2
                 ∧ (length stores.seq_cached ≤ e2.2)%nat)
              (filtered_list n1) (filtered_list n2).
Proof.
  destruct (stores.seq_seed !! 0) as [n|] eqn:Hn; [|discriminate Hn].
  destruct (cache_twice 0 stores.seq_seed n stores.seq_cached Hn)
    as (h2 & n1 & n2 & E & H1 & H2 & Hp & _ & _ & _ & _ & _ & Hl).
  - vm_compute in Hn. injection Hn as <-. constructor.
  - vm_compute in Hn. injection Hn as <-. constructor.
  - vm_compute. reflexivity.
  - exists h2, n1, n2. repeat split; try assumption.
    eapply Forall2_impl; [exact Hl|]. intros e1 e2 (? & ? & ? & ?). auto.
Defined.


(** * The navigation keys *)
Section Navigation.
Context {handle FunctionType : Type} `{!Reflection handle FunctionType}.
Import objexplore.
Abbreviation Explorer := (Explorer handle FunctionType).
Implicit Types (self : Explorer) (frame : stack_layout.StackFrame).

(** One step of a run: the binds, reads and writes at its head *)
Ltac mstep :=
  repeat (progress (rewrite ?bind_run, ?ret_run; cbv beta iota;
                    try (unfold get at 1; cbv beta iota);
                    try (unfold put at 1; cbv beta iota))).

Lemma get_run {S} (s : S) : get s = (Ok s, s).
Proof. reflexivity. Qed.

Lemma put_run {S} (s s' : S) : put s' s = (Ok tt, s').
Proof. reflexivity. Qed.

Lemma on_nodes_run {A} (m : M (list (CachedObject handle FunctionType)) A) self :
  on_nodes m self = ((m (nodes self)).1, with_nodes (m (nodes self)).2 self).
Proof. unfold on_nodes. by destruct (m (nodes self)). Qed.

Lemma on_explorer_layouts_run {A} (m : M (list explorer_layout.ExplorerLayout) A) self :
  on_explorer_layouts m self
  = ((m (explorer_layouts self)).1,
     with_explorer_layouts (m (explorer_layouts self)).2 self).
Proof. unfold on_explorer_layouts. by destruct (m (explorer_layouts self)). Qed.

Lemma deref_layout_run self r :
  on_explorer_layouts (deref r) self
  = (match explorer_layouts self !! r with
     | Some layout => Ok layout
     | None => Raise ReferenceError
     end, self).
Proof.
  unfold on_explorer_layouts, deref.
  destruct (explorer_layouts self !! r); by destruct self.
Qed.

Lemma deref_node_run self r :
  on_nodes (deref r) self
  = (match nodes self !! r with
     | Some n => Ok n
     | None => Raise ReferenceError
     end, self).
Proof.
  unfold on_nodes, deref. destruct (nodes self !! r); by destruct self.
Qed.

(** Reading the selected object leaves the explorer as it is. *)
Lemma selected_object_state self : (selected_object self).2 = self.
Proof.
  unfold selected_object. rewrite bind_run, get_run. cbv beta iota.
  rewrite bind_run, deref_layout_run.
  destruct (explorer_layouts self !! explorer_layout self) as [layout|]; [|done].
  rewrite on_nodes_run. cbn [snd].
  assert (∀ h, (explorer_layout.selected_object layout h).2 = h) as ->.
  { intros h. unfold explorer_layout.selected_object. rewrite bind_run.
    unfold deref. destruct (h !! _); [|done].
    by destruct (_ !! explorer_layout.index layout). }
  by destruct self.
Qed.

Lemma selected_object_run self c :
  (selected_object self).1 = Ok c → selected_object self = (Ok c, self).
Proof.
  intros E. pose proof (selected_object_state self) as S.
  destruct (selected_object self) as [r s]. cbn in *. by subst.
Qed.

(** C9.  With the history view closed, the key that drills in, pressed
    on a selected node that is not selectable, returns without an error
    and leaves the explorer as it was: stack, current node, layouts and
    stores. *)
Theorem push_not_selectable {sel : stack_layout.Select} self c child :
  stack_layout.visible (stack self) = false →
  (selected_object self).1 = Ok c →
  nodes self !! c = Some child →
  is_selectable (obj child) = false →
  process_key_event key_right self = (Ok tt, self).
Proof.
  intros V Sel Hc Hs. unfold process_key_event.
  rewrite bind_run, get_run. cbv beta iota.
  destruct (help_layout_visible self); [reflexivity|].
  unfold select_branch. rewrite bind_run, get_run. cbv beta iota.
  rewrite V, !bind_run, (selected_object_run _ _ Sel). cbv beta iota.
  rewrite bind_run, deref_node_run, Hc. cbv beta iota. by rewrite Hs.
Qed.

(** Going back from a stack of one frame *)
Lemma escape_single_frame {sel : stack_layout.Select} self frame key :
  key = key_left ∨ key = key_escape →
  help_layout_visible self = false →
  stack_layout.stack (stack self) = [frame] →
  tail_is_current self →
  process_key_event key self = (Ok tt, self).
Proof.
  intros K Hh Hst (f & Hl & Hc & He & Ho).
  rewrite Hst in Hl. cbn in Hl. injection Hl as <-.
  assert (process_key_event key self = escape_branch self) as ->.
  { unfold process_key_event. rewrite bind_run, get_run. cbv beta iota.
    rewrite Hh. by destruct K as [-> | ->]. }
  assert (stack_layout.__getitem__ (stack self) (-1) = Ok frame) as G
    by (unfold stack_layout.__getitem__; by rewrite Hst).
  assert (stack_layout.pop (stack self) = stack self) as P
    by (unfold stack_layout.pop; by rewrite Hst).
  unfold escape_branch. mstep.
  unfold stack_layout.__bool__. rewrite Hst, P. mstep.
  assert (with_stack (stack self) self = self) as -> by (by destruct self).
  unfold lift. rewrite G. mstep.
  assert (with_cached_obj (stack_layout.cached_obj frame) self = self) as ->
    by (rewrite Hc; by destruct self).
  rewrite G. mstep.
  assert (with_explorer_layout (stack_layout.explorer_layout frame) self = self) as ->
    by (rewrite He; by destruct self).
  rewrite G. mstep.
  rewrite Ho; by destruct self.
Qed.

(** C6.  On a stack that holds the root frame alone, the keys that go
    back return without an error and leave the explorer as it was: the
    same frame, the same current node and layouts, the same stores. *)
Theorem pop_on_root {sel : stack_layout.Select} self frame key :
  key = key_left ∨ key = key_escape →
  help_layout_visible self = false →
  stack_layout.stack (stack self) = [frame] →
  tail_is_current self →
  process_key_event key self = (Ok tt, self)
  ∧ stack_layout.pop (stack self) = stack self.
Proof.
  intros K Hh Hst T. split; [by eapply escape_single_frame|].
  unfold stack_layout.pop. by rewrite Hst.
Qed.


(** ** Drilling in and going back, as functions of the state *)

Lemma getitem_tail (s : stack_layout.StackLayout) frames frame :
  stack_layout.stack s = frames ++ [frame] →
  stack_layout.__getitem__ s (-1) = Ok frame.
Proof.
  intros E. unfold stack_layout.__getitem__. rewrite E, length_app. cbn [length].
  assert ((-1 <? 0)%Z = true) as -> by done.
  assert ((-1 + Z.of_nat (length frames + 1) <? 0)%Z = false) as ->
    by (apply Z.ltb_ge; lia).
  assert (Z.to_nat (-1 + Z.of_nat (length frames + 1)) = length frames) as -> by lia.
  by rewrite lookup_app_r, Nat.sub_diag by lia.
Qed.

Lemma pop_frames (s : stack_layout.StackLayout) frames f1 f2 :
  stack_layout.stack s = frames ++ [f1; f2] →
  stack_layout.pop s = stack_layout.with_stack (frames ++ [f1]) s.
Proof.
  intros E. unfold stack_layout.pop. rewrite E.
  rewrite removelast_app by done. cbn [removelast].
  by destruct frames as [|a [|b frames]].
Qed.

(** Drilling into a selectable node *)
Lemma push_run {sel : stack_layout.Select} self c child nodes' :
  help_layout_visible self = false →
  stack_layout.visible (stack self) = false →
  (selected_object self).1 = Ok c →
  nodes self !! c = Some child →
  is_selectable (obj child) = true →
  cached_object.cache c (nodes self) = (Ok tt, nodes') →
  process_key_event key_right self
  = (Ok tt,
     {| nodes := nodes';
        explorer_layouts := explorer_layouts self ++ [explorer_layout.__init__ c];
        overview_layouts := overview_layouts self;
        cached_obj := c;
        stack := stack_layout.append
                   {| stack_layout.cached_obj := c;
                      stack_layout.explorer_layout := length (explorer_layouts self);
                      stack_layout.overview_layout := overview_layout self |}
                   (stack self);
        help_layout_visible := false;
        explorer_layout := length (explorer_layouts self);
        overview_layout := overview_layout self;
        filter_layout_visible := filter_layout_visible self |}).
Proof.
  intros Hh V Sel Hc Hs C.
  assert (process_key_event key_right self = select_branch self) as ->.
  { unfold process_key_event. mstep. by rewrite Hh. }
  unfold select_branch. mstep. rewrite V. mstep.
  rewrite (selected_object_run _ _ Sel). mstep.
  rewrite deref_node_run, Hc. mstep. rewrite Hs. cbn [negb]. mstep.
  destruct self as [ns els ols co st hv el ol fv]. cbn in *.
  unfold on_explorer_layouts. cbn. mstep. unfold on_nodes at 1. cbn.
  rewrite C. mstep. cbn. by subst.
Qed.

(** Going back from a stack of two frames or more *)
Lemma pop_run {sel : stack_layout.Select} self frames f1 f2 key :
  key = key_left ∨ key = key_escape →
  help_layout_visible self = false →
  stack_layout.stack (stack self) = frames ++ [f1; f2] →
  process_key_event key self
  = (Ok tt,
     {| nodes := nodes self;
        explorer_layouts := explorer_layouts self;
        overview_layouts := overview_layouts self;
        cached_obj := stack_layout.cached_obj f1;
        stack := stack_layout.with_stack (frames ++ [f1]) (stack self);
        help_layout_visible := false;
        explorer_layout := stack_layout.explorer_layout f1;
        overview_layout := stack_layout.overview_layout f1;
        filter_layout_visible := filter_layout_visible self |}).
Proof.
  intros K Hh Hst.
  assert (process_key_event key self = escape_branch self) as ->.
  { unfold process_key_event. mstep. rewrite Hh. by destruct K as [-> | ->]. }
  unfold escape_branch. mstep.
  unfold stack_layout.__bool__. rewrite Hst, (pop_frames _ _ _ _ Hst).
  replace (match frames ++ [f1; f2] with [] => false | _ => true end) with true
    by (by destruct frames).
  mstep.
  destruct self as [ns els ols co st hv el ol fv]. cbn in *.
  pose proof (getitem_tail (stack_layout.with_stack (frames ++ [f1]) st) frames f1
                eq_refl) as G.
  unfold lift.
  repeat (progress (mstep; cbn -[stack_layout.__getitem__]; rewrite ?G)).
  by subst.
Qed.

(** A drill-in that is undone at once leaves the UI state of the frame
    it started from as it was: collection, cursor and preview mode. *)
Lemma push_pop_restores {sel : stack_layout.Select} self c child nodes' s1 s2 :
  help_layout_visible self = false →
  stack_layout.visible (stack self) = false →
  tail_is_current self →
  explorer_layout self < length (explorer_layouts self) →
  (selected_object self).1 = Ok c →
  nodes self !! c = Some child →
  is_selectable (obj child) = true →
  cached_object.cache c (nodes self) = (Ok tt, nodes') →
  process_key_event key_right self = (Ok tt, s1) →
  process_key_event key_left s1 = (Ok tt, s2) →
  ui_state s2 = ui_state self
  ∧ cached_obj s2 = cached_obj self
  ∧ stack_layout.stack (stack s2) = stack_layout.stack (stack self).
Proof.
  intros Hh V (f & Hl & Hc & He & Ho) L Sel Hn Hs C E1 E2.
  rewrite (push_run self c child nodes' Hh V Sel Hn Hs C) in E1.
  injection E1 as <-.
  apply last_Some in Hl as [frames Hst].
  erewrite (pop_run _ frames f) in E2; [|by left|done|].
  2:{ cbn. rewrite Hst, <- app_assoc. reflexivity. }
  injection E2 as <-. unfold ui_state. cbn.
  rewrite He, Ho, Hc, Hst. by rewrite lookup_app_l.
Qed.

(** ** What the explorer shows is the tail of its stack *)

Lemma init_tail_is_current o name self :
  __init__ o name = Ok self →
  tail_is_current self
  ∧ stack_layout.stack (stack self) = [current_frame self]
  ∧ help_layout_visible self = false
  ∧ stack_layout.visible (stack self) = false.
Proof.
  unfold __init__. intros E.
  destruct (cached_object.__init__ o None (Some name) None) as [c|]; [|done].
  cbn in E. destruct (cached_object.cache 0 [c]) as [[[]|] h]; [|done].
  injection E as <-. cbn. repeat split. by eexists.
Qed.

Lemma tail_is_current_fields self self' :
  stack self' = stack self → cached_obj self' = cached_obj self →
  explorer_layout self' = explorer_layout self →
  overview_layout self' = overview_layout self →
  tail_is_current self → tail_is_current self'.
Proof.
  intros Es Ec Ee Eo (f & ? & ? & ? & ?). exists f.
  by rewrite Es, Ec, Ee, Eo.
Qed.

Lemma tail_is_current_append self frame :
  frame = current_frame self →
  tail_is_current (with_stack (stack_layout.append frame (stack self)) self).
Proof.
  intros ->. exists (current_frame self). destruct self. cbn. by rewrite last_snoc.
Qed.

(** Every key that returns keeps it so, whatever [select] does to the
    stack. *)
Lemma key_keeps_tail_is_current {sel : stack_layout.Select} key self self' :
  tail_is_current self →
  process_key_event key self = (Ok tt, self') →
  tail_is_current self'.
Proof.
  intros T. unfold process_key_event. mstep.
  destruct (help_layout_visible self) eqn:Hh.
  { destruct key; mstep; intros E; injection E as <-; try done;
      revert T; by apply tail_is_current_fields. }
  destruct key.
  - (* drilling in, jumping *)
    unfold select_branch. mstep.
    destruct (stack_layout.visible (stack self)).
    + mstep. unfold lift at 1.
      destruct (stack_layout.__getitem__ _ _) as [frame|]; mstep; [|done].
      destruct (bool_decide _); mstep; [by intros [= <-]|].
      unfold lift at 1. destruct (stack_layout.select _) as [[c stack']|]; mstep; [|done].
      unfold on_explorer_layouts at 1. cbn [new]. mstep.
      unfold on_nodes at 1.
      destruct (cached_object.cache c _) as [[[]|] ns]; mstep; [|done].
      intros [= <-].
      match goal with
      | |- tail_is_current (with_stack _ ?s) => by apply (tail_is_current_append s)
      end.
    + mstep. pose proof (selected_object_state self) as S.
      destruct (selected_object self) as [[c|] s]; cbn in S; subst s; mstep; [|done].
      rewrite deref_node_run. destruct (nodes self !! c) as [child|]; mstep; [|done].
      destruct (negb _); mstep; [by intros [= <-]|].
      unfold on_explorer_layouts at 1. cbn [new]. mstep.
      unfold on_nodes at 1.
      destruct (cached_object.cache c _) as [[[]|] ns]; mstep; [|done].
      intros [= <-].
      match goal with
      | |- tail_is_current (with_stack _ ?s) => by apply (tail_is_current_append s)
      end.
  - (* going back *)
    intros E. destruct T as (f & Hl & Hc & He & Ho).
    pose proof Hl as Hl'. apply last_Some in Hl' as [frames Hst].
    assert (process_key_event key_left self = escape_branch self) as Ek
      by (unfold process_key_event; mstep; by rewrite Hh).
    rewrite <- Ek in E.
    destruct frames as [|f0 frames _] using rev_ind.
    + rewrite (escape_single_frame self f key_left) in E;
        [|by left|done|done|by exists f].
      injection E as <-. by exists f.
    + rewrite <- app_assoc in Hst. cbn in Hst.
      rewrite (pop_run self frames f0 f key_left) in E; [|by left|done|done].
      injection E as <-. exists f0. cbn. by rewrite last_snoc.
  - (* going back, by escape *)
    intros E. destruct T as (f & Hl & Hc & He & Ho).
    pose proof Hl as Hl'. apply last_Some in Hl' as [frames Hst].
    assert (process_key_event key_escape self = escape_branch self) as Ek
      by (unfold process_key_event; mstep; by rewrite Hh).
    rewrite <- Ek in E.
    destruct frames as [|f0 frames _] using rev_ind.
    + rewrite (escape_single_frame self f key_escape) in E;
        [|by right|done|done|by exists f].
      injection E as <-. by exists f.
    + rewrite <- app_assoc in Hst. cbn in Hst.
      rewrite (pop_run self frames f0 f key_escape) in E; [|by right|done|done].
      injection E as <-. exists f0. cbn. by rewrite last_snoc.
  - (* switching between the public and the private members *)
    unfold switch_attributes. mstep. unfold on_explorer_layouts.
    destruct (modify _ _ _) as [[[]|] ls]; [|done].
    intros [= <-]. revert T. by apply tail_is_current_fields.
  - (* switching the preview *)
    unfold switch_pane. mstep. pose proof (selected_object_state self) as S.
    destruct (selected_object self) as [[c|] s]; cbn in S; subst s; mstep; [|done].
    rewrite deref_node_run. destruct (nodes self !! c) as [child|]; mstep; [|done].
    destruct (negb _); mstep; [by intros [= <-]|].
    unfold on_overview_layouts.
    destruct (modify _ _ _) as [[[]|] ls]; [|done].
    intros [= <-]. revert T. by apply tail_is_current_fields.
Qed.

(** ** One overview layout for all frames

    [Explorer.__init__] makes the only [OverviewLayout] of a session,
    and every frame that is appended refers to it. *)

Lemma init_frames_share_overview o name self :
  __init__ o name = Ok self → frames_share_overview self.
Proof.
  intros E. apply init_tail_is_current in E as (_ & Hst & _).
  unfold frames_share_overview. rewrite Hst. by repeat constructor.
Qed.

Lemma frames_share_overview_fields self self' :
  stack self' = stack self → overview_layout self' = overview_layout self →
  frames_share_overview self → frames_share_overview self'.
Proof. unfold frames_share_overview. by intros -> ->. Qed.

Lemma frames_share_overview_append self frame :
  frame = current_frame self →
  frames_share_overview self →
  frames_share_overview
    (with_stack (stack_layout.append frame (stack self)) self).
Proof.
  intros -> F. unfold frames_share_overview in *. destruct self. cbn in *.
  apply Forall_app. split; [done|]. by repeat constructor.
Qed.

Lemma key_keeps_frames_share_overview key self self' :
  tail_is_current self →
  frames_share_overview self →
  process_key_event (sel := stack_layout.select_lookup) key self = (Ok tt, self') →
  frames_share_overview self'.
Proof.
  intros T F. unfold process_key_event. mstep.
  destruct (help_layout_visible self) eqn:Hh.
  { destruct key; mstep; intros E; injection E as <-; try done;
      revert F; by apply frames_share_overview_fields. }
  destruct key.
  - (* drilling in, jumping *)
    unfold select_branch. mstep.
    destruct (stack_layout.visible (stack self)).
    + mstep. unfold lift at 1.
      destruct (stack_layout.__getitem__ _ _) as [frame|] eqn:G; mstep; [|done].
      destruct (bool_decide _); mstep; [by intros [= <-]|].
      unfold lift at 1, stack_layout.select, stack_layout.select_lookup.
      rewrite G. cbn [mbind result_bind]. mstep.
      unfold on_explorer_layouts at 1. cbn [new]. mstep.
      unfold on_nodes at 1.
      destruct (cached_object.cache _ _) as [[[]|] ns]; mstep; [|done].
      intros [= <-].
      match goal with
      | |- frames_share_overview (with_stack _ ?s) =>
          apply (frames_share_overview_append s); [done|]
      end.
      revert F. apply frames_share_overview_fields; by destruct self.
    + mstep. pose proof (selected_object_state self) as S.
      destruct (selected_object self) as [[c|] s]; cbn in S; subst s; mstep; [|done].
      rewrite deref_node_run. destruct (nodes self !! c) as [child|]; mstep; [|done].
      destruct (negb _); mstep; [by intros [= <-]|].
      unfold on_explorer_layouts at 1. cbn [new]. mstep.
      unfold on_nodes at 1.
      destruct (cached_object.cache c _) as [[[]|] ns]; mstep; [|done].
      intros [= <-].
      match goal with
      | |- frames_share_overview (with_stack _ ?s) =>
          apply (frames_share_overview_append s); [done|]
      end.
      revert F. apply frames_share_overview_fields; by destruct self.
  - (* going back *)
    intros E. destruct T as (f & Hl & Hc & He & Ho).
    pose proof Hl as Hl'. apply last_Some in Hl' as [frames Hst].
    assert (process_key_event (sel := stack_layout.select_lookup) key_left self
            = escape_branch self) as Ek
      by (unfold process_key_event; mstep; by rewrite Hh).
    rewrite <- Ek in E.
    destruct frames as [|f0 frames _] using rev_ind.
    + rewrite (escape_single_frame self f key_left) in E;
        [|by left|done|done|by exists f].
      by injection E as <-.
    + rewrite <- app_assoc in Hst. cbn in Hst.
      rewrite (pop_run self frames f0 f key_left) in E; [|by left|done|done].
      injection E as <-. unfold frames_share_overview in *. cbn.
      rewrite Hst in F. apply Forall_app in F as [F1 F2].
      apply Forall_cons in F2 as [F2 _]. rewrite F2.
      apply Forall_app. split; [done|]. by repeat constructor.
  - (* going back, by escape *)
    intros E. destruct T as (f & Hl & Hc & He & Ho).
    pose proof Hl as Hl'. apply last_Some in Hl' as [frames Hst].
    assert (process_key_event (sel := stack_layout.select_lookup) key_escape self
            = escape_branch self) as Ek
      by (unfold process_key_event; mstep; by rewrite Hh).
    rewrite <- Ek in E.
    destruct frames as [|f0 frames _] using rev_ind.
    + rewrite (escape_single_frame self f key_escape) in E;
        [|by right|done|done|by exists f].
      by injection E as <-.
    + rewrite <- app_assoc in Hst. cbn in Hst.
      rewrite (pop_run self frames f0 f key_escape) in E; [|by right|done|done].
      injection E as <-. unfold frames_share_overview in *. cbn.
      rewrite Hst in F. apply Forall_app in F as [F1 F2].
      apply Forall_cons in F2 as [F2 _]. rewrite F2.
      apply Forall_app. split; [done|]. by repeat constructor.
  - unfold switch_attributes. mstep. unfold on_explorer_layouts.
    destruct (modify _ _ _) as [[[]|] ls]; [|done].
    intros [= <-]. revert F. by apply frames_share_overview_fields.
  - unfold switch_pane. mstep. pose proof (selected_object_state self) as S.
    destruct (selected_object self) as [[c|] s]; cbn in S; subst s; mstep; [|done].
    rewrite deref_node_run. destruct (nodes self !! c) as [child|]; mstep; [|done].
    destruct (negb _); mstep; [by intros [= <-]|].
    unfold on_overview_layouts.
    destruct (modify _ _ _) as [[[]|] ls]; [|done].
    intros [= <-]. revert F. by apply frames_share_overview_fields.
Qed.

(** In every session that ran without an exception, all frames refer to
    the one overview layout: a preview mode set in one frame is the
    preview mode of all. *)
Lemma session_frames_share_overview keys :
  ∀ self self',
    tail_is_current self → frames_share_overview self →
    process_keys (sel := stack_layout.select_lookup) keys self = (Ok tt, self') →
    frames_share_overview self'.
Proof.
  unfold process_keys.
  induction keys as [|key keys IH]; intros self self' T F; cbn [for_in].
  - by intros [= <-].
  - rewrite bind_run.
    destruct (process_key_event key self) as [[[]|] s] eqn:E; [|done].
    apply IH.
    + by eapply key_keeps_tail_is_current.
    + by eapply key_keeps_frames_share_overview.
Qed.
End Navigation.

(** C9 on the world: in [child] the cursor is on the function [call],
    which is not selectable, and the key that drills in changes
    nothing. *)
Lemma push_not_selectable_witness :
  objexplore.process_key_event (sel := stack_layout.select_lookup)
    objexplore.key_right sessions.in_child
  = (Ok tt, sessions.in_child).
Proof.
  eapply (push_not_selectable (sel := stack_layout.select_lookup) sessions.in_child).
  - reflexivity.
  - vm_compute. reflexivity.
  - vm_compute. reflexivity.
  - vm_compute. reflexivity.
Defined.

(** C6 on the world: going back from the root changes nothing. *)
Lemma pop_on_root_witness :
  objexplore.process_key_event (sel := stack_layout.select_lookup)
    objexplore.key_left sessions.start
  = (Ok tt, sessions.start)
  ∧ stack_layout.pop (objexplore.stack sessions.start) = objexplore.stack sessions.start.
Proof.
  eapply (pop_on_root (sel := stack_layout.select_lookup) sessions.start).
  - by left.
  - reflexivity.
  - reflexivity.
  - eexists. repeat split; vm_compute; reflexivity.
Defined.



(** C4 fails on the preview mode.  From the root: drill into [child],
    switch the preview to the source of the selected function, go back.
    The root frame is current again, with its collection and its cursor,
    and with the preview mode the child frame was left in. *)
Lemma pop_keeps_preview_of_child :
  ∃ back,
    objexplore.process_keys (sel := stack_layout.select_lookup)
      [objexplore.key_right; objexplore.key_brace; objexplore.key_left]
      sessions.start = (Ok tt, back)
    ∧ ui_state sessions.start
      = Some (explorer_layout.public, 0, overview_layout.repr)
    ∧ ui_state back
      = Some (explorer_layout.public, 0, overview_layout.source)
    ∧ objexplore.stack back = objexplore.stack sessions.start
    ∧ objexplore.cached_obj back = objexplore.cached_obj sessions.start.
Proof.
  eexists. split; [vm_compute; reflexivity|].
  repeat split; vm_compute; reflexivity.
Qed.

(** * More about node construction *)
Section ConstructionMore.
Context {handle FunctionType : Type} `{!Reflection handle FunctionType}.
Import cached_object CachedObject_methods OverviewLayout_methods.

Implicit Types (o : handle) (parent_path : option Text)
  (attr_name : option string) (index : option pyindex).

(** The fields of a node that was made, read off its handle *)
Lemma init_Ok_fields o parent_path attr_name index c :
  __init__ o parent_path attr_name index = Ok c →
  obj c = o
  ∧ plain_attrs c = kept_names o
  ∧ plain_public_attributes c
    = sorted (List.filter (λ attr, negb (startswith_underscore attr)) (kept_names o))
  ∧ plain_private_attributes c
    = sorted (List.filter startswith_underscore (kept_names o))
  ∧ public_attributes c = [] ∧ private_attributes c = [] ∧ filters c = []
  ∧ _source c = match getsource o with Ok s => s | Raise _ => "" end
  ∧ length_ c = match len o with Ok n => Some (pretty n) | Raise _ => None end.
Proof.
  unfold __init__, kept_names. intros E. run_result E.
  injection E as <-. cbn.
  repeat split.
  - unfold except_Exception in *. destruct (getsource o) as [s|e]; [congruence|].
    destruct (isinstance_Exception e); congruence.
  - unfold except_TypeError in *. destruct (len o) as [k|e]; cbn in *; [congruence|].
    destruct (isinstance_TypeError e); congruence.
Qed.

#[local] Instance leb_total : Total (λ a b : string, Is_true (String.leb a b)).
Proof.
  intros a b. destruct (String.leb_total a b) as [E|E]; rewrite E; [left|right]; exact I.
Qed.

Lemma sorted_Sorted (l : list string) :
  Sorted (λ a b, Is_true (String.leb a b)) (sorted l).
Proof. apply (Sorted_merge_sort _). Qed.

Lemma sorted_Permutation (l : list string) : sorted l ≡ₚ l.
Proof. apply merge_sort_Permutation. Qed.

Lemma filter_partition_Permutation {A} (p : A → bool) (l : list A) :
  List.filter (λ x, negb (p x)) l ++ List.filter p l ≡ₚ l.
Proof.
  induction l as [|x l IH]; [done|]. cbn. destruct (p x); cbn.
  - rewrite <- Permutation_middle. by constructor.
  - by constructor.
Qed.

Lemma elem_of_list_remove x a (l : list string) :
  a ≠ x → a ∈ list_remove x l ↔ a ∈ l.
Proof.
  intros Hne. induction l as [|y l IH]; [done|]. cbn.
  destruct (decide (y = x)) as [->|].
  - rewrite elem_of_cons. split; [by right|]. by intros [?|?].
  - rewrite !elem_of_cons, IH. done.
Qed.

Lemma not_elem_of_list_remove x (l : list string) :
  NoDup l → x ∉ list_remove x l.
Proof.
  induction 1 as [|y l Hy ? IH]; cbn; [apply not_elem_of_nil|].
  destruct (decide (y = x)) as [->|]; [done|].
  rewrite not_elem_of_cons. by split.
Qed.

(** X1.  A node that was made lists every name it kept of [dir(obj)]
    exactly once, as often as it was kept: among the public names when
    it does not start with an underscore, among the private names when
    it does; and both lists ascend. *)
Theorem init_member_names o parent_path attr_name index c :
  __init__ o parent_path attr_name index = Ok c →
  (plain_public_attributes c ++ plain_private_attributes c ≡ₚ kept_names o)
  ∧ Forall (λ attr, startswith_underscore attr = false) (plain_public_attributes c)
  ∧ Forall (λ attr, startswith_underscore attr = true) (plain_private_attributes c)
  ∧ Sorted (λ a b, Is_true (String.leb a b)) (plain_public_attributes c)
  ∧ Sorted (λ a b, Is_true (String.leb a b)) (plain_private_attributes c).
Proof.
  intros E. apply init_Ok_fields in E as (_ & _ & -> & -> & _).
  split_and!.
  - rewrite !sorted_Permutation. apply filter_partition_Permutation.
  - rewrite sorted_Permutation. apply Forall_forall. intros a Ha.
    apply list_elem_of_In, filter_In in Ha as [_ Ha]. by apply negb_true_iff.
  - rewrite sorted_Permutation. apply Forall_forall. intros a Ha.
    by apply list_elem_of_In, filter_In in Ha as [_ Ha].
  - apply sorted_Sorted.
  - apply sorted_Sorted.
Qed.

(** X2.  Of the names of [dir(obj)] a node keeps all but
    [__weakref__]; and where [dir(obj)] repeats no name, [__weakref__]
    is no member name of the node. *)
Theorem init_drops_weakref o parent_path attr_name index c :
  __init__ o parent_path attr_name index = Ok c →
  (∀ attr, attr ≠ "__weakref__" →
     attr ∈ plain_public_attributes c ++ plain_private_attributes c ↔ attr ∈ dir o)
  ∧ (NoDup (dir o) →
     "__weakref__" ∉ plain_public_attributes c ++ plain_private_attributes c).
Proof.
  intros E. apply init_Ok_fields in E as (_ & _ & -> & -> & _).
  assert (∀ a, a ∈ sorted (List.filter (λ attr, negb (startswith_underscore attr))
                             (kept_names o))
                    ++ sorted (List.filter startswith_underscore (kept_names o))
               ↔ a ∈ kept_names o) as Hin.
  { intros a. rewrite !sorted_Permutation, filter_partition_Permutation. done. }
  split.
  - intros a Ha. rewrite Hin. unfold kept_names. case_bool_decide; [|done].
    by apply elem_of_list_remove.
  - intros Hnd. rewrite Hin. unfold kept_names. case_bool_decide; [|done].
    by apply not_elem_of_list_remove.
Qed.

(** X3.  The source view of a node that was made: without a height
    and not in full screen it raises, whether or not there is a
    source; otherwise it is the notice when [inspect.getsource] failed
    or gave the empty text, and the source it gave else, cut to the
    height unless in full screen. *)
Theorem get_source_of_node o parent_path attr_name index c term_height fullscreen :
  __init__ o parent_path attr_name index = Ok c →
  get_source c term_height fullscreen
  = if negb fullscreen && (term_height =? 0)%Z
    then Raise (ValueError "Need a terminal height")
    else match getsource o with
         | Ok (String a s) =>
             Ok (Syntax (String a s)
                   (if fullscreen then None else Some (0%Z, term_height)))
         | _ => Ok (notice "[red italic]Source code unavailable")
         end.
Proof.
  intros E. apply init_Ok_fields in E as (_ & _ & _ & _ & _ & _ & _ & Hs & _).
  unfold get_source. rewrite Hs.
  destruct (negb fullscreen && (term_height =? 0)%Z); [done|].
  destruct (getsource o) as [[|a s]|e]; [done| |done].
  by destruct fullscreen.
Qed.

Lemma pretty_N_go_nonempty (x : N) :
  ∀ s, s ≠ "" → pretty_N_go x s ≠ "".
Proof.
  induction (N.lt_wf_0 x) as [x _ IH]. intros s Hs.
  destruct (decide (x = 0%N)) as [->|Hx].
  - by rewrite pretty_N_go_0.
  - rewrite pretty_N_go_step by lia. apply IH; [|done].
    apply N.div_lt; lia.
Qed.

Lemma pretty_nat_nonempty (k : nat) : pretty k ≠ "".
Proof.
  unfold pretty, pretty_nat, pretty, pretty_N.
  case_decide; [done|].
  rewrite pretty_N_go_step by lia. by apply pretty_N_go_nonempty.
Qed.

(** X4.  The info row of a node that was made shows the type alone
    when [len(obj)] raised, and the type beside the length whenever
    [len(obj)] answered, the length 0 included. *)
Theorem info_layout_of_node o parent_path attr_name index c :
  __init__ o parent_path attr_name index = Ok c →
  get_info_layout c
  = match len o with
    | Ok k =>
        Row (Some 3)
          (Layout (get_type_panel c) None)
          (Layout (Panel (pretty k) "[i][cyan]len[/cyan]()[/i]") None)
    | Raise _ => get_type_panel c
    end.
Proof.
  intros E. apply init_Ok_fields in E as (_ & _ & _ & _ & _ & _ & _ & _ & Hl).
  unfold get_info_layout. rewrite Hl.
  destruct (len o) as [k|e]; [|done].
  pose proof (pretty_nat_nonempty k). by destruct (pretty k).
Qed.
End ConstructionMore.

(** * What the passes leave alone *)
Section Frames.
Context {handle FunctionType : Type} `{!Reflection handle FunctionType}.
Import cached_object.
Implicit Types (h : list (CachedObject handle FunctionType)) (self c : ref)
  (n : CachedObject handle FunctionType).

Context (keep : CachedObject handle FunctionType → CachedObject handle FunctionType).
Context (self : ref).

Lemma extends_refl h : extends keep self h h.
Proof. intros c n Hc. by exists n. Qed.

Lemma extends_trans h1 h2 h3 :
  extends keep self h1 h2 → extends keep self h2 h3 → extends keep self h1 h3.
Proof.
  intros H12 H23 c n Hc.
  destruct (H12 c n Hc) as (n2 & Hc2 & Hk2 & He2).
  destruct (H23 c n2 Hc2) as (n3 & Hc3 & Hk3 & He3).
  exists n3. split_and!; [done|congruence|].
  intros Hne. rewrite He3, He2; done.
Qed.

Lemma extends_length h h' : extends keep self h h' → (length h ≤ length h')%nat.
Proof.
  intros He. destruct (decide (length h ≤ length h')%nat) as [|Hlt]; [done|].
  destruct (lookup_lt_is_Some_2 h (length h')) as [n Hn]; [lia|].
  destruct (He _ _ Hn) as (n' & Hn' & _).
  apply lookup_lt_Some in Hn'. lia.
Qed.

Abbreviation preserves := (preserves keep self).

Lemma preserves_ret {A} (a : A) : preserves (mret a).
Proof. intros h. apply extends_refl. Qed.

Lemma preserves_lift {A} (r : result A) : preserves (lift r).
Proof. intros h. apply extends_refl. Qed.

Lemma preserves_raise {A} e : preserves (raise e : M _ A).
Proof. intros h. apply extends_refl. Qed.

Lemma preserves_bind {A B} (m : M _ A) (f : A → M _ B) :
  preserves m → (∀ a, preserves (f a)) → preserves (m ≫= f).
Proof.
  intros Hm Hf h. rewrite bind_run. specialize (Hm h).
  destruct (m h) as [[a|e] h1]; [|done].
  eapply extends_trans; [exact Hm|apply Hf].
Qed.

Lemma preserves_deref c : preserves (deref c).
Proof. intros h. unfold deref. destruct (h !! c); apply extends_refl. Qed.

Lemma preserves_new n : preserves (new n).
Proof.
  intros h c m Hc. exists m. cbn. split_and!; [|done..].
  by apply lookup_app_l_Some.
Qed.

Lemma preserves_modify (f : CachedObject handle FunctionType → CachedObject handle FunctionType) :
  (∀ n, keep (f n) = keep n) → preserves (modify self f).
Proof.
  intros Hf h. unfold modify. destruct (h !! self) as [n|] eqn:Hs; [|apply extends_refl].
  intros c m Hc. cbn. destruct (decide (c = self)) as [->|Hne].
  - exists (f n). rewrite list_lookup_insert_eq by (by eapply lookup_lt_Some).
    split_and!; [done| |done]. rewrite Hf. congruence.
  - exists m. by rewrite list_lookup_insert_ne.
Qed.

Lemma preserves_for_in {A} (l : list A) (body : A → M _ unit) :
  (∀ x, preserves (body x)) → preserves (for_in l body).
Proof.
  intros Hb. induction l as [|x l IH]; [apply preserves_ret|].
  cbn. apply preserves_bind; [apply Hb|]. intros _. exact IH.
Qed.

Lemma preserves_for_break {A} (l : list A) (body : A → M _ bool) :
  (∀ x, preserves (body x)) → preserves (for_break l body).
Proof.
  intros Hb. induction l as [|x l IH]; [apply preserves_ret|].
  cbn. apply preserves_bind; [apply Hb|]. intros [|]; [apply preserves_ret|exact IH].
Qed.

Lemma preserves_foldlM {A B} (l : list A) (body : B → A → M _ B) :
  (∀ acc x, preserves (body acc x)) → ∀ acc, preserves (foldlM l acc body).
Proof.
  intros Hb. induction l as [|x l IH]; intros acc; [apply preserves_ret|].
  cbn. apply preserves_bind; [apply Hb|]. intros acc'. apply IH.
Qed.

Lemma preserves_first_match fs c (m : M _ unit) :
  preserves m → preserves (first_match fs c m).
Proof.
  intros Hm. apply preserves_for_break. intros f.
  apply preserves_bind; [apply preserves_deref|]. intros nc.
  destruct (call f nc); [|apply preserves_ret].
  apply preserves_bind; [exact Hm|]. intros _. apply preserves_ret.
Qed.

Hypothesis keep_filtered_public : ∀ v n, keep (with_filtered_public_attributes v n) = keep n.
Hypothesis keep_filtered_private : ∀ v n, keep (with_filtered_private_attributes v n) = keep n.
Hypothesis keep_filtered_dict : ∀ v n, keep (with_filtered_dict v n) = keep n.
Hypothesis keep_filtered_list : ∀ v n, keep (with_filtered_list v n) = keep n.

Lemma preserves_filter_members members filtered with_filtered :
  (∀ v n, keep (with_filtered v n) = keep n) →
  preserves (filter_members members filtered with_filtered self).
Proof.
  intros Hk. unfold filter_members.
  apply preserves_bind; [by apply preserves_modify|]. intros _.
  apply preserves_bind; [apply preserves_deref|]. intros n.
  destruct (filters n) as [|f fs]; [by apply preserves_modify|].
  apply preserves_for_in. intros [attr cached_obj].
  apply preserves_bind; [|intros _; apply preserves_ret].
  apply preserves_first_match. by apply preserves_modify.
Qed.

Lemma preserves_filter_dict : preserves (filter_dict self).
Proof.
  unfold filter_dict.
  apply preserves_bind; [by apply preserves_modify|]. intros _.
  apply preserves_bind; [apply preserves_deref|]. intros n.
  destruct (type (obj n)); try apply preserves_ret.
  apply preserves_bind.
  - apply preserves_for_in. intros [key val].
    apply preserves_bind; [apply preserves_lift|]. intros repr_val.
    apply preserves_bind; [apply preserves_lift|]. intros c.
    apply preserves_bind; [apply preserves_new|]. intros r.
    by apply preserves_modify.
  - intros _. destruct (filters n) as [|f fs]; [apply preserves_ret|].
    apply preserves_bind; [apply preserves_deref|]. intros n'.
    apply preserves_for_in. intros [attr [line cached_obj]].
    apply preserves_bind.
    + apply preserves_first_match. by apply preserves_modify.
    + intros [|]; [apply preserves_ret|by apply preserves_modify].
Qed.

Lemma preserves_filter_list : preserves (filter_list self).
Proof.
  assert (∀ n : CachedObject handle FunctionType,
            preserves
              (for_in (enumerate (iter (obj n))) (λ '(index, item),
                 typ ← lift (highlighter <$> str_type item);
                 let line := " [" +:+ pretty index +:+ "] " +:+ typ in
                 c ← lift (__init__ item (Some (dotpath n)) None
                             (Some (IInt (Z.of_nat index))));
                 r ← new c;
                 modify self (λ n, with_filtered_list (filtered_list n ++ [(line, r)]) n));;
               match filters n with
               | [] => mret tt
               | fs =>
                   n' ← deref self;
                   new_filtered_list ←
                     foldlM (filtered_list n') [] (λ new_filtered_list '(line, cached_obj),
                       broke ← first_match fs cached_obj (mret tt);
                       mret (if broke : bool then new_filtered_list ++ [(line, cached_obj)]
                             else new_filtered_list));
                   modify self (with_filtered_list new_filtered_list)
               end)) as Hseq.
  { intros n. apply preserves_bind.
    - apply preserves_for_in. intros [index item].
      apply preserves_bind; [apply preserves_lift|]. intros typ.
      apply preserves_bind; [apply preserves_lift|]. intros c.
      apply preserves_bind; [apply preserves_new|]. intros r.
      by apply preserves_modify.
    - intros _. destruct (filters n) as [|f fs]; [apply preserves_ret|].
      apply preserves_bind; [apply preserves_deref|]. intros n'.
      apply preserves_bind; [|intros l; by apply preserves_modify].
      apply preserves_foldlM. intros acc [line cached_obj].
      apply preserves_bind; [|intros b; apply preserves_ret].
      apply preserves_first_match, preserves_ret. }
  unfold filter_list.
  apply preserves_bind; [by apply preserves_modify|]. intros _.
  apply preserves_bind; [apply preserves_deref|]. intros n.
  destruct (type (obj n)); try apply preserves_ret; apply Hseq.
Qed.

Lemma preserves_filter : preserves (filter self).
Proof.
  unfold filter.
  apply preserves_bind; [by apply preserves_filter_members|]. intros _.
  apply preserves_bind; [by apply preserves_filter_members|]. intros _.
  apply preserves_bind; [apply preserves_filter_dict|]. intros _.
  apply preserves_filter_list.
Qed.

Lemma preserves_cache_attrs n names store :
  (∀ attr r n, keep (store attr r n) = keep n) →
  preserves (cache_attrs self n names store).
Proof.
  intros Hk. apply preserves_for_in. intros attr.
  apply preserves_bind; [apply preserves_lift|]. intros v.
  apply preserves_bind; [apply preserves_lift|]. intros c.
  apply preserves_bind; [apply preserves_new|]. intros r.
  by apply preserves_modify.
Qed.
End Frames.

(** * [filter] and [cache], whatever their outcome *)
Section FrameTheorems.
Context {handle FunctionType : Type} `{!Reflection handle FunctionType}.
Import cached_object.
Implicit Types (h : list (CachedObject handle FunctionType)) (self c : ref)
  (n : CachedObject handle FunctionType).

Lemma filter_extends self h : extends unfiltered self h (filter self h).2.
Proof. apply preserves_filter; by intros ? []. Qed.

(** The second half of [cache]: the private pass and [filter] *)
Lemma preserves_cache_private
    (keep : CachedObject handle FunctionType → CachedObject handle FunctionType) self :
  (∀ v n, keep (with_filtered_public_attributes v n) = keep n) →
  (∀ v n, keep (with_filtered_private_attributes v n) = keep n) →
  (∀ v n, keep (with_filtered_dict v n) = keep n) →
  (∀ v n, keep (with_filtered_list v n) = keep n) →
  (∀ v n, keep (with_private_attributes v n) = keep n) →
  preserves keep self
    (n ← deref self;
     match private_attributes n with
     | [] =>
         cache_attrs self n (plain_private_attributes n)
           (λ attr r n, with_private_attributes (dict_set attr r (private_attributes n)) n)
     | _ => mret tt
     end;;
     filter self).
Proof.
  intros H1 H2 H3 H4 H5.
  apply preserves_bind; [apply preserves_deref|]. intros n.
  apply preserves_bind; [|intros _; by apply preserves_filter].
  destruct (private_attributes n); [|apply preserves_ret].
  apply preserves_cache_attrs. intros attr r m. apply H5.
Qed.

Lemma preserves_cache_public
    (keep : CachedObject handle FunctionType → CachedObject handle FunctionType) self n :
  (∀ v n, keep (with_public_attributes v n) = keep n) →
  preserves keep self
    (match public_attributes n with
     | [] =>
         cache_attrs self n (plain_public_attributes n)
           (λ attr r n, with_public_attributes (dict_set attr r (public_attributes n)) n)
     | _ => mret tt
     end).
Proof.
  intros H1. destruct (public_attributes n); [|apply preserves_ret].
  apply preserves_cache_attrs. intros attr r m. apply H1.
Qed.

Lemma cache_extends self h : extends uncached self h (cache self h).2.
Proof.
  revert h. change (preserves uncached self (cache self)). unfold cache.
  apply preserves_bind; [apply preserves_deref|]. intros n.
  apply preserves_bind; [apply preserves_cache_public; by intros ? []|]. intros _.
  apply preserves_cache_private; by intros ? [].
Qed.

(** X5.  [filter], whether it returns or raises, leaves every node of
    the store at its address and removes none; the nodes other than
    the filtered one are as they were, and the filtered one differs in
    its four filtered fields at most. *)
Theorem filter_frame self h c n :
  h !! c = Some n →
  (length h ≤ length (filter self h).2)%nat
  ∧ ∃ n', (filter self h).2 !! c = Some n'
          ∧ unfiltered n' = unfiltered n
          ∧ (c ≠ self → n' = n).
Proof.
  intros Hc. split.
  - eapply extends_length, filter_extends.
  - by apply filter_extends.
Qed.

(** X6.  [cache], whether it returns or raises, leaves every node of
    the store at its address and removes none; the nodes other than
    the cached one are as they were, and the cached one differs in its
    members and its filtered fields at most. *)
Theorem cache_frame self h c n :
  h !! c = Some n →
  (length h ≤ length (cache self h).2)%nat
  ∧ ∃ n', (cache self h).2 !! c = Some n'
          ∧ uncached n' = uncached n
          ∧ (c ≠ self → n' = n).
Proof.
  intros Hc. split.
  - eapply extends_length, cache_extends.
  - by apply cache_extends.
Qed.

(** X7.  Members that are filed stay: when the public members of a
    node are not empty, [cache] leaves them as they are, and so for
    the private members, whether it returns or raises.  A pass that
    raised midway is therefore never taken up again. *)
Theorem cache_keeps_filed_members self h n :
  h !! self = Some n →
  ∃ n', (cache self h).2 !! self = Some n'
    ∧ (public_attributes n ≠ [] → public_attributes n' = public_attributes n)
    ∧ (private_attributes n ≠ [] → private_attributes n' = private_attributes n).
Proof.
  intros Hs.
  destruct (cache_extends self h self n Hs) as (n' & Hs' & _ & _).
  exists n'. split; [done|]. split.
  - intros Hp.
    pose (keep := λ n, with_private_attributes [] (unfiltered n)).
    assert (extends keep self h (cache self h).2) as He.
    { unfold cache. rewrite bind_run, (deref_run _ _ _ Hs).
      destruct (public_attributes n) as [|e l] eqn:Hpn; [done|].
      rewrite bind_run, ret_run.
      apply preserves_cache_private; by intros ? []. }
    destruct (He self n Hs) as (m & Hm & Hk & _).
    assert (m = n') as -> by congruence.
    apply (f_equal public_attributes) in Hk. by destruct n, n'.
  - intros Hp.
    pose (keep := λ n, with_public_attributes [] (unfiltered n)).
    assert (extends keep self h (cache self h).2) as He.
    { unfold cache. rewrite bind_run, (deref_run _ _ _ Hs).
      pose proof (preserves_cache_public keep self n ltac:(by intros ? []) h) as H1.
      match goal with
      | |- extends _ _ _ ((?m1 ≫= _) h).2 =>
          change (extends keep self h (m1 h).2) in H1;
          rewrite bind_run; destruct (m1 h) as [[[]|e] h1]; [|done]
      end. cbn in H1.
      eapply extends_trans; [exact H1|].
      destruct (H1 self n Hs) as (n1 & Hs1 & Hk1 & _).
      rewrite bind_run, (deref_run _ _ _ Hs1).
      assert (private_attributes n1 = private_attributes n) as Hq.
      { apply (f_equal private_attributes) in Hk1. by destruct n, n1. }
      rewrite Hq. destruct (private_attributes n) as [|e l]; [done|].
      rewrite bind_run, ret_run.
      apply preserves_filter; by intros ? []. }
    destruct (He self n Hs) as (m & Hm & Hk & _).
    assert (m = n') as -> by congruence.
    apply (f_equal private_attributes) in Hk. by destruct n, n'.
Qed.
End FrameTheorems.

(** * The first [cache] of a node *)
Section FirstCache.
Context {handle FunctionType : Type} `{!Reflection handle FunctionType}.
Import cached_object.
Implicit Types (h : list (CachedObject handle FunctionType)) (self c : ref)
  (n : CachedObject handle FunctionType).

Lemma file_all_member (bs : list (string * CachedObject handle FunctionType)) :
  ∀ base d, NoDup (d.*1 ++ bs.*1) →
    file_all file_member base bs d = d ++ imap (λ i b, (b.1, base + i)) bs.
Proof.
  induction bs as [|b bs IH]; intros base d N; cbn [file_all].
  - by rewrite app_nil_r.
  - assert (b.1 ∉ d.*1) as F.
    { apply NoDup_app in N as (_ & N & _). intros I. apply (N _ I). cbn. left. }
    unfold file_member at 2. rewrite dict_set_fresh by done.
    rewrite IH, imap_cons.
    + rewrite <- app_assoc. cbn. rewrite Nat.add_0_r. do 2 f_equal.
      apply imap_ext. intros i x _. cbn. f_equal. lia.
    + rewrite fmap_app. cbn. rewrite <- app_assoc. exact N.
Qed.

Lemma imap_addresses {B} (bs : list (string * B)) base :
  (imap (λ i b, (b.1, base + i)) bs).*2 = seq base (length bs).
Proof.
  revert base. induction bs as [|b bs IH]; intros base; [done|].
  rewrite imap_cons. cbn. rewrite Nat.add_0_r. f_equal.
  rewrite <- IH. f_equal. apply imap_ext. intros i x _. cbn. f_equal. lia.
Qed.

Lemma member_entry_Ok n attr b :
  member_entry n attr = Ok b →
  b.1 = attr
  ∧ ∃ v, getattr (obj n) attr = Ok v
         ∧ __init__ v (Some (dotpath n)) (Some attr) None = Ok b.2.
Proof.
  unfold member_entry. intros E.
  destruct (getattr (obj n) attr) as [v|] eqn:Ev; cbn in E; [|done].
  destruct (__init__ v _ _ _) as [c|] eqn:Ec; cbn in E; [|done].
  injection E as <-. eauto.
Qed.

(** The members filed by the rounds [bs] of a pass of [cache] over
    [names] *)
Lemma members_filed n h h' names (bs : list (string * CachedObject handle FunctionType)) base :
  (length h ≤ base)%nat →
  Forall2 (λ attr b, member_entry n attr = Ok b) names bs →
  (∀ i b, bs !! i = Some b → h' !! (base + i) = Some b.2) →
  Forall2 (member_filed n h h') names (imap (λ i b, (b.1, base + i)) bs).
Proof.
  intros Hb HF Hl. apply Forall2_same_length_lookup. split.
  - rewrite length_imap. by eapply Forall2_length.
  - intros i attr e Ha He. rewrite list_lookup_imap in He.
    destruct (bs !! i) as [b|] eqn:Hbi; [|done]. injection He as <-.
    pose proof (Forall2_lookup_lr _ _ _ _ _ _ HF Ha Hbi) as Hm.
    apply member_entry_Ok in Hm as (Hn & v & Hv & Hc).
    split; [done|]. split; [cbn; lia|].
    exists v, b.2. split_and!; [done..|]. by apply Hl.
Qed.

(** X8.  The first [cache] of a node, when it returns: for every
    public and every private name of the node, in the order of the
    names, one member is filed under that name; it is a node of its
    own at an address that is new to the store, the one that
    [CachedObject(getattr(obj, name), parent_path=dotpath,
    attr_name=name)] makes. *)
Theorem cache_files_members self h n h' :
  h !! self = Some n →
  public_attributes n = [] → private_attributes n = [] →
  NoDup (plain_public_attributes n) → NoDup (plain_private_attributes n) →
  cache self h = (Ok tt, h') →
  ∃ n', h' !! self = Some n'
    ∧ Forall2 (member_filed n h h') (plain_public_attributes n) (public_attributes n')
    ∧ Forall2 (member_filed n h h') (plain_private_attributes n) (private_attributes n')
    ∧ NoDup ((public_attributes n').*2 ++ (private_attributes n').*2).
Proof.
  intros Hn Ep Eq Np Nq E.
  assert (self < length h) as Hlt by (by eapply lookup_lt_Some).
  rewrite (cache_members_run self h n Hn) in E. cbv zeta in E.
  unfold member_rounds in E. rewrite Ep, Eq in E.
  destruct (collect (member_entry n) (plain_public_attributes n)) as [pub ep] eqn:Cp.
  destruct (collect (member_entry n) (plain_private_attributes n)) as [priv eq] eqn:Cq.
  cbn [fst snd] in E.
  destruct ep as [ep|]; [congruence|]. destruct eq as [eq|]; [congruence|].
  pose proof (collect_Forall2 (member_entry n) (plain_public_attributes n)) as Fp.
  pose proof (collect_Forall2 (member_entry n) (plain_private_attributes n)) as Fq.
  rewrite Cp in Fp. rewrite Cq in Fq. specialize (Fp eq_refl). specialize (Fq eq_refl).
  cbn [fst] in Fp, Fq.
  assert (pub.*1 = plain_public_attributes n) as Kp.
  { clear -Fp. induction Fp as [|attr b ?? Hb ? IH]; [done|].
    apply member_entry_Ok in Hb as [Hb _]. cbn. by rewrite Hb, IH. }
  assert (priv.*1 = plain_private_attributes n) as Kq.
  { clear -Fq. induction Fq as [|attr b ?? Hb ? IH]; [done|].
    apply member_entry_Ok in Hb as [Hb _]. cbn. by rewrite Hb, IH. }
  rewrite !file_all_member in E by (cbn; congruence). cbn [app] in E.
  set (n1 := with_public_attributes (imap (λ i b, (b.1, length h + i)) pub) n) in *.
  set (h1 := <[self := n1]> h ++ pub.*2) in *.
  set (n2 := with_private_attributes (imap (λ i b, (b.1, length h1 + i)) priv) n1) in *.
  set (h2 := <[self := n2]> h1 ++ priv.*2) in *.
  assert (length h1 = length h + length pub) as L1.
  { unfold h1. by rewrite length_app, length_insert, length_fmap. }
  assert (h2 !! self = Some n2) as Hs2.
  { unfold h2. apply lookup_insert_app_self. lia. }
  assert (extends unfiltered self h2 h') as He.
  { replace h' with (filter self h2).2 by (by rewrite E). apply filter_extends. }
  destruct (He self n2 Hs2) as (n' & Hs' & Hk & _).
  assert (public_attributes n' = imap (λ i b, (b.1, length h + i)) pub) as Pp.
  { apply (f_equal public_attributes) in Hk. by destruct n, n'. }
  assert (private_attributes n' = imap (λ i b, (b.1, length h1 + i)) priv) as Pq.
  { apply (f_equal private_attributes) in Hk. by destruct n, n'. }
  assert (∀ i b, pub !! i = Some b → h' !! (length h + i) = Some b.2) as Cpub.
  { intros i b Hb.
    assert (h2 !! (length h + i) = Some b.2) as H2.
    { unfold h2. rewrite lookup_insert_app_old.
      - unfold h1. rewrite lookup_insert_app_new by done.
        by rewrite list_lookup_fmap, Hb.
      - lia.
      - apply lookup_lt_Some in Hb. lia. }
    destruct (He _ _ H2) as (m & Hm & _ & Hmm). rewrite Hm, Hmm; [done|lia]. }
  assert (∀ i b, priv !! i = Some b → h' !! (length h1 + i) = Some b.2) as Cpriv.
  { intros i b Hb.
    assert (h2 !! (length h1 + i) = Some b.2) as H2.
    { unfold h2. rewrite lookup_insert_app_new by lia.
      by rewrite list_lookup_fmap, Hb. }
    destruct (He _ _ H2) as (m & Hm & _ & Hmm). rewrite Hm, Hmm; [done|lia]. }
  exists n'. split; [done|]. rewrite Pp, Pq. split_and!.
  - by apply members_filed.
  - apply members_filed; [lia|done..].
  - rewrite !imap_addresses, L1, <- seq_app. apply NoDup_seq.
Qed.
End FirstCache.

(** * More about [filter] and [set_filters] *)
Section FilterMore.
Context {handle FunctionType : Type} `{!Reflection handle FunctionType}.
Import cached_object.
Implicit Types (h : list (CachedObject handle FunctionType)) (self c : ref)
  (n : CachedObject handle FunctionType).

(** The two member passes of [filter] return, and leave the container
    passes to run *)
Lemma filter_members_first self h n :
  h !! self = Some n →
  members_ok h self n →
  filter self h
  = (filter_dict self;; filter_list self) (<[self := after_members h n]> h).
Proof.
  intros Hn Hm. pose proof (lookup_lt_Some _ _ _ Hn) as L.
  unfold filter.
  rewrite bind_run.
  rewrite (filter_members_run public_attributes filtered_public_attributes
             with_filtered_public_attributes) with (n := n);
    [|done|done|by destruct n0|done|done|done|by apply members_ok_public].
  cbv beta iota. rewrite bind_run.
  set (n1 := with_filtered_public_attributes _ n).
  rewrite (filter_members_run private_attributes filtered_private_attributes
             with_filtered_private_attributes) with (n := n1);
    [|done|done|by destruct n0|done|done|by rewrite list_lookup_insert_eq|].
  2:{ rewrite length_insert. by apply members_ok_private. }
  cbv beta iota. rewrite list_insert_insert_eq.
  change (filters n1) with (filters n).
  change (private_attributes n1) with (private_attributes n).
  rewrite kept_members_insert by (by apply members_ok_private).
  reflexivity.
Qed.

(** What [filter] leaves at the node, whatever its outcome: the members
    kept, and for the rest the fields it had *)
Lemma filter_self_members self h n :
  h !! self = Some n →
  members_ok h self n →
  ∃ n', (filter self h).2 !! self = Some n'
    ∧ unfiltered n' = unfiltered n
    ∧ filtered_public_attributes n' = kept_members (filters n) h (public_attributes n)
    ∧ filtered_private_attributes n' = kept_members (filters n) h (private_attributes n).
Proof.
  intros Hn Hm. pose proof (lookup_lt_Some _ _ _ Hn) as L.
  destruct (filter_extends self h self n Hn) as (n' & Hs' & Hu & _).
  exists n'. split; [done|]. split; [done|].
  pose (keep := λ n, with_filtered_dict [] (with_filtered_list [] n)).
  assert (preserves keep self (filter_dict self;; filter_list self)) as Hp.
  { apply preserves_bind; [apply preserves_filter_dict; by intros ? []|].
    intros _. apply preserves_filter_list; by intros ? []. }
  specialize (Hp (<[self := after_members h n]> h)).
  rewrite <- (filter_members_first self h n Hn Hm) in Hp.
  destruct (Hp self (after_members h n)) as (m & Hm' & Hk & _).
  { by apply list_lookup_insert_eq. }
  assert (m = n') as -> by congruence.
  split.
  - apply (f_equal filtered_public_attributes) in Hk. by destruct n, n'.
  - apply (f_equal filtered_private_attributes) in Hk. by destruct n, n'.
Qed.

(** X9.  [set_filters], whether it returns or raises, replaces the
    predicates of the node, keeps its members, and shows of them those
    that one of the new predicates accepts, all of them when there is
    no predicate; what the predicates were before plays no part. *)
Theorem set_filters_views self h n fs :
  h !! self = Some n →
  members_ok h self n →
  NoDup (public_attributes n).*1 → NoDup (private_attributes n).*1 →
  ∃ n', (set_filters self fs h).2 !! self = Some n'
    ∧ filters n' = fs
    ∧ public_attributes n' = public_attributes n
    ∧ private_attributes n' = private_attributes n
    ∧ filtered_public_attributes n'
      = view (λ e : string * ref, e.2) fs (set_filters self fs h).2 (public_attributes n)
    ∧ filtered_private_attributes n'
      = view (λ e : string * ref, e.2) fs (set_filters self fs h).2 (private_attributes n).
Proof.
  intros Hn Hm Np Nq. pose proof (lookup_lt_Some _ _ _ Hn) as L.
  unfold set_filters. rewrite bind_run, (modify_run _ _ _ _ Hn).
  set (n0 := with_filters fs n). set (h0 := <[self := n0]> h).
  assert (h0 !! self = Some n0) as Hn0 by (by apply list_lookup_insert_eq).
  assert (members_ok h0 self n0) as Hm0.
  { unfold members_ok, h0. rewrite length_insert. exact Hm. }
  destruct (filter_self_members self h0 n0 Hn0 Hm0) as (n' & Hs' & Hu & Hp & Hq).
  exists n'. split; [done|].
  change (filters n0) with fs in *.
  change (public_attributes n0) with (public_attributes n) in *.
  change (private_attributes n0) with (private_attributes n) in *.
  assert (∀ members : list (string * ref),
            Forall (λ e : string * ref, e.2 ≠ self ∧ e.2 < length h) members →
            NoDup members.*1 →
            kept_members fs h0 members
            = view (λ e : string * ref, e.2) fs (filter self h0).2 members) as Hv.
  { intros members Hf Nd. rewrite kept_members_view by done.
    symmetry. apply view_ext. eapply Forall_impl; [exact Hf|].
    intros e [Hne Hlt]. cbn.
    destruct (lookup_lt_is_Some_2 h0 e.2) as [m Hm'].
    { unfold h0. by rewrite length_insert. }
    destruct (filter_extends self h0 e.2 m Hm') as (m' & Hm'' & _ & Heq).
    rewrite Hm'', Hm', Heq; done. }
  split_and!.
  - apply (f_equal filters) in Hu. by destruct n, n'.
  - apply (f_equal public_attributes) in Hu. by destruct n, n'.
  - apply (f_equal private_attributes) in Hu. by destruct n, n'.
  - rewrite Hp. apply Hv; [by apply members_ok_public|done].
  - rewrite Hq. apply Hv; [by apply members_ok_private|done].
Qed.

(** X10.  On an object that is neither a dictionary nor a list, a
    tuple or a set, [filter] returns, makes no node, and leaves the
    node without entries. *)
Theorem filter_plain_object self h n :
  h !! self = Some n →
  members_ok h self n →
  type (obj n) = type_other →
  ∃ n', filter self h = (Ok tt, <[self := n']> h)
    ∧ filtered_dict n' = [] ∧ filtered_list n' = [].
Proof.
  intros Hn Hm T. pose proof (lookup_lt_Some _ _ _ Hn) as L.
  rewrite (filter_members_first self h n Hn Hm).
  set (n2 := after_members h n).
  exists (with_filtered_list [] (with_filtered_dict [] n2)).
  split; [|done].
  rewrite bind_run. unfold filter_dict.
  rewrite bind_run, (modify_run _ _ n2) by (by apply list_lookup_insert_eq).
  rewrite list_insert_insert_eq.
  rewrite bind_run, (deref_run _ _ (with_filtered_dict [] n2))
    by (by apply list_lookup_insert_eq).
  change (obj (with_filtered_dict [] n2)) with (obj n). rewrite T.
  rewrite ret_run. unfold filter_list.
  rewrite bind_run, (modify_run _ _ (with_filtered_dict [] n2))
    by (by apply list_lookup_insert_eq).
  rewrite list_insert_insert_eq.
  rewrite bind_run, (deref_run _ _ (with_filtered_list [] (with_filtered_dict [] n2)))
    by (by apply list_lookup_insert_eq).
  change (obj (with_filtered_list [] (with_filtered_dict [] n2))) with (obj n).
  rewrite T. by rewrite ret_run.
Qed.

(** X11.  A dictionary that has the key [None] with a value other
    than [None] cannot be filtered: the child of that item is made with
    [index=None], which the constructor takes for no index at all, and
    [filter] raises. *)
Theorem filter_raises_on_None_key self h n val :
  h !! self = Some n →
  members_ok h self n →
  NoDup (items (obj n)).*1 →
  type (obj n) = type_dict →
  (INone, val) ∈ items (obj n) →
  is_None val = false →
  ∃ e h', filter self h = (Raise e, h').
Proof.
  intros Hn Hm Nd T Hin Hv.
  rewrite (filter_run self h n Hn Hm Nd). unfold filter_spec. cbv zeta.
  assert (is_Ok (dict_entry n (INone, val)) = false) as Hr.
  { unfold dict_entry. destruct (highlighter <$> str_type val); [|done]. cbn.
    rewrite init_dotpath_raise
      with (e := ValueError "Need to specify an attribute name or an index"); [done|].
    unfold make_dotpath. by rewrite Hv. }
  destruct (collect_raise _ _ _ Hin Hr) as [e He].
  assert ((dict_rounds n).2 = Some e) as -> by (unfold dict_rounds; by rewrite T).
  eauto.
Qed.
End FilterMore.

(** * More about the navigation keys *)
Section NavigationMore.
Context {handle FunctionType : Type} `{!Reflection handle FunctionType}.
Import objexplore.
Abbreviation Explorer := (Explorer handle FunctionType).
Implicit Types (self : Explorer) (frame : stack_layout.StackFrame).

Ltac mstep :=
  repeat (progress (rewrite ?bind_run, ?ret_run; cbv beta iota;
                    try (unfold get at 1; cbv beta iota);
                    try (unfold put at 1; cbv beta iota))).

(** X12.  Throughout a session that starts with [Explorer(obj, name)]
    and whose keys all return, what the explorer shows is what the
    tail frame of its stack holds; the stack is never empty. *)
Theorem session_shows_tail {sel : stack_layout.Select} o name keys self self' :
  __init__ o name = Ok self →
  process_keys keys self = (Ok tt, self') →
  tail_is_current self'.
Proof.
  intros Hi. apply init_tail_is_current in Hi as (T & _).
  revert self T. unfold process_keys.
  induction keys as [|key keys IH]; intros self T; cbn [for_in].
  - by intros [= <-].
  - rewrite bind_run.
    destruct (process_key_event key self) as [[[]|] s] eqn:E; [|done].
    apply IH. by eapply key_keeps_tail_is_current.
Qed.

(** X13.  Where the explorer shows the tail frame of its stack, the
    keys that go back return: they drop the tail frame when there is
    another below it, never the last one, and leave the stores as they
    are. *)
Theorem back_key_returns {sel : stack_layout.Select} self key :
  key = key_left ∨ key = key_escape →
  help_layout_visible self = false →
  tail_is_current self →
  ∃ self', process_key_event key self = (Ok tt, self')
    ∧ tail_is_current self'
    ∧ length (stack_layout.stack (stack self'))
      = Nat.max 1 (length (stack_layout.stack (stack self)) - 1)
    ∧ nodes self' = nodes self
    ∧ explorer_layouts self' = explorer_layouts self
    ∧ overview_layouts self' = overview_layouts self.
Proof.
  intros K Hh T. pose proof T as (f & Hl & Hc & He & Ho).
  apply last_Some in Hl as [frames Hst].
  destruct frames as [|f0 frames _] using rev_ind.
  - exists self. rewrite (escape_single_frame self f key); [|done..].
    rewrite Hst. by repeat split.
  - rewrite <- app_assoc in Hst. cbn in Hst.
    rewrite (pop_run self frames f0 f key) by done.
    eexists. split; [reflexivity|]. cbn. split_and!; try done.
    + exists f0. cbn. by rewrite last_snoc.
    + rewrite Hst, !length_app. cbn. lia.
Qed.

(** A selected object was read through a live explorer layout *)
Lemma selected_object_layout self c :
  (selected_object self).1 = Ok c →
  explorer_layout self < length (explorer_layouts self).
Proof.
  unfold selected_object. rewrite bind_run, get_run. cbv beta iota.
  rewrite bind_run, deref_layout_run.
  destruct (explorer_layouts self !! explorer_layout self) eqn:E; [|done].
  intros _. by eapply lookup_lt_Some.
Qed.

(** A drill-in that returned had its node cached *)
Lemma push_cached {sel : stack_layout.Select} self c child s1 :
  help_layout_visible self = false →
  stack_layout.visible (stack self) = false →
  (selected_object self).1 = Ok c →
  nodes self !! c = Some child →
  is_selectable (obj child) = true →
  process_key_event key_right self = (Ok tt, s1) →
  (cached_object.cache c (nodes self)).1 = Ok tt.
Proof.
  intros Hh V Sel Hc Hs.
  assert (process_key_event key_right self = select_branch self) as ->.
  { unfold process_key_event. mstep. by rewrite Hh. }
  unfold select_branch. mstep. rewrite V. mstep.
  rewrite (selected_object_run _ _ Sel). mstep.
  rewrite deref_node_run, Hc. mstep. rewrite Hs. cbn [negb]. mstep.
  destruct self as [ns els ols co st hv el ol fv]. cbn in *.
  unfold on_explorer_layouts. cbn. mstep. unfold on_nodes at 1. cbn.
  destruct (cached_object.cache c ns) as [[[]|e] ns']; [done|].
  mstep. done.
Qed.

(** X14.  Drilling into a selectable node and going back at once
    brings the explorer back to where it was: the same current node,
    layouts and stack, and the same collection, cursor and preview
    mode.  What stays is the cache of the node that was visited and
    the explorer layout that was made for it. *)
Theorem drill_in_then_back {sel : stack_layout.Select} self c child s2 :
  help_layout_visible self = false →
  stack_layout.visible (stack self) = false →
  tail_is_current self →
  (selected_object self).1 = Ok c →
  nodes self !! c = Some child →
  is_selectable (obj child) = true →
  process_keys [key_right; key_left] self = (Ok tt, s2) →
  s2 = with_nodes (cached_object.cache c (nodes self)).2
         (with_explorer_layouts
            (explorer_layouts self ++ [explorer_layout.__init__ c]) self)
  ∧ ui_state s2 = ui_state self.
Proof.
  intros Hh V T Sel Hn Hs. unfold process_keys. cbn [for_in].
  rewrite bind_run.
  destruct (process_key_event key_right self) as [[[]|] s1] eqn:E1; [|done].
  rewrite bind_run.
  destruct (process_key_event key_left s1) as [[[]|] s2'] eqn:E2; [|done].
  rewrite ret_run. intros [= <-].
  pose proof (push_cached self c child s1 Hh V Sel Hn Hs E1) as C.
  destruct (cached_object.cache c (nodes self)) as [r nodes'] eqn:C'.
  cbn in C. subst r.
  rewrite (push_run self c child nodes' Hh V Sel Hn Hs C') in E1.
  injection E1 as <-.
  destruct T as (f & Hl & Hc & He & Ho).
  apply last_Some in Hl as [frames Hst].
  erewrite (pop_run _ frames f) in E2; [|by left|done|].
  2:{ cbn. rewrite Hst, <- app_assoc. reflexivity. }
  injection E2 as <-.
  pose proof (selected_object_layout self c Sel) as L.
  split.
  - destruct self as [ns els ols co st hv el ol fv].
    destruct st as [ho fs ix vis]. cbn in *. subst. reflexivity.
  - unfold ui_state. cbn. rewrite He, Ho. by rewrite lookup_app_l.
Qed.

Lemma on_overview_layouts_run' {A} (m : M (list overview_layout.OverviewLayout) A) self :
  on_overview_layouts m self
  = ((m (overview_layouts self)).1,
     with_overview_layouts (m (overview_layouts self)).2 self).
Proof. unfold on_overview_layouts. by destruct (m (overview_layouts self)). Qed.

(** Reading the selected object does not look at the overview
    layouts *)
Lemma selected_object_overview self v :
  (selected_object (with_overview_layouts v self)).1 = (selected_object self).1.
Proof.
  unfold selected_object. rewrite !bind_run, !get_run. cbv beta iota.
  rewrite !bind_run, !deref_layout_run. cbn.
  destruct (explorer_layouts self !! explorer_layout self) as [layout|]; [|done].
  by rewrite !on_nodes_run.
Qed.

(** X15.  The keys that switch between the public and the private
    members, and those that switch the preview between repr and
    source, undo themselves: pressed a second time they bring the
    explorer back to what it was before the first. *)
Theorem view_key_twice {sel : stack_layout.Select} key self s1 :
  key = key_bracket ∨ key = key_brace →
  process_key_event key self = (Ok tt, s1) →
  process_key_event key s1 = (Ok tt, self).
Proof.
  intros K. unfold process_key_event. mstep.
  destruct (help_layout_visible self) eqn:Hh.
  { destruct K as [-> | ->]; mstep; intros [= <-]; mstep; by rewrite Hh. }
  destruct K as [-> | ->].
  - (* the members shown *)
    unfold switch_attributes. mstep. rewrite !on_explorer_layouts_run.
    unfold modify.
    destruct (explorer_layouts self !! explorer_layout self) as [layout|] eqn:El;
      [|done].
    cbn [fst snd]. intros [= <-]. mstep. cbn [help_layout_visible with_explorer_layouts].
    rewrite Hh. mstep. rewrite on_explorer_layouts_run.
    cbn [explorer_layouts explorer_layout with_explorer_layouts].
    rewrite list_lookup_insert_eq by (by eapply lookup_lt_Some). cbn [fst snd].
    rewrite list_insert_insert_eq. f_equal.
    rewrite list_insert_id; [by destruct self|].
    rewrite El. f_equal. by destruct layout as [co [] ix].
  - (* the preview *)
    unfold switch_pane. mstep.
    pose proof (selected_object_state self) as S.
    destruct (selected_object self) as [[c|] s] eqn:Sel; cbn in S; subst s; mstep;
      [|done].
    rewrite deref_node_run. destruct (nodes self !! c) as [child|] eqn:Hc; mstep; [|done].
    destruct (callable (obj child)) eqn:Call; cbn [negb]; mstep.
    + rewrite on_overview_layouts_run'. unfold modify.
      destruct (overview_layouts self !! overview_layout self) as [layout|] eqn:Ol;
        [|done].
      cbn [fst snd]. intros [= <-]. mstep.
      cbn [help_layout_visible with_overview_layouts]. rewrite Hh. mstep.
      match goal with
      | |- context [selected_object (with_overview_layouts ?v self)] =>
          pose proof (selected_object_overview self v) as Sel'
      end.
      rewrite Sel in Sel'. cbn [fst] in Sel'.
      rewrite (selected_object_run _ _ Sel'). mstep.
      rewrite deref_node_run. cbn [nodes with_overview_layouts]. rewrite Hc. mstep.
      rewrite Call. cbn [negb]. mstep. rewrite on_overview_layouts_run'.
      cbn [overview_layouts overview_layout with_overview_layouts].
      unfold modify.
      rewrite list_lookup_insert_eq by (by eapply lookup_lt_Some). cbn [fst snd].
      rewrite list_insert_insert_eq. f_equal.
      rewrite list_insert_id; [by destruct self|].
      rewrite Ol. f_equal. by destruct layout as [st []].
    + intros [= <-]. mstep. rewrite Hh. mstep. rewrite Sel. mstep.
      rewrite deref_node_run, Hc. mstep. by rewrite Call.
Qed.
Lemma nodes_kept_fields self self' :
  nodes self' = nodes self → session.nodes_kept self self'.
Proof. intros E c n Hc. exists n. by rewrite E. Qed.

Lemma nodes_kept_trans (s1 s2 s3 : Explorer) :
  session.nodes_kept s1 s2 → session.nodes_kept s2 s3 → session.nodes_kept s1 s3.
Proof.
  intros H12 H23 c n Hc.
  destruct (H12 c n Hc) as (n2 & Hc2 & Hk2).
  destruct (H23 c n2 Hc2) as (n3 & Hc3 & Hk3).
  exists n3. split; [done|congruence].
Qed.

Lemma nodes_kept_cache self self' c :
  nodes self' = (cached_object.cache c (nodes self)).2 →
  session.nodes_kept self self'.
Proof.
  intros E i n Hi. rewrite E.
  destruct (cache_extends c (nodes self) i n Hi) as (n' & H1 & H2 & _). eauto.
Qed.

Lemma key_keeps_nodes {sel : stack_layout.Select} key self self' :
  process_key_event key self = (Ok tt, self') →
  session.nodes_kept self self'.
Proof.
  unfold process_key_event. mstep.
  destruct (help_layout_visible self) eqn:Hh.
  { destruct key; mstep; intros E; injection E as <-; by apply nodes_kept_fields. }
  destruct key.
  - (* drilling in, jumping *)
    unfold select_branch. mstep.
    destruct (stack_layout.visible (stack self)).
    + mstep. unfold lift at 1.
      destruct (stack_layout.__getitem__ _ _) as [frame|]; mstep; [|done].
      destruct (bool_decide _); mstep; [intros [= <-]; by apply nodes_kept_fields|].
      unfold lift at 1. destruct (stack_layout.select _) as [[c stack']|]; mstep; [|done].
      unfold on_explorer_layouts at 1. cbn [new]. mstep.
      unfold on_nodes at 1.
      destruct (cached_object.cache c _) as [[[]|] ns] eqn:C; mstep; [|done].
      intros [= <-]. apply (nodes_kept_cache _ _ c). cbn in *. by rewrite C.
    + mstep. pose proof (selected_object_state self) as S.
      destruct (selected_object self) as [[c|] s]; cbn in S; subst s; mstep; [|done].
      rewrite deref_node_run. destruct (nodes self !! c) as [child|]; mstep; [|done].
      destruct (negb _); mstep; [intros [= <-]; by apply nodes_kept_fields|].
      unfold on_explorer_layouts at 1. cbn [new]. mstep.
      unfold on_nodes at 1.
      destruct (cached_object.cache c _) as [[[]|] ns] eqn:C; mstep; [|done].
      intros [= <-]. apply (nodes_kept_cache _ _ c). cbn in *. by rewrite C.
  - (* going back *)
    unfold escape_branch. mstep.
    destruct (stack_layout.__bool__ (stack self)); mstep;
      [|intros [= <-]; by apply nodes_kept_fields].
    unfold lift.
    repeat (match goal with
            | |- context [stack_layout.__getitem__ ?s ?i] =>
                destruct (stack_layout.__getitem__ s i); mstep; [|done]
            end).
    intros [= <-]. by apply nodes_kept_fields.
  - (* going back, by escape *)
    unfold escape_branch. mstep.
    destruct (stack_layout.__bool__ (stack self)); mstep;
      [|intros [= <-]; by apply nodes_kept_fields].
    unfold lift.
    repeat (match goal with
            | |- context [stack_layout.__getitem__ ?s ?i] =>
                destruct (stack_layout.__getitem__ s i); mstep; [|done]
            end).
    intros [= <-]. by apply nodes_kept_fields.
  - unfold switch_attributes. mstep. unfold on_explorer_layouts.
    destruct (modify _ _ _) as [[[]|] ls]; [|done].
    intros [= <-]. by apply nodes_kept_fields.
  - unfold switch_pane. mstep. pose proof (selected_object_state self) as S.
    destruct (selected_object self) as [[c|] s]; cbn in S; subst s; mstep; [|done].
    rewrite deref_node_run. destruct (nodes self !! c) as [child|]; mstep; [|done].
    destruct (negb _); mstep; [intros [= <-]; by apply nodes_kept_fields|].
    unfold on_overview_layouts.
    destruct (modify _ _ _) as [[[]|] ls]; [|done].
    intros [= <-]. by apply nodes_kept_fields.
Qed.

(** X20.  A session never loses a node and never gives it another
    object: after any keys that return, every node the explorer had is
    at its address, and is the same but for its members and its
    filtered fields. *)
Theorem session_keeps_nodes {sel : stack_layout.Select} keys self self' :
  process_keys keys self = (Ok tt, self') →
  session.nodes_kept self self'.
Proof.
  revert self. unfold process_keys.
  induction keys as [|key keys IH]; intros self; cbn [for_in].
  - intros [= <-]. by apply nodes_kept_fields.
  - rewrite bind_run.
    destruct (process_key_event key self) as [[[]|] s] eqn:E; [|done].
    intros E'. eapply nodes_kept_trans; [by eapply key_keeps_nodes|by apply IH].
Qed.
End NavigationMore.

(** * The view keys and the loop of [Explorer.explore] *)
Section SessionMore.
Context {handle FunctionType : Type} `{!Reflection handle FunctionType}.
Import objexplore session.
Abbreviation Explorer := (Explorer handle FunctionType).
Implicit Types (self : Explorer) (key : Keystroke).

Ltac mstep :=
  repeat (progress (rewrite ?bind_run, ?ret_run; cbv beta iota;
                    try (unfold get at 1; cbv beta iota);
                    try (unfold put at 1; cbv beta iota))).

Lemma on_overview_layouts_modify self f layout :
  overview_layouts self !! overview_layout self = Some layout →
  on_overview_layouts (modify (overview_layout self) f) self
  = (Ok tt, with_overview_layouts
              (<[overview_layout self := f layout]> (overview_layouts self)) self).
Proof. intros E. unfold on_overview_layouts, modify. by rewrite E. Qed.

(** One press of a toggle key *)
Lemma toggle_run {sel : stack_layout.Select} key view self layout :
  toggled_view key = Some view →
  help_layout_visible self = false →
  overview_layouts self !! overview_layout self = Some layout →
  process_keystroke key self
  = (Ok None,
     with_overview_layouts
       (<[overview_layout self :=
            {| overview_layout.state :=
                 if decide (overview_layout.state layout = view)
                 then overview_layout.all else view;
               overview_layout.preview_state := overview_layout.preview_state layout |}]>
          (overview_layouts self)) self).
Proof.
  intros K Hh Ol.
  destruct key; try discriminate K; injection K as <-.
  - unfold process_keystroke, toggle_docstring. mstep. rewrite Hh. mstep.
    rewrite (on_overview_layouts_modify _ _ _ Ol). mstep.
    by destruct layout as [[] ?].
  - unfold process_keystroke, toggle_value. mstep. rewrite Hh. mstep.
    rewrite (on_overview_layouts_modify _ _ _ Ol). mstep.
    by destruct layout as [[] ?].
Qed.

(** X16.  The keys "d" and "p" switch the overview to their view, and
    back to the view of everything when it shows their view already;
    the preview mode stays.  Pressed twice, either key brings the
    explorer back to what it was, unless the overview showed the other
    key's view: then it ends on the view of everything. *)
Theorem overview_toggle_twice {sel : stack_layout.Select} key view self layout :
  toggled_view key = Some view →
  help_layout_visible self = false →
  overview_layouts self !! overview_layout self = Some layout →
  ∃ s1 s2,
    process_keystroke key self = (Ok None, s1)
    ∧ process_keystroke key s1 = (Ok None, s2)
    ∧ overview_layouts s1 !! overview_layout s1
      = Some {| overview_layout.state :=
                  if decide (overview_layout.state layout = view)
                  then overview_layout.all else view;
                overview_layout.preview_state := overview_layout.preview_state layout |}
    ∧ s2 = with_overview_layouts
             (<[overview_layout self :=
                  {| overview_layout.state :=
                       if decide (overview_layout.state layout = view)
                       then view else overview_layout.all;
                     overview_layout.preview_state :=
                       overview_layout.preview_state layout |}]>
                (overview_layouts self)) self
    ∧ (overview_layout.state layout = overview_layout.all
       ∨ overview_layout.state layout = view → s2 = self).
Proof.
  intros K Hh Ol. pose proof (lookup_lt_Some _ _ _ Ol) as L.
  eexists _, _. split; [by apply (toggle_run key view self layout)|].
  split.
  { eapply (toggle_run key view); [done|done|].
    cbn. by apply list_lookup_insert_eq. }
  cbn [overview_layouts overview_layout with_overview_layouts overview_layout.state
       overview_layout.preview_state].
  rewrite list_insert_insert_eq.
  split; [by apply list_lookup_insert_eq|].
  assert (view = overview_layout.docstring ∨ view = overview_layout.value) as Hv
    by (destruct key; try discriminate K; injection K as <-; auto).
  split.
  - destruct self, layout as [st pv]. unfold with_overview_layouts. cbn. do 3 f_equal.
    destruct Hv as [-> | ->]; by destruct st.
  - intros E. destruct layout as [st pv]. cbn in *.
    assert ((if decide ((if decide (st = view) then overview_layout.all else view) = view)
             then overview_layout.all else view) = st) as ->.
    { destruct E as [-> | ->], Hv as [-> | ->]; done. }
    rewrite list_insert_id by done. by destruct self.
Qed.

(** The key "q" has no result *)
Lemma process_keystroke_q {sel : stack_layout.Select} self :
  process_keystroke keystroke_q self = (Ok None, self).
Proof.
  unfold process_keystroke. mstep. by destruct (help_layout_visible self).
Qed.

(** X17.  The loop of [explore] ends with the first "q": the keys
    after it are never read, and with a "q" among the keys the loop
    does not wait for a further key. *)
Theorem explore_stops_at_q {sel : stack_layout.Select} truth draw keys rest self :
  explore truth draw (keys ++ keystroke_q :: rest) self
  = explore truth draw (keys ++ [keystroke_q]) self
  ∧ (explore truth draw (keys ++ keystroke_q :: rest) self).1 ≠ Ok None.
Proof.
  revert self. induction keys as [|key keys IH]; intros self; cbn [app explore].
  - rewrite !bind_run. destruct (draw self) as [[[]|e] s]; [|done].
    rewrite !bind_run, process_keystroke_q. cbn [truthy_result]. unfold lift. by mstep.
  - rewrite !bind_run. destruct (draw self) as [[[]|e] s]; [|done].
    rewrite !bind_run. destruct (process_keystroke key s) as [[res|e] s']; [|done].
    rewrite !bind_run. unfold lift.
    destruct (truthy_result truth res) as [[|]|e]; [done| |done].
    destruct key; try apply IH. done.
Qed.

(** X18.  What [explore] returns: an object only when its [bool()] is
    true, and [None] only after a "q". *)
Theorem explore_result {sel : stack_layout.Select} truth draw keys self res self' :
  explore truth draw keys self = (Ok (Some res), self') →
  match res with
  | Some o => truth o = Ok true
  | None => keystroke_q ∈ keys
  end.
Proof.
  revert self. induction keys as [|key keys IH]; intros self; cbn [explore].
  - by rewrite ret_run.
  - rewrite bind_run. destruct (draw self) as [[[]|e] s]; [|done].
    rewrite bind_run. destruct (process_keystroke key s) as [[res'|e] s'] eqn:P; [|done].
    rewrite bind_run. unfold lift.
    destruct (truthy_result truth res') as [[|]|e] eqn:Tr; [| |done].
    + rewrite ret_run. intros [= <- <-]. by destruct res'.
    + assert (∀ keys', (explore truth draw keys' s' = (Ok (Some res), self') →
                        match res with
                        | Some o => truth o = Ok true
                        | None => keystroke_q ∈ keys'
                        end) →
                       explore truth draw keys' s' = (Ok (Some res), self') →
                       match res with
                       | Some o => truth o = Ok true
                       | None => keystroke_q ∈ key :: keys'
                       end) as Step.
      { intros keys' H E. specialize (H E). destruct res; [done|].
        by apply list_elem_of_further. }
      destruct key; try (apply Step, IH).
      rewrite process_keystroke_q in P. injection P as <- <-.
      rewrite ret_run. intros [= <- <-]. apply list_elem_of_here.
Qed.

(** X19.  The key "r" in the loop of [explore], with the help page
    closed: the selected object is returned when its [bool()] is true;
    when it is false the loop goes on with the next key, the explorer
    as it was; and when [bool()] raises, so does [explore]. *)
Theorem return_key {sel : stack_layout.Select} truth draw keys self s1 c n :
  draw self = (Ok tt, s1) →
  help_layout_visible s1 = false →
  (selected_object s1).1 = Ok c →
  nodes s1 !! c = Some n →
  explore truth draw (keystroke_r :: keys) self
  = match truth (obj n) with
    | Ok true => (Ok (Some (Some (obj n))), s1)
    | Ok false => explore truth draw keys s1
    | Raise e => (Raise e, s1)
    end.
Proof.
  intros D Hh Sel Hn. cbn [explore]. rewrite bind_run, D.
  unfold process_keystroke, return_selected. mstep. rewrite Hh. mstep.
  rewrite (selected_object_run _ _ Sel). mstep.
  rewrite deref_node_run, Hn. mstep. cbn [truthy_result]. unfold lift.
  by destruct (truth (obj n)) as [[|]|e].
Qed.
End SessionMore.

(** * The theorems above, on the small world and on the odd objects *)

Lemma init_member_names_witness :
  ∃ c, cached_object.__init__ world.root None (Some "root") None = Ok c
    ∧ (plain_public_attributes c ++ plain_private_attributes c
       ≡ₚ CachedObject_methods.kept_names world.root)
    ∧ Forall (λ attr, startswith_underscore attr = false) (plain_public_attributes c)
    ∧ Forall (λ attr, startswith_underscore attr = true) (plain_private_attributes c)
    ∧ Sorted (λ a b, Is_true (String.leb a b)) (plain_public_attributes c)
    ∧ Sorted (λ a b, Is_true (String.leb a b)) (plain_private_attributes c).
Proof.
  destruct (cached_object.__init__ world.root None (Some "root") None) as [c|] eqn:E;
    [|discriminate E].
  exists c. split; [reflexivity|].
  exact (init_member_names world.root None (Some "root") None c E).
Defined.

Lemma init_drops_weakref_witness :
  ∃ c, cached_object.__init__ world.root None (Some "root") None = Ok c
    ∧ "__weakref__" ∈ dir world.root
    ∧ ("__weakref__" ∉ plain_public_attributes c ++ plain_private_attributes c)
    ∧ "_cfg" ∈ plain_public_attributes c ++ plain_private_attributes c.
Proof.
  destruct (cached_object.__init__ world.root None (Some "root") None) as [c|] eqn:E;
    [|discriminate E].
  exists c. split; [reflexivity|].
  destruct (init_drops_weakref world.root None (Some "root") None c E) as [H1 H2].
  split; [|split].
  - apply list_elem_of_In. vm_compute. do 4 right. left. reflexivity.
  - apply H2. refine (bool_decide_unpack _ _). vm_compute. exact I.
  - apply H1; [discriminate|].
    apply list_elem_of_In. vm_compute. do 3 right. left. reflexivity.
Defined.

Lemma get_source_of_node_witness :
  ∃ c, cached_object.__init__ world.fn (Some "child") (Some "call") None = Ok c
    ∧ CachedObject_methods.get_source c 0 false
      = Raise (ValueError "Need a terminal height")
    ∧ CachedObject_methods.get_source c 24 false
      = Ok (CachedObject_methods.Syntax "def call(): pass" (Some (0%Z, 24%Z)))
    ∧ CachedObject_methods.get_source c 0 true
      = Ok (CachedObject_methods.Syntax "def call(): pass" None).
Proof.
  destruct (cached_object.__init__ world.fn (Some "child") (Some "call") None)
    as [c|] eqn:E; [|discriminate E].
  exists c. split; [reflexivity|]. split; [|split].
  - exact (get_source_of_node world.fn (Some "child") (Some "call") None c 0 false E).
  - exact (get_source_of_node world.fn (Some "child") (Some "call") None c 24 false E).
  - exact (get_source_of_node world.fn (Some "child") (Some "call") None c 0 true E).
Defined.

Lemma info_layout_of_node_witness :
  ∃ c, cached_object.__init__ oddities.empty (Some "box") (Some "content") None = Ok c
    ∧ OverviewLayout_methods.get_info_layout c
      = OverviewLayout_methods.Row (Some 3)
          (OverviewLayout_methods.Layout (OverviewLayout_methods.get_type_panel c) None)
          (OverviewLayout_methods.Layout
             (OverviewLayout_methods.Panel "0" "[i][cyan]len[/cyan]()[/i]") None).
Proof.
  destruct (cached_object.__init__ oddities.empty (Some "box") (Some "content") None)
    as [c|] eqn:E; [|discriminate E].
  exists c. split; [reflexivity|].
  exact (info_layout_of_node oddities.empty (Some "box") (Some "content") None c E).
Defined.

Lemma filter_frame_witness :
  ∃ n n', stores.child_filtering !! 1 = Some n
    ∧ (cached_object.filter 0 stores.child_filtering).2 !! 1 = Some n'
    ∧ n' = n.
Proof.
  destruct (stores.child_filtering !! 1) as [n|] eqn:Hn; [|discriminate Hn].
  destruct (filter_frame 0 stores.child_filtering 1 n Hn) as (_ & n' & H1 & _ & H2).
  exists n, n'. split; [reflexivity|]. split; [exact H1|].
  apply H2. discriminate.
Defined.

Lemma cache_frame_witness :
  ∃ n n', stores.seq_seed !! 0 = Some n
    ∧ (length stores.seq_seed ≤ length (cached_object.cache 0 stores.seq_seed).2)%nat
    ∧ (cached_object.cache 0 stores.seq_seed).2 !! 0 = Some n'
    ∧ uncached n' = uncached n.
Proof.
  destruct (stores.seq_seed !! 0) as [n|] eqn:Hn; [|discriminate Hn].
  destruct (cache_frame 0 stores.seq_seed 0 n Hn) as (L & n' & H1 & H2 & _).
  exists n, n'. split; [reflexivity|]. split; [exact L|]. split; [exact H1|exact H2].
Defined.

Lemma cache_keeps_filed_members_witness :
  ∃ n n', stores.child_cached !! 0 = Some n
    ∧ (cached_object.cache 0 stores.child_cached).2 !! 0 = Some n'
    ∧ public_attributes n' = public_attributes n
    ∧ public_attributes n ≠ [].
Proof.
  destruct (stores.child_cached !! 0) as [n|] eqn:Hn; [|discriminate Hn].
  destruct (cache_keeps_filed_members 0 stores.child_cached n Hn) as (n' & H1 & H2 & _).
  assert (public_attributes n ≠ []) as Hp
    by (vm_compute in Hn; injection Hn as <-; discriminate).
  exists n, n'. split; [reflexivity|]. split; [exact H1|]. split; [exact (H2 Hp)|exact Hp].
Defined.

Lemma cache_files_members_witness :
  ∃ n n', stores.seed world.child "child" !! 0 = Some n
    ∧ (cached_object.cache 0 (stores.seed world.child "child")).2 !! 0 = Some n'
    ∧ plain_public_attributes n = ["call"; "items"]
    ∧ Forall2 (member_filed n (stores.seed world.child "child")
                 (cached_object.cache 0 (stores.seed world.child "child")).2)
              (plain_public_attributes n) (public_attributes n').
Proof.
  destruct (stores.seed world.child "child" !! 0) as [n|] eqn:Hn; [|discriminate Hn].
  destruct (cache_files_members 0 (stores.seed world.child "child") n
              (cached_object.cache 0 (stores.seed world.child "child")).2 Hn)
    as (n' & H1 & H2 & _).
  - vm_compute in Hn. injection Hn as <-. reflexivity.
  - vm_compute in Hn. injection Hn as <-. reflexivity.
  - vm_compute in Hn. injection Hn as <-.
    refine (bool_decide_unpack _ _). vm_compute. exact I.
  - vm_compute in Hn. injection Hn as <-.
    refine (bool_decide_unpack _ _). vm_compute. exact I.
  - vm_compute. reflexivity.
  - exists n, n'. split; [reflexivity|]. split; [exact H1|]. split; [|exact H2].
    vm_compute in Hn. injection Hn as <-. reflexivity.
Defined.

Lemma set_filters_views_witness :
  ∃ n n', stores.child_cached !! 0 = Some n
    ∧ (cached_object.set_filters 0 [world.callables] stores.child_cached).2 !! 0 = Some n'
    ∧ filters n' = [world.callables]
    ∧ filtered_public_attributes n'
      = view (λ e : string * ref, e.2) [world.callables]
          (cached_object.set_filters 0 [world.callables] stores.child_cached).2
          (public_attributes n).
Proof.
  destruct (stores.child_cached !! 0) as [n|] eqn:Hn; [|discriminate Hn].
  destruct (set_filters_views 0 stores.child_cached n [world.callables] Hn)
    as (n' & H1 & H2 & _ & _ & H5 & _).
  - vm_compute in Hn. injection Hn as <-. repeat constructor; cbn; lia.
  - vm_compute in Hn. injection Hn as <-.
    refine (bool_decide_unpack _ _). vm_compute. exact I.
  - vm_compute in Hn. injection Hn as <-.
    refine (bool_decide_unpack _ _). vm_compute. exact I.
  - exists n, n'. split; [reflexivity|]. split; [exact H1|]. split; [exact H2|exact H5].
Defined.

Lemma filter_plain_object_witness :
  ∃ n', cached_object.filter 0 stores.child_cached
        = (Ok tt, <[0 := n']> stores.child_cached)
    ∧ filtered_dict n' = [] ∧ filtered_list n' = [].
Proof.
  destruct (stores.child_cached !! 0) as [n|] eqn:Hn; [|discriminate Hn].
  apply (filter_plain_object 0 stores.child_cached n Hn).
  - vm_compute in Hn. injection Hn as <-. repeat constructor; cbn; lia.
  - vm_compute in Hn. injection Hn as <-. reflexivity.
Defined.

Lemma filter_raises_on_None_key_witness :
  ∃ e h', cached_object.filter 0 oddities.holder_seed = (Raise e, h').
Proof.
  destruct (oddities.holder_seed !! 0) as [n|] eqn:Hn; [|discriminate Hn].
  apply (filter_raises_on_None_key 0 oddities.holder_seed n oddities.seven Hn).
  - vm_compute in Hn. injection Hn as <-. constructor.
  - vm_compute in Hn. injection Hn as <-.
    refine (bool_decide_unpack _ _). vm_compute. exact I.
  - vm_compute in Hn. injection Hn as <-. reflexivity.
  - vm_compute in Hn. injection Hn as <-. apply list_elem_of_here.
  - reflexivity.
Defined.

Lemma session_shows_tail_witness :
  tail_is_current
    (sessions.after [objexplore.key_right; objexplore.key_brace; objexplore.key_bracket]
       sessions.start).
Proof.
  apply (session_shows_tail (sel := stack_layout.select_lookup) world.root "root"
           [objexplore.key_right; objexplore.key_brace; objexplore.key_bracket]
           sessions.start);
    vm_compute; reflexivity.
Defined.

Lemma back_key_returns_witness :
  ∃ self', objexplore.process_key_event (sel := stack_layout.select_lookup)
             objexplore.key_left sessions.in_child = (Ok tt, self')
    ∧ length (stack_layout.stack (objexplore.stack sessions.in_child)) = 2
    ∧ length (stack_layout.stack (objexplore.stack self')) = 1.
Proof.
  destruct (back_key_returns (sel := stack_layout.select_lookup) sessions.in_child
              objexplore.key_left) as (self' & H1 & _ & H3 & _).
  - by left.
  - reflexivity.
  - eexists. split; [reflexivity|]. by repeat split.
  - exists self'. split; [exact H1|]. split; [reflexivity|exact H3].
Defined.

Lemma drill_in_then_back_witness :
  ui_state (sessions.after [objexplore.key_right; objexplore.key_left] sessions.start)
  = ui_state sessions.start.
Proof.
  destruct (objexplore.nodes sessions.start !! 1) as [child|] eqn:Hc; [|discriminate Hc].
  destruct (drill_in_then_back (sel := stack_layout.select_lookup) sessions.start 1 child
              (sessions.after [objexplore.key_right; objexplore.key_left] sessions.start))
    as [_ H].
  - reflexivity.
  - reflexivity.
  - eexists. split; [reflexivity|]. by repeat split.
  - vm_compute. reflexivity.
  - exact Hc.
  - vm_compute in Hc. injection Hc as <-. reflexivity.
  - vm_compute. reflexivity.
  - exact H.
Defined.

Lemma view_key_twice_witness :
  objexplore.process_key_event (sel := stack_layout.select_lookup) objexplore.key_bracket
    (sessions.after [objexplore.key_bracket] sessions.start)
  = (Ok tt, sessions.start).
Proof.
  apply (view_key_twice (sel := stack_layout.select_lookup) objexplore.key_bracket
           sessions.start (sessions.after [objexplore.key_bracket] sessions.start)).
  - by left.
  - vm_compute. reflexivity.
Defined.

Lemma overview_toggle_twice_witness :
  ∃ s1, session.process_keystroke (sel := stack_layout.select_lookup)
          session.keystroke_d sessions.start = (Ok None, s1)
    ∧ session.process_keystroke (sel := stack_layout.select_lookup)
        session.keystroke_d s1 = (Ok None, sessions.start).
Proof.
  destruct (objexplore.overview_layouts sessions.start
              !! objexplore.overview_layout sessions.start) as [layout|] eqn:Ol;
    [|discriminate Ol].
  destruct (overview_toggle_twice (sel := stack_layout.select_lookup) session.keystroke_d
              overview_layout.docstring sessions.start layout eq_refl eq_refl Ol)
    as (s1 & s2 & H1 & H2 & _ & _ & H5).
  assert (s2 = sessions.start) as ->.
  { apply H5. left. vm_compute in Ol. by injection Ol as <-. }
  exists s1. split; [exact H1|exact H2].
Defined.

Lemma explore_result_witness :
  session.explore (sel := stack_layout.select_lookup) world_truth (mret tt)
    [session.keystroke_r] sessions.start
  = (Ok (Some (Some world.child)), sessions.start)
  ∧ world_truth world.child = Ok true.
Proof.
  assert (session.explore (sel := stack_layout.select_lookup) world_truth (mret tt)
            [session.keystroke_r] sessions.start
          = (Ok (Some (Some world.child)), sessions.start)) as E
    by (vm_compute; reflexivity).
  split; [exact E|].
  exact (explore_result (sel := stack_layout.select_lookup) world_truth (mret tt)
           [session.keystroke_r] sessions.start (Some world.child) sessions.start E).
Defined.

Lemma return_key_witness :
  session.explore (sel := stack_layout.select_lookup) oddities.truth (mret tt)
    [session.keystroke_r; session.keystroke_q] oddities.start
  = (Ok (Some None), oddities.start).
Proof.
  destruct (objexplore.nodes oddities.start !! 1) as [n|] eqn:Hn; [|discriminate Hn].
  rewrite (return_key (sel := stack_layout.select_lookup) oddities.truth (mret tt)
             [session.keystroke_q] oddities.start oddities.start 1 n);
    [|reflexivity|reflexivity|vm_compute; reflexivity|exact Hn].
  vm_compute in Hn. injection Hn as <-. vm_compute. reflexivity.
Defined.

Lemma session_keeps_nodes_witness :
  session.nodes_kept sessions.start
    (sessions.after [objexplore.key_right; objexplore.key_brace; objexplore.key_left]
       sessions.start).
Proof.
  apply (session_keeps_nodes (sel := stack_layout.select_lookup)
           [objexplore.key_right; objexplore.key_brace; objexplore.key_left]
           sessions.start).
  vm_compute. reflexivity.
Defined.
